(** * Tapeworm: image-sequence inference, a shallow embedding

    The development follows the Python sources
    [tapeworm/utils.py], [tapeworm/image_sequence.py] and
    [tapeworm/input_output.py].  Python [str] values are [string]s of
    8-bit characters, Python integers are [Z] (lengths and indices are
    [nat]), exceptions are values of [exn] carried by [result], and the
    file system is an explicit state. *)

From Stdlib Require Import String Ascii List ZArith Lia Bool Arith PeanoNat.
From Stdlib Require Import Permutation Sorted.
Import ListNotations.
Open Scope string_scope.

Set Implicit Arguments.

(** * Exceptions *)

(** The exception classes raised by the sources.  [ReError] is [re.error]
    (a pattern that does not compile); [ShutilError] is [shutil.Error],
    in Python 2 an [EnvironmentError] that is neither an [OSError] nor an
    [IOError]; [Unsupported] marks a pattern or a format string outside
    the fragment of [re], of [%]-formatting and of [str.format] that this
    development gives a meaning to. *)
Inductive exn : Type :=
| IOError | OSError | ValueError | TypeError | IndexError
| AttributeError | RuntimeError | ReError | Unsupported
| KeyError | OverflowError | ShutilError.

Inductive result (A : Type) : Type :=
| Ok (a : A)
| Raise (e : exn).
Arguments Ok {A} a.
Arguments Raise {A} e.

Definition bind {A B : Type} (r : result A) (k : A -> result B) : result B :=
  match r with
  | Ok a => k a
  | Raise e => Raise e
  end.

Declare Scope result_scope.
Delimit Scope result_scope with result.
Notation "x <- r ;; k" := (bind r (fun x => k))
  (at level 61, r at next level, right associativity) : result_scope.
Notation "' p <- r ;; k" := (bind r (fun x => let p := x in k))
  (at level 61, p pattern, r at next level, right associativity) : result_scope.
Open Scope result_scope.

Definition is_ok {A : Type} (r : result A) : bool :=
  match r with Ok _ => true | Raise _ => false end.

(** * Python built-ins *)

Module Py.

(** ** Characters *)

(** [c.isdigit()] for a one-character byte string. *)
Definition is_digit (c : ascii) : bool :=
  ((48 <=? nat_of_ascii c) && (nat_of_ascii c <=? 57))%nat.

(** [c.isspace()]: space, tab, newline, vertical tab, form feed, return. *)
Definition is_space (c : ascii) : bool :=
  ((nat_of_ascii c =? 32) || ((9 <=? nat_of_ascii c) && (nat_of_ascii c <=? 13)))%nat.

Definition upper_char (c : ascii) : ascii :=
  if ((97 <=? nat_of_ascii c) && (nat_of_ascii c <=? 122))%nat
  then ascii_of_nat (nat_of_ascii c - 32) else c.

(** ** Strings *)

Fixpoint take (n : nat) (s : string) : string :=
  match n, s with
  | S k, String c s' => String c (take k s')
  | _, _ => ""
  end.

Fixpoint drop (n : nat) (s : string) : string :=
  match n, s with
  | S k, String c s' => drop k s'
  | _, _ => s
  end.

(** [s[a:b]] for non-negative [a] and [b]; out-of-range bounds are clamped
    as Python does. *)
Definition slice (a b : nat) (s : string) : string := take (b - a) (drop a s).

(** [s[-1]] *)
Fixpoint last_char (s : string) : option ascii :=
  match s with
  | "" => None
  | String c "" => Some c
  | String _ s' => last_char s'
  end.

Fixpoint rev_acc (s acc : string) : string :=
  match s with
  | "" => acc
  | String c s' => rev_acc s' (String c acc)
  end.
Definition rev (s : string) : string := rev_acc s "".

Fixpoint all_chars (p : ascii -> bool) (s : string) : bool :=
  match s with
  | "" => true
  | String c s' => p c && all_chars p s'
  end.

(** [c in s] for a character [c]. *)
Fixpoint contains_char (c : ascii) (s : string) : bool :=
  match s with
  | "" => false
  | String c' s' => Ascii.eqb c c' || contains_char c s'
  end.

(** [s.isdigit()]: non-empty and every character a digit. *)
Definition isdigit (s : string) : bool :=
  match s with
  | "" => false
  | _ => all_chars is_digit s
  end.

Fixpoint upper (s : string) : string :=
  match s with
  | "" => ""
  | String c s' => String (upper_char c) (upper s')
  end.

Fixpoint lstrip (p : ascii -> bool) (s : string) : string :=
  match s with
  | String c s' => if p c then lstrip p s' else s
  | "" => ""
  end.
Definition rstrip (p : ascii -> bool) (s : string) : string :=
  rev (lstrip p (rev s)).
(** [s.strip(chars)] with the character set given as a predicate. *)
Definition strip (p : ascii -> bool) (s : string) : string :=
  rstrip p (lstrip p s).

Fixpoint repeat_char (c : ascii) (n : nat) : string :=
  match n with
  | O => ""
  | S k => String c (repeat_char c k)
  end.

(** [s.startswith(p)] *)
Fixpoint startswith (p s : string) : bool :=
  match p, s with
  | "", _ => true
  | String a p', String b s' => Ascii.eqb a b && startswith p' s'
  | _, "" => false
  end.

(** [s.find(sub)] as an option: [None] for Python's [-1]. *)
Fixpoint find (sub s : string) : option nat :=
  if startswith sub s then Some 0
  else match s with
       | "" => None
       | String _ s' => option_map S (find sub s')
       end.

(** [old in s] *)
Definition contains (old s : string) : bool :=
  match find old s with Some _ => true | None => false end.

(** [s.replace(old, new)]: every non-overlapping occurrence, leftmost
    first.  [skip] counts the characters of an occurrence still to be
    dropped.  For an empty [old] Python inserts [new] before every
    character and at the end. *)
Fixpoint replace_from (old new : string) (skip : nat) (s : string) : string :=
  match s with
  | "" => ""
  | String c s' =>
      match skip with
      | S k => replace_from old new k s'
      | O => if startswith old s
             then new ++ replace_from old new (String.length old - 1) s'
             else String c (replace_from old new 0 s')
      end
  end.
Fixpoint intersperse (new s : string) : string :=
  match s with
  | "" => new
  | String c s' => new ++ String c (intersperse new s')
  end.
Definition replace (old new s : string) : string :=
  match old with
  | "" => intersperse new s
  | _ => replace_from old new 0 s
  end.

(** ** Integers and their decimal notation *)

Definition digit_char (d : nat) : ascii := ascii_of_nat (48 + d).
Definition digit_val (c : ascii) : nat := nat_of_ascii c - 48.

(** The decimal digits of [n], most significant first; [fuel] bounds the
    number of digits. *)
Fixpoint str_nat_from (fuel n : nat) (acc : string) : string :=
  match fuel with
  | O => acc
  | S f =>
      let acc' := String (digit_char (n mod 10)) acc in
      if (n / 10 =? 0)%nat then acc' else str_nat_from f (n / 10) acc'
  end.
Definition str_nat (n : nat) : string := str_nat_from (S n) n "".

(** [str(z)] for an integer. *)
Definition str (z : Z) : string :=
  if (z <? 0)%Z then String "-" (str_nat (Z.abs_nat z)) else str_nat (Z.abs_nat z).

Fixpoint digits_value (acc : nat) (s : string) : nat :=
  match s with
  | "" => acc
  | String c s' => digits_value (10 * acc + digit_val c) s'
  end.

(** [int(s)] in base ten: optional surrounding white space, an optional
    sign, then a non-empty run of digits; anything else is a
    [ValueError]. *)
Definition int (s : string) : result Z :=
  let t := strip is_space s in
  match t with
  | String c ds =>
      if Ascii.eqb c "+" then
        if isdigit ds then Ok (Z.of_nat (digits_value 0 ds)) else Raise ValueError
      else if Ascii.eqb c "-" then
        if isdigit ds then Ok (- Z.of_nat (digits_value 0 ds))%Z else Raise ValueError
      else
        if isdigit t then Ok (Z.of_nat (digits_value 0 t)) else Raise ValueError
  | "" => Raise ValueError
  end.

(** [s[i]] and [s[a:b]] with Python's negative indices. *)
Definition index_z (i : Z) (s : string) : result ascii :=
  let n := Z.of_nat (String.length s) in
  let j := if (i <? 0)%Z then (i + n)%Z else i in
  if ((j <? 0) || (n <=? j))%Z then Raise IndexError
  else match String.get (Z.to_nat j) s with
       | Some c => Ok c
       | None => Raise IndexError
       end.

Definition clamp_index (i : Z) (s : string) : nat :=
  let n := Z.of_nat (String.length s) in
  Z.to_nat (Z.min n (Z.max 0 (if (i <? 0)%Z then (i + n)%Z else i))).

Definition slice_z (a b : Z) (s : string) : string :=
  slice (clamp_index a s) (clamp_index b s) s.

(** [s.zfill(width)]: zeros go after a leading sign. *)
Definition zfill (width : nat) (s : string) : string :=
  let zeros := repeat_char "0" (width - String.length s) in
  match s with
  | String c s' =>
      if Ascii.eqb c "+" || Ascii.eqb c "-" then String c (zeros ++ s')
      else zeros ++ s
  | "" => zeros
  end.

(** ** The [%] operator with one integer argument

    [fmt % i].  The conversions given a meaning are [%d] with an optional
    zero flag and an optional width, and [%%]; any other conversion is
    [Unsupported].  As in Python the argument must be consumed exactly
    once: a format without conversion, or with two, is a [TypeError]. *)

Definition render_int (spec : string) (i : Z) : string :=
  let width := digits_value 0 spec in
  let sign := if (i <? 0)%Z then "-" else "" in
  let body := str_nat (Z.abs_nat i) in
  if startswith "0" spec
  then sign ++ repeat_char "0" (width - String.length sign - String.length body) ++ body
  else repeat_char " " (width - String.length sign - String.length body) ++ sign ++ body.

Inductive fmt_state : Type :=
| FLit                       (* copying literal text *)
| FSpec (digits : string).   (* after [%], flag and width digits read so far *)

Fixpoint format_from (st : fmt_state) (used : bool) (fmt : string) (i : Z)
  : result string :=
  match fmt with
  | "" =>
      match st with
      | FLit => if used then Ok "" else Raise TypeError
      | FSpec _ => Raise ValueError
      end
  | String c rest =>
      match st with
      | FLit =>
          if Ascii.eqb c "%" then format_from (FSpec "") used rest i
          else r <- format_from FLit used rest i ;; Ok (String c r)
      | FSpec ds =>
          if is_digit c then format_from (FSpec (ds ++ String c "")) used rest i
          else if Ascii.eqb c "d" then
            if used then Raise TypeError
            else r <- format_from FLit true rest i ;; Ok (render_int ds i ++ r)
          else if Ascii.eqb c "%" then
            match ds with
            | "" => r <- format_from FLit used rest i ;; Ok (String "%" r)
            | _ => Raise Unsupported
            end
          else Raise Unsupported
      end
  end.

Definition format (fmt : string) (i : Z) : result string :=
  format_from FLit false fmt i.

(** ** Lists *)

(** [x in l] for a list of strings. *)
Fixpoint mem (x : string) (l : list string) : bool :=
  match l with
  | [] => false
  | y :: l' => String.eqb x y || mem x l'
  end.

(** [range(a, b)] over non-negative integers, as the list it enumerates. *)
Definition range (a b : Z) : list Z :=
  map (fun k => (a + Z.of_nat k)%Z) (seq 0 (Z.to_nat (b - a))).

(** [xrange(a, -1, -1)]: [a, a-1, ..., 0]. *)
Definition range_down (a : Z) : list Z :=
  map (fun k => (a - Z.of_nat k)%Z) (seq 0 (Z.to_nat (a + 1))).

(** [sys.maxint], the largest C [long]: [2^63 - 1] on the 64-bit POSIX
    builds of Python 2 (it is [2^31 - 1] where a C [long] has 32 bits). *)
Definition maxint : Z := 9223372036854775807.

Definition fits_long (n : Z) : bool :=
  ((- maxint - 1 <=? n) && (n <=? maxint))%Z.

(** [xrange(start, stop, step)] of Python 2, as the list it enumerates.
    The three arguments are converted to C [long]s and the number of
    items must be one as well: [OverflowError] otherwise. *)
Definition xrange (start stop step : Z) : result (list Z) :=
  if negb (fits_long start && fits_long stop && fits_long step)
  then Raise OverflowError
  else if (step =? 0)%Z then Raise ValueError
  else
    let n :=
      if (0 <? step)%Z
      then (if (start <? stop)%Z then (stop - start - 1) / step + 1 else 0)%Z
      else (if (stop <? start)%Z then (start - stop - 1) / (- step) + 1 else 0)%Z in
    if (maxint <? n)%Z then Raise OverflowError
    else Ok (map (fun k => (start + Z.of_nat k * step)%Z) (seq 0 (Z.to_nat n))).

(** [sorted] / [list.sort] by insertion; the orders used are total, so the
    result is the one any sorting algorithm returns. *)
Section Sorting.
Variable A : Type.
Variable leb : A -> A -> bool.
Fixpoint insert_sorted (x : A) (l : list A) : list A :=
  match l with
  | [] => [x]
  | y :: l' => if leb x y then x :: l else y :: insert_sorted x l'
  end.
Fixpoint sort (l : list A) : list A :=
  match l with
  | [] => []
  | x :: l' => insert_sorted x (sort l')
  end.
End Sorting.

(** Tuple comparison of [(int, str)] pairs. *)
Definition pair_leb (p q : Z * string) : bool :=
  if (fst p <? fst q)%Z then true
  else if (fst p =? fst q)%Z then String.leb (snd p) (snd q)
  else false.

(** [os.path.splitext(name)] for a name without directory separators:
    split at the last dot unless only dots precede it. *)
Fixpoint rfind_char (c : ascii) (s : string) : option nat :=
  match s with
  | "" => None
  | String c' s' =>
      match rfind_char c s' with
      | Some k => Some (S k)
      | None => if Ascii.eqb c c' then Some 0 else None
      end
  end.

Definition splitext (name : string) : string * string :=
  match rfind_char "." name with
  | None => (name, "")
  | Some k =>
      if all_chars (Ascii.eqb ".") (take k name) then (name, "")
      else (take k name, drop k name)
  end.

(** [os.path.splitext(p)] of [posixpath] for any string
    ([genericpath._splitext] with the separator [/] and no alternative
    separator): the extension starts at the last dot, when that dot lies
    after the last separator and a character other than a dot stands
    between the two. *)
Definition os_path_splitext (p : string) : string * string :=
  match rfind_char "." p with
  | None => (p, "")
  | Some dotIndex =>
      let filenameIndex :=
        match rfind_char "/" p with
        | None => 0
        | Some sepIndex => S sepIndex
        end in
      if (filenameIndex <=? dotIndex)%nat
         && negb (all_chars (Ascii.eqb ".") (slice filenameIndex dotIndex p))
      then (take dotIndex p, drop dotIndex p)
      else (p, "")
  end.

(** ** [str.format] with positional string arguments

    [s.format] with positional arguments as CPython 2.7 runs it: literal text is copied, a
    doubled brace stands for one, a single closing brace and an opening
    brace that is never closed are a [ValueError]; a replacement field
    runs to its matching closing brace.  The field is split at the first
    [:] or [!] into the field name, a conversion and a format
    specification, and the argument is looked up before anything else is
    done with it: by automatic numbering when the name (up to the first
    [.] or [[]) is empty, by its index when it is a number, as a keyword
    otherwise ([KeyError]: no keywords are passed).  Mixing automatic
    and manual numbering is a [ValueError], an index past the arguments
    an [IndexError].  An argument that is found is copied; attribute and
    index access, the conversion [!r] and a non-empty format
    specification applied to it are [Unsupported]. *)

Inductive numbering : Type :=
| NInit                (* no numbered field seen yet *)
| NAuto (next : nat)   (* automatic numbering, the next index *)
| NManual.

(** [parse_field]: the field name, the conversion and the format
    specification; [seen] is the text read so far. *)
Fixpoint parse_field (seen field : string)
  : result (string * option ascii * string) :=
  match field with
  | "" => Ok (seen, None, "")
  | String c rest =>
      if Ascii.eqb c ":" then Ok (seen, None, rest)
      else if Ascii.eqb c "!" then
        match rest with
        | "" => Raise ValueError
        | String conversion "" => Ok (seen, Some conversion, "")
        | String conversion (String c' spec) =>
            if Ascii.eqb c' ":" then Ok (seen, Some conversion, spec)
            else Raise ValueError
        end
      else parse_field (seen ++ String c "") rest
  end.

(** The part of a field name before the first [.] or [[], and the rest. *)
Fixpoint field_name_split (name : string) : string * string :=
  match name with
  | "" => ("", "")
  | String c rest =>
      if Ascii.eqb c "." || Ascii.eqb c "[" then ("", name)
      else let '(first, others) := field_name_split rest in
           (String c first, others)
  end.

(** [get_integer]: the value of a run of digits, a [ValueError] when it
    would pass the largest [Py_ssize_t]. *)
Fixpoint get_integer (accumulator : Z) (digits : string) : result Z :=
  match digits with
  | "" => Ok accumulator
  | String c rest =>
      let digitval := Z.of_nat (digit_val c) in
      if ((maxint - digitval) / 10 <? accumulator)%Z then Raise ValueError
      else get_integer (accumulator * 10 + digitval)%Z rest
  end.

(** [get_field_object]: the index of the argument a field names and the
    numbering state after it. *)
Definition field_index (num : numbering) (first : string) (nargs : nat)
  : result (nat * numbering) :=
  match first with
  | "" =>
      match num with
      | NManual => Raise ValueError
      | NInit => if (0 <? nargs)%nat then Ok (0, NAuto 1) else Raise IndexError
      | NAuto next =>
          if (next <? nargs)%nat then Ok (next, NAuto (S next))
          else Raise IndexError
      end
  | _ =>
      if all_chars is_digit first then
        index <- get_integer 0 first ;;
        match num with
        | NAuto _ => Raise ValueError
        | _ => if (index <? Z.of_nat nargs)%Z
               then Ok (Z.to_nat index, NManual)
               else Raise IndexError
        end
      else Raise KeyError
  end.

(** [output_markup] for the text of one field. *)
Definition format_field (num : numbering) (field : string) (args : list string)
  : result (string * numbering) :=
  '(name, conversion, spec) <- parse_field "" field ;;
  let '(first, others) := field_name_split name in
  '(index, num) <- field_index num first (List.length args) ;;
  match others with
  | String _ _ => Raise Unsupported
  | "" =>
      _ <- match conversion with
           | None => Ok tt
           | Some c =>
               if Ascii.eqb c "s" then Ok tt
               else if Ascii.eqb c "r" then Raise Unsupported
               else Raise ValueError
           end ;;
      match spec with
      | String _ _ => Raise Unsupported
      | "" => Ok (nth index args "", num)
      end
  end.

Inductive markup : Type :=
| MLit                                 (* copying literal text *)
| MOpen                                (* after an opening brace *)
| MClose                               (* after a closing brace *)
| MField (depth : nat) (text : string). (* in a field, [depth] braces open *)

Fixpoint str_format_from (st : markup) (num : numbering) (s : string)
  (args : list string) : result string :=
  match s with
  | "" =>
      match st with
      | MLit => Ok ""
      | _ => Raise ValueError
      end
  | String c rest =>
      let field_ends (text : string) :=
        '(piece, num) <- format_field num text args ;;
        r <- str_format_from MLit num rest args ;;
        Ok (piece ++ r) in
      match st with
      | MLit =>
          if Ascii.eqb c "{" then str_format_from MOpen num rest args
          else if Ascii.eqb c "}" then str_format_from MClose num rest args
          else r <- str_format_from MLit num rest args ;; Ok (String c r)
      | MOpen =>
          if Ascii.eqb c "{"
          then r <- str_format_from MLit num rest args ;; Ok (String c r)
          else if Ascii.eqb c "}" then field_ends ""
          else str_format_from (MField 0 (String c "")) num rest args
      | MClose =>
          if Ascii.eqb c "}"
          then r <- str_format_from MLit num rest args ;; Ok (String c r)
          else Raise ValueError
      | MField depth text =>
          if Ascii.eqb c "{"
          then str_format_from (MField (S depth) (text ++ String c "")) num rest args
          else if Ascii.eqb c "}" then
            match depth with
            | O => field_ends text
            | S depth' =>
                str_format_from (MField depth' (text ++ String c "")) num rest args
            end
          else str_format_from (MField depth (text ++ String c "")) num rest args
      end
  end.

Definition str_format (s : string) (args : list string) : result string :=
  str_format_from MLit NInit s args.

End Py.

(** * The file system

    A path is the list of its components, so that [os.path.join d n] is
    [d ++ [n]] and [os.path.split] takes the last component off.  The
    file system maps the paths that exist to their kind; names are
    assumed free of separators. *)

Module Fs.

Definition path : Type := list string.

Inductive kind : Type := File | Dir.

Definition t : Type := list (path * kind).

Fixpoint path_eqb (p q : path) : bool :=
  match p, q with
  | [], [] => true
  | a :: p', b :: q' => String.eqb a b && path_eqb p' q'
  | _, _ => false
  end.

Definition join (d : path) (name : string) : path := (d ++ [name])%list.

(** [os.path.split] *)
Definition split (p : path) : path * string := (removelast p, last p "").

Fixpoint lookup (fs : t) (p : path) : option kind :=
  match fs with
  | [] => None
  | (q, k) :: fs' => if path_eqb p q then Some k else lookup fs' p
  end.

Definition exists_ (fs : t) (p : path) : bool :=
  match p with
  | [] => true
  | _ => match lookup fs p with Some _ => true | None => false end
  end.

Definition isfile (fs : t) (p : path) : bool :=
  match lookup fs p with Some File => true | _ => false end.

Definition isdir (fs : t) (p : path) : bool :=
  match p with
  | [] => true
  | _ => match lookup fs p with Some Dir => true | _ => false end
  end.

(** [os.listdir d]: the names of the entries whose parent is [d]. *)
Fixpoint listdir (fs : t) (d : path) : list string :=
  match fs with
  | [] => []
  | (q, _) :: fs' =>
      match q with
      | [] => listdir fs' d
      | _ => if path_eqb (removelast q) d then last q "" :: listdir fs' d
             else listdir fs' d
      end
  end.

(** [os.listdir] raises [OSError] for what is not a directory. *)
Definition os_listdir (fs : t) (d : path) : result (list string) :=
  if isdir fs d then Ok (listdir fs d) else Raise OSError.

Fixpoint is_prefix (d p : path) : bool :=
  match d, p with
  | [], _ => true
  | a :: d', b :: p' => String.eqb a b && is_prefix d' p'
  | _, [] => false
  end.

Definition remove (fs : t) (p : path) : t :=
  filter (fun e => negb (path_eqb (fst e) p)) fs.

(** Remove [d] and everything below it. *)
Definition rmtree (fs : t) (d : path) : t :=
  filter (fun e => negb (is_prefix d (fst e))) fs.

Definition add (fs : t) (p : path) (k : kind) : t := (p, k) :: remove fs p.

(** The path as the string the program holds: absolute, with [/]
    between the components. *)
Definition to_string (p : path) : string :=
  match p with
  | [] => "/"
  | _ => String.concat "" (map (fun name => "/" ++ name) p)
  end.

(** The lists that stand for a file system: every path is listed once,
    none is the root, and every entry lies in a directory. *)
Fixpoint distinct (l : list path) : bool :=
  match l with
  | [] => true
  | p :: l' => negb (existsb (path_eqb p) l') && distinct l'
  end.

Definition well_formed (fs : t) : bool :=
  distinct (map fst fs)
  && forallb (fun e => match fst e with
                       | [] => false
                       | _ => isdir fs (removelast (fst e))
                       end) fs.

(** The entries strictly below [d]. *)
Definition below (fs : t) (d : path) : t :=
  filter (fun e => is_prefix d (fst e) && negb (path_eqb d (fst e))) fs.

End Fs.

(** * config.py *)

Module Config.

Definition IMG_FORMATS : list string :=
  ["BMP"; "GIF"; "JPG"; "JPEG"; "PNG"; "TIF"; "TIFF"; "TGA"].
Definition VID_FORMATS : list string :=
  ["AVI"; "MKV"; "MOV"; "MP4"; "MPG"; "MPEG"; "WEBM"; "WMV"].

(** The special characters removed around a specifier. *)
Definition SPECIAL_CHARS : list string :=
  ["."; ","; "/"; "\"; "+"; "-"; "_"; "|"; ">"; "<"; "*"; "%"].

End Config.

(** * utils.py *)

Module Utils.

(** ** Digit format specifiers *)

(** The scanner behind [re.findall(r"(%\d*d)", s)]: the leftmost,
    non-overlapping occurrences of a percent sign, a (greedy) run of
    digits and the letter d. *)
Inductive dfs_state : Type :=
| Outside
| InSpec (digits : string).

Fixpoint findall_dfs_from (st : dfs_state) (s : string) : list string :=
  match s with
  | "" => []
  | String c rest =>
      match st with
      | Outside =>
          if Ascii.eqb c "%" then findall_dfs_from (InSpec "") rest
          else findall_dfs_from Outside rest
      | InSpec ds =>
          if Py.is_digit c then findall_dfs_from (InSpec (ds ++ String c "")) rest
          else if Ascii.eqb c "d"
               then (String "%" (ds ++ "d")) :: findall_dfs_from Outside rest
          else if Ascii.eqb c "%" then findall_dfs_from (InSpec "") rest
          else findall_dfs_from Outside rest
      end
  end.

Definition findall_dfs (s : string) : list string := findall_dfs_from Outside s.

Definition has_digit_format_specifier (filename : string) : bool :=
  match findall_dfs filename with
  | [] => false
  | _ => true
  end.

(** The three shapes of the tuple [extract_digit_format_specifiers]
    returns: [(None, None)], a single index and specifier, or two lists. *)
Inductive dfs_extract : Type :=
| NoDfs
| OneDfs (index : Z) (spec : string)
| ManyDfs (indices : list Z) (specs : list string).

Definition find_z (sub s : string) : Z :=
  match Py.find sub s with
  | Some k => Z.of_nat k
  | None => (-1)%Z
  end.

Definition extract_digit_format_specifiers (filename : string) : dfs_extract :=
  if negb (has_digit_format_specifier filename) then NoDfs
  else
    let specifiers := findall_dfs filename in
    let indices := map (fun spec => find_z spec filename) specifiers in
    match specifiers, indices with
    | [spec], [i] => OneDfs i spec
    | _, _ => ManyDfs indices specifiers
    end.

Definition parse_digit_format_specifier (num_string : string) : result string :=
  match Py.int num_string with
  | Ok n =>
      let padding := String.length num_string in
      if (1 <? padding)%nat
      then Ok ("%0" ++ Py.str (Z.of_nat padding) ++ "d")
      else Ok "%d"
  | Raise _ => Raise ValueError
  end.

Definition to_re_pattern (spec : string) (strict : bool) : result string :=
  if negb (has_digit_format_specifier spec) then Raise AttributeError
  else if negb (String.eqb spec "%d") then
    c <- Py.index_z (-2) spec ;;
    size <- (if Py.is_digit c then Py.int (String c "") else Ok 1%Z) ;;
    size <- (if (4 <? String.length spec)%nat
             then let offset := Z.of_nat (String.length spec - 1) in
                  Py.int (Py.slice_z (- offset + 1) (-1) spec)
             else Ok size) ;;
    if strict then Ok ("\d{" ++ Py.str size ++ "}")
    else Ok ("\d{1," ++ Py.str size ++ "}")
  else Ok "\d+".

(** ** Levenshtein distance

    The matrix [d] is built row by row; row [j] only reads row [j - 1]
    and its own left neighbour. *)

Fixpoint lev_row (tj : ascii) (s : string) (prev : list nat) (left : nat)
  : list nat :=
  match s, prev with
  | String si s', diag :: ((up :: _) as prev') =>
      let substitution_cost := if Ascii.eqb si tj then 0 else 1 in
      let v := Nat.min (Nat.min (left + 1) (up + 1)) (diag + substitution_cost) in
      v :: lev_row tj s' prev' v
  | _, _ => []
  end.

Fixpoint lev_rows (t s : string) (prev : list nat) (j : nat) : list nat :=
  match t with
  | "" => prev
  | String tj t' => lev_rows t' s (j :: lev_row tj s prev j) (S j)
  end.

Definition levenshtein_distance (s t : string) : nat :=
  last (lev_rows t s (seq 0 (S (String.length s))) 1) 0.

(** ** split_at_digit *)

Inductive midsection : Type :=
| MidStr (s : string)
| MidList (parts : list string).

(** The ordered dictionary with the keys head, mid and tail. *)
Record split_dict : Type := {
  head : string;
  mid : option midsection;
  tail : option string
}.

(** [l[i] += c] *)
Fixpoint append_at (l : list string) (i : nat) (c : ascii) : result (list string) :=
  match l, i with
  | [], _ => Raise IndexError
  | x :: l', O => Ok ((x ++ String c "") :: l')
  | x :: l', S k => l'' <- append_at l' k c ;; Ok (x :: l'')
  end.

(** The loop over [root[1:]]. *)
Fixpoint split_loop (chars : string) (prev_isdigit : bool)
  (split_root : list string) (substr_index : nat) : result (list string) :=
  match chars with
  | "" => Ok split_root
  | String char rest =>
      if (negb (Py.is_digit char) && negb prev_isdigit)
         || (Py.is_digit char && prev_isdigit)
      then
        split_root' <- append_at split_root substr_index char ;;
        split_loop rest (Py.is_digit char) split_root' substr_index
      else
        split_loop rest (Py.is_digit char)
          (split_root ++ [String char ""])%list (S substr_index)
  end.

Definition sort_root (split_root : list string) (join_mid : bool) : split_dict :=
  {| head := hd "" split_root;
     mid :=
       if (List.length split_root <? 3)%nat then None
       else
         let midsection := removelast (tl split_root) in
         match midsection with
         | [m] => Some (MidStr m)
         | _ => if join_mid then Some (MidStr (String.concat "" midsection))
                else Some (MidList midsection)
         end;
     tail :=
       if (List.length split_root <? 2)%nat then None
       else Some (last split_root "") |}.

Definition split_at_digit (root : string) (join_mid : bool) : result split_dict :=
  match root with
  | "" => Raise IndexError
  | String c0 rest =>
      split_root <- split_loop rest (Py.is_digit c0) [String c0 ""] 0 ;;
      Ok (sort_root split_root join_mid)
  end.

(** ** Files *)

(** The [restrict] argument: [None], one extension, or a list. *)
Inductive restriction : Type :=
| RNone
| RStr (ext : string)
| RList (exts : list string).

Definition is_dot (c : ascii) : bool := Ascii.eqb c ".".

(** [ext.strip(".").upper()] *)
Definition norm_ext (ext : string) : string := Py.upper (Py.strip is_dot ext).

(** [is_file(path, restrict)[0]] *)
Definition is_file (fs : Fs.t) (p : Fs.path) (restrict : restriction) : bool :=
  if negb (Fs.exists_ fs p) then false
  else if negb (Fs.isfile fs p) then false
  else
    match restrict with
    | RNone => true
    | RStr e =>
        let '(_, filename) := Fs.split p in
        let '(_, ext) := Py.splitext filename in
        Py.mem (norm_ext ext) [e]
    | RList allowed_formats =>
        let '(_, filename) := Fs.split p in
        let '(_, ext) := Py.splitext filename in
        Py.mem (norm_ext ext) allowed_formats
    end.

(** [is_file(path, restrict)[1]]: the message, [None] when the first
    component is [True]. *)
Definition is_file_msg (fs : Fs.t) (p : Fs.path) (restrict : restriction)
  : option string :=
  if negb (Fs.exists_ fs p)
  then Some ("The specified path '" ++ Fs.to_string p ++ "' does not exist")
  else if negb (Fs.isfile fs p)
  then Some ("The specified path '" ++ Fs.to_string p ++ "' is not a filepath")
  else
    let '(_, filename) := Fs.split p in
    let '(_, ext) := Py.splitext filename in
    let unsupported := Some ("'" ++ ext ++ "' is not a supported file format") in
    match restrict with
    | RNone => None
    | RStr e => if Py.mem (norm_ext ext) [e] then None else unsupported
    | RList allowed_formats =>
        if Py.mem (norm_ext ext) allowed_formats then None else unsupported
    end.

Definition fetch_dir (fs : Fs.t) (p : Fs.path) (restrict : restriction)
  (sort_files : bool) : list string :=
  if negb (Fs.isdir fs p) then []
  else
    let files := filter (fun f => is_file fs (Fs.join p f) restrict) (Fs.listdir fs p) in
    if sort_files && (0 <? List.length files)%nat then Py.sort String.leb files
    else files.

(** ** is_blank *)

(** [not (string and string.strip())] for [None] or a string. *)
Definition is_blank (string : option string) : bool :=
  match string with
  | None => true
  | Some s =>
      negb (negb (String.eqb s "")
            && negb (String.eqb (Py.strip Py.is_space s) ""))
  end.

(** ** strip_digit_format_specifier *)

(** A Python [dict] with integer keys: an association list that holds a
    key once. *)
Definition dict : Type := list (nat * string).

(** [d[k] = v] *)
Definition dict_set (d : dict) (k : nat) (v : string) : dict :=
  (k, v) :: filter (fun e => negb (fst e =? k)%nat) d.

(** The characters of the class [[\c1\c2...]] that the two search
    patterns are built around.  Every element of [spec_chars] is taken
    to be one character that is neither a letter nor a digit, so that
    its escape stands for the character itself; any other list is
    [Unsupported]. *)
Fixpoint class_of (spec_chars : list string) : result (list ascii) :=
  match spec_chars with
  | [] => Ok []
  | String c "" :: rest =>
      if (Py.is_digit c
          || ((65 <=? nat_of_ascii c) && (nat_of_ascii c <=? 90))
          || ((97 <=? nat_of_ascii c) && (nat_of_ascii c <=? 122)))%nat
      then Raise Unsupported
      else cls <- class_of rest ;; Ok (c :: cls)
  | _ :: _ => Raise Unsupported
  end.

Definition in_class (cls : list ascii) (c : ascii) : bool :=
  existsb (Ascii.eqb c) cls.

(** The longest prefix of characters that satisfy [p]. *)
Fixpoint take_while (p : ascii -> bool) (s : string) : string :=
  match s with
  | String c s' => if p c then String c (take_while p s') else ""
  | "" => ""
  end.

(** [re.search(r"^([...]+)", s)]: group 1 of the match, the leading run
    of class characters when there is one. *)
Definition search_head (cls : list ascii) (s : string) : option string :=
  match take_while (in_class cls) s with
  | "" => None
  | run => Some run
  end.

(** [re.sub(r"^([...]+)", "", s)] *)
Definition sub_head (cls : list ascii) (s : string) : string :=
  Py.lstrip (in_class cls) s.

(** Where [$] matches last: at the end of the text, or before a final
    newline that the class does not hold.  The text is split there. *)
Definition at_dollar (cls : list ascii) (s : string) : string * string :=
  match Py.last_char s with
  | Some c =>
      if Ascii.eqb c (ascii_of_nat 10) && negb (in_class cls c)
      then (Py.take (String.length s - 1) s, String c "")
      else (s, "")
  | None => (s, "")
  end.

(** [re.search(r"([...]+)$", s)]: group 1 of the leftmost match, the run
    of class characters that ends where [$] matches. *)
Definition search_tail (cls : list ascii) (s : string) : option string :=
  let '(text, _) := at_dollar cls s in
  match Py.rev (take_while (in_class cls) (Py.rev text)) with
  | "" => None
  | run => Some run
  end.

(** [re.sub(r"([...]+)$", "", s)] *)
Definition sub_tail (cls : list ascii) (s : string) : string :=
  let '(text, newline) := at_dollar cls s in
  Py.rstrip (in_class cls) text ++ newline.

(** [re.split(dfs, root, 1)]: a specifier holds no metacharacter, so the
    text is split at its first occurrence. *)
Definition re_split_first (dfs root : string) : list string :=
  match Py.find dfs root with
  | Some k => [Py.take k root; Py.drop (k + String.length dfs) root]
  | None => [root]
  end.

(** The branch for a specifier with text on both sides; the value is
    [root_head], [root_tail] and [culled_spec_chars]. *)
Definition strip_between (cls : list ascii) (root_head root_tail : string)
  (culled_spec_chars : dict) : string * string * dict :=
  let match_head := search_tail cls root_head in
  let match_tail := search_head cls root_tail in
  match match_head, match_tail with
  | Some chars_head, Some chars_tail =>
      if (String.length root_head =? String.length chars_head)%nat
         && (String.length root_tail =? String.length chars_tail)%nat
      then
        ("", "",
         dict_set (dict_set culled_spec_chars 0 chars_head)
                  (String.length root_head) chars_tail)
      else if negb (String.length root_head =? String.length chars_head)%nat
              && negb (String.length root_tail =? String.length chars_tail)%nat
      then
        (root_head, sub_head cls root_tail,
         dict_set culled_spec_chars (String.length root_head) chars_tail)
      else
        let '(root_head, culled_spec_chars) :=
          if (String.length root_head =? String.length chars_head)%nat
          then ("", dict_set culled_spec_chars 0 chars_head)
          else (root_head, culled_spec_chars) in
        if (String.length root_tail =? String.length chars_tail)%nat
        then (root_head, "",
              dict_set culled_spec_chars (String.length root_head) chars_tail)
        else (root_head, root_tail, culled_spec_chars)
  | _, _ =>
      let '(root_head, culled_spec_chars) :=
        match match_head with
        | Some chars_head =>
            if (String.length root_head =? String.length chars_head)%nat
            then ("", dict_set culled_spec_chars 0 chars_head)
            else (root_head, culled_spec_chars)
        | None => (root_head, culled_spec_chars)
        end in
      match match_tail with
      | Some chars_tail =>
          if (String.length root_tail =? String.length chars_tail)%nat
          then (root_head, "",
                dict_set culled_spec_chars (String.length root_head) chars_tail)
          else (root_head, root_tail, culled_spec_chars)
      | None => (root_head, root_tail, culled_spec_chars)
      end
  end.

(** [strip_digit_format_specifier(filename, has_ext, spec_chars)].  With
    several specifiers [dfs] is a list, and [str.replace] and [re.split]
    raise [TypeError] for it. *)
Definition strip_digit_format_specifier (filename : string) (has_ext : bool)
  (spec_chars : list string) : result (string * dict) :=
  let '(root, ext) := if has_ext then Py.splitext filename else (filename, "") in
  let culled_spec_chars : dict := [] in
  if negb (has_digit_format_specifier root) then Ok (filename, culled_spec_chars)
  else
    match extract_digit_format_specifiers root with
    | OneDfs idx dfs =>
        if (List.length spec_chars =? 0)%nat
        then Ok (Py.replace dfs "" root ++ ext, culled_spec_chars)
        else
          let split_dfs_root := re_split_first dfs root in
          cls <- class_of spec_chars ;;
          '(root_head, root_tail, culled_spec_chars) <-
            (if (idx =? 0)%Z then
               let root_tail := last split_dfs_root "" in
               match search_head cls root_tail with
               | Some chars_tail =>
                   Ok ("", sub_head cls root_tail,
                       dict_set culled_spec_chars 0 chars_tail)
               | None => Ok ("", root_tail, culled_spec_chars)
               end
             else if (idx =? Z.of_nat (String.length root)
                             - Z.of_nat (String.length dfs))%Z then
               let root_head := hd "" split_dfs_root in
               match search_tail cls root_head with
               | Some chars_head =>
                   let ci := String.length root_head - String.length chars_head in
                   Ok (sub_tail cls root_head, "",
                       dict_set culled_spec_chars ci chars_head)
               | None => Ok (root_head, "", culled_spec_chars)
               end
             else
               match split_dfs_root with
               | [root_head; root_tail] =>
                   Ok (strip_between cls root_head root_tail culled_spec_chars)
               | _ => Raise ValueError
               end) ;;
          if (String.length root_head =? 0)%nat
             && (String.length root_tail =? 0)%nat
          then Ok (Py.replace dfs "" root, [])
          else Ok (root_head ++ root_tail ++ ext, culled_spec_chars)
    | _ => Raise TypeError
    end.

End Utils.

(** * Regular expressions ([re])

    The fragment of Python's pattern language that file-name patterns
    use: literal characters, [.], [^], [$], [\d], escaped punctuation,
    capturing groups and the greedy quantifiers [*], [+], [?], [{m}],
    [{m,n}].  Character sets, alternation, extension groups, lazy
    quantifiers and the other escapes are [Unsupported]. *)

Module Re.

Inductive re : Type :=
| Eps
| Lit (c : ascii)
| AnyChar
| Digit
| Bol
| Eol
| Seq (r1 r2 : re)
| Group (n : nat) (r : re)
| Repeat (lo : nat) (hi : option nat) (r : re).

Inductive token : Type :=
| TLit (c : ascii)
| TAny | TDigit | TBol | TEol | TOpen | TClose
| TQuant (lo : nat) (hi : option nat).

(** ** Lexing *)

Inductive lex_state : Type :=
| LNormal
| LEscape                                   (* after a backslash *)
| LBrace (lo : string) (hi : option string). (* inside [{lo] or [{lo,hi] *)

Definition is_alnum (c : ascii) : bool :=
  (Py.is_digit c
   || ((65 <=? nat_of_ascii c) && (nat_of_ascii c <=? 90))
   || ((97 <=? nat_of_ascii c) && (nat_of_ascii c <=? 122)))%nat.

Definition lex_normal (c : ascii) : result (list token * lex_state) :=
  if Ascii.eqb c "\" then Ok ([], LEscape)
  else if Ascii.eqb c "{" then Ok ([], LBrace "" None)
  else if Ascii.eqb c "." then Ok ([TAny], LNormal)
  else if Ascii.eqb c "^" then Ok ([TBol], LNormal)
  else if Ascii.eqb c "$" then Ok ([TEol], LNormal)
  else if Ascii.eqb c "(" then Ok ([TOpen], LNormal)
  else if Ascii.eqb c ")" then Ok ([TClose], LNormal)
  else if Ascii.eqb c "*" then Ok ([TQuant 0 None], LNormal)
  else if Ascii.eqb c "+" then Ok ([TQuant 1 None], LNormal)
  else if Ascii.eqb c "?" then Ok ([TQuant 0 (Some 1)], LNormal)
  else if Ascii.eqb c "[" then Raise Unsupported
  else if Ascii.eqb c "|" then Raise Unsupported
  else Ok ([TLit c], LNormal).

Fixpoint literals (s : string) : list token :=
  match s with
  | "" => []
  | String c s' => TLit c :: literals s'
  end.

(** The text read since an opening brace that turns out not to start a
    quantifier: it is literal. *)
Definition brace_text (lo : string) (hi : option string) : list token :=
  (TLit "{" :: literals lo ++
   match hi with
   | None => []
   | Some h => TLit "," :: literals h
   end)%list.

Definition close_brace (lo : string) (hi : option string) : result (list token) :=
  match lo, hi with
  | "", None => Ok [TLit "{"; TLit "}"]
  | _, _ =>
      let min := Py.digits_value 0 lo in
      let max := match hi with
                 | None => Some min
                 | Some "" => None
                 | Some h => Some (Py.digits_value 0 h)
                 end in
      match max with
      | Some m => if (m <? min)%nat then Raise ReError else Ok [TQuant min max]
      | None => Ok [TQuant min max]
      end
  end.

Definition lex_step (st : lex_state) (c : ascii) : result (list token * lex_state) :=
  match st with
  | LNormal => lex_normal c
  | LEscape =>
      if Ascii.eqb c "d" then Ok ([TDigit], LNormal)
      else if is_alnum c then Raise Unsupported
      else Ok ([TLit c], LNormal)
  | LBrace lo hi =>
      if Ascii.eqb c "}" then
        toks <- close_brace lo hi ;; Ok (toks, LNormal)
      else if Py.is_digit c then
        match hi with
        | None => Ok ([], LBrace (lo ++ String c "") None)
        | Some h => Ok ([], LBrace lo (Some (h ++ String c "")))
        end
      else if Ascii.eqb c "," && match hi with None => true | Some _ => false end
      then Ok ([], LBrace lo (Some ""))
      else
        '(toks, st') <- lex_normal c ;;
        Ok ((brace_text lo hi ++ toks)%list, st')
  end.

Fixpoint lex (st : lex_state) (s : string) : result (list token) :=
  match s with
  | "" =>
      match st with
      | LNormal => Ok []
      | LEscape => Raise ReError
      | LBrace lo hi => Ok (brace_text lo hi)
      end
  | String c s' =>
      '(toks, st') <- lex_step st c ;;
      rest <- lex st' s' ;;
      Ok (toks ++ rest)%list
  end.

(** ** Parsing *)

Definition seq_of (items : list re) : re := fold_right Seq Eps items.

(** The items of the group being read, last first; the enclosing groups
    with their numbers; the number of the next group. *)
Record parse_state : Type := {
  cur : list re;
  stack : list (nat * list re);
  next_group : nat
}.

Definition parse_token (st : parse_state) (t : token) : result parse_state :=
  let push r := Ok {| cur := r :: cur st; stack := stack st;
                      next_group := next_group st |} in
  match t with
  | TLit c => push (Lit c)
  | TAny => push AnyChar
  | TDigit => push Digit
  | TBol => push Bol
  | TEol => push Eol
  | TOpen =>
      Ok {| cur := []; stack := (next_group st, cur st) :: stack st;
            next_group := S (next_group st) |}
  | TClose =>
      match stack st with
      | [] => Raise ReError
      | (n, outer) :: stk =>
          Ok {| cur := Group n (seq_of (List.rev (cur st))) :: outer;
                stack := stk; next_group := next_group st |}
      end
  | TQuant lo hi =>
      match cur st with
      | [] =>
          match stack st, lo, hi with
          | _ :: _, O, Some 1 => Raise Unsupported
          | _, _, _ => Raise ReError
          end
      | Bol :: _ | Eol :: _ => Raise ReError
      | Repeat _ _ _ :: _ =>
          match lo, hi with
          | O, Some 1 => Raise Unsupported
          | _, _ => Raise ReError
          end
      | r :: rest =>
          Ok {| cur := Repeat lo hi r :: rest; stack := stack st;
                next_group := next_group st |}
      end
  end.

Fixpoint parse_tokens (st : parse_state) (toks : list token) : result re :=
  match toks with
  | [] =>
      match stack st with
      | [] => Ok (seq_of (List.rev (cur st)))
      | _ :: _ => Raise ReError
      end
  | t :: toks' => st' <- parse_token st t ;; parse_tokens st' toks'
  end.

(** [re.compile] *)
Definition compile (pattern : string) : result re :=
  toks <- lex LNormal pattern ;;
  parse_tokens {| cur := []; stack := []; next_group := 1 |} toks.

(** ** Matching

    A backtracking matcher in continuation-passing style; it explores the
    alternatives in the order Python's engine does (greedy first), so the
    groups it reports are those of the first successful path. *)

Definition captures : Type := list (nat * string).

Fixpoint group_of (n : nat) (c : captures) : option string :=
  match c with
  | [] => None
  | (m, s) :: c' => if (n =? m)%nat then Some s else group_of n c'
  end.

Definition newline : ascii := ascii_of_nat 10.

Definition at_end (s : string) : bool :=
  match s with
  | "" => true
  | String c "" => Ascii.eqb c newline
  | _ => false
  end.

Definition reached (hi : option nat) (count : nat) : bool :=
  match hi with
  | Some h => (h <=? count)%nat
  | None => false
  end.

Section Matching.

Variable subject : string.

Definition cont : Type := nat -> string -> captures -> option captures.

(** [rep] is the loop of a greedy repetition of [body]; the fuel bounds
    the iterations: at most [lo] may be empty, the others consume. *)
Fixpoint rep (body : nat -> string -> captures -> cont -> option captures)
  (lo : nat) (hi : option nat) (k : cont)
  (fuel count pos : nat) (s : string) (c : captures) : option captures :=
  let stop := if (lo <=? count)%nat then k pos s c else None in
  if reached hi count then stop
  else
    match fuel with
    | O => stop
    | S f =>
        match body pos s c
                (fun pos' s' c' =>
                   if (pos' =? pos)%nat && (lo <=? count)%nat then None
                   else rep body lo hi k f (S count) pos' s' c') with
        | Some c'' => Some c''
        | None => stop
        end
    end.

Fixpoint run (r : re) (pos : nat) (s : string) (c : captures) (k : cont)
  : option captures :=
  match r with
  | Eps => k pos s c
  | Lit a =>
      match s with
      | String b s' => if Ascii.eqb a b then k (S pos) s' c else None
      | "" => None
      end
  | AnyChar =>
      match s with
      | String b s' => if Ascii.eqb b newline then None else k (S pos) s' c
      | "" => None
      end
  | Digit =>
      match s with
      | String b s' => if Py.is_digit b then k (S pos) s' c else None
      | "" => None
      end
  | Bol => if (pos =? 0)%nat then k pos s c else None
  | Eol => if at_end s then k pos s c else None
  | Seq r1 r2 => run r1 pos s c (fun pos' s' c' => run r2 pos' s' c' k)
  | Group n r1 =>
      run r1 pos s c
        (fun pos' s' c' => k pos' s' ((n, Py.slice pos pos' subject) :: c'))
  | Repeat lo hi r1 =>
      rep (run r1) lo hi k (lo + String.length s + 1) 0 pos s c
  end.

End Matching.

(** [re.match(pattern, s)]: [None] when the pattern does not match at the
    start of [s], else the groups. *)
Definition match_ (pattern s : string) : result (option captures) :=
  r <- compile pattern ;;
  Ok (run s r 0 s [] (fun _ _ c => Some c)).

(** [m.group(n)] *)
Definition group (n : nat) (m : captures) : result string :=
  match group_of n m with
  | Some s => Ok s
  | None => Raise IndexError
  end.

End Re.

(** * image_sequence.py *)

Module ImageSequence.

Import Utils.

(** The attributes [__init__] sets before it decides between a single
    image and a sequence. *)
Record attrs : Type := {
  path : Fs.path;
  basedir : Fs.path;
  filename : string;
  root : string;
  ext : string;
  head : string;
  mid : option midsection;
  tail : option string;
  files : list string;
  fcount : nat
}.

(** An [ImageSequence] instance. *)
Record t : Type := {
  self : attrs;
  sequence_files : option (list string);
  messages : list string;
  dfs_filename : string;
  start_num : Z
}.

(** The number of files to compare with when the scan is not strict. *)
Definition max_count (fcount : nat) : result nat :=
  m <- Py.int (String "1" (Py.repeat_char "0"
                 (String.length (Py.str (Z.of_nat fcount)) - 1))) ;;
  let max_count := Z.to_nat m in
  Ok (if (10 <? max_count)%nat then max_count else fcount).

(** The inner loop of [_predict_sequence]: the total distance of the body
    component [part], which starts at index [si] of the root. *)
Fixpoint total_distance (fs : Fs.t) (a : attrs) (strict : bool) (max_count : nat)
  (si : nat) (part : string) (fnames : list string) (count total_dist : nat)
  : nat :=
  match fnames with
  | [] => total_dist
  | f :: rest =>
      if negb strict && (max_count <=? count)%nat then total_dist
      else
        let ln := String.length part in
        let fpath := Fs.join (basedir a) f in
        let total_dist' :=
          if is_file fs fpath (RStr (norm_ext (ext a)))
             && negb (String.eqb f (filename a))
          then
            let '(froot, fext) := Py.splitext f in
            total_dist + levenshtein_distance (Py.slice si (si + ln) froot) part
          else total_dist in
        total_distance fs a strict max_count si part rest (S count) total_dist'
  end.

(** The outer loop: [parts] are the components from index [i] on. *)
Fixpoint predict_from (fs : Fs.t) (a : attrs) (strict : bool) (max_count : nat)
  (parts : list string) (i si : nat) : list nat :=
  match parts with
  | [] => []
  | part :: rest =>
      let total_dist := total_distance fs a strict max_count si part (files a) 0 0 in
      let predicted := predict_from fs a strict max_count rest (S i)
                         (si + String.length part) in
      if (0 <? total_dist)%nat && Py.isdigit part then i :: predicted
      else predicted
  end.

Definition _predict_sequence (fs : Fs.t) (a : attrs) (body : list string)
  (strict : bool) : result (list nat) :=
  max_count <- max_count (fcount a) ;;
  let predicted := predict_from fs a strict max_count body 0 0 in
  if (List.length predicted <? 1)%nat
     || (List.length body <? List.length predicted)%nat
  then Raise RuntimeError
  else Ok predicted.

Definition _get_body (a : attrs) : list string :=
  let body := [head a] in
  let body :=
    match mid a with
    | Some (MidList parts) => (body ++ parts)%list
    | Some (MidStr m) => (body ++ [m])%list
    | None => body
    end in
  match tail a with
  | Some tl => (body ++ [tl])%list
  | None => body
  end.

(** The loop of [_parse_filename_pattern] over the predicted indices;
    the state is [parsed_root], [sequence] and [offset]. *)
Fixpoint parse_loop (body : list string) (bsi : list nat)
  (parsed_root : string) (sequence : option string) (offset : Z)
  : result (string * option string) :=
  match bsi with
  | [] => Ok (parsed_root, sequence)
  | i :: rest =>
      match nth_error body i with
      | None => Raise IndexError
      | Some part =>
          let sequence := part in
          parsed_seq <- parse_digit_format_specifier sequence ;;
          let ri := Z.of_nat (String.length (String.concat "" (firstn i body))) in
          let ri := (ri - offset)%Z in
          let parsed_root :=
            Py.slice_z 0 ri parsed_root ++ parsed_seq ++
            Py.slice_z (ri + Z.of_nat (String.length part))
                       (Z.of_nat (String.length parsed_root)) parsed_root in
          let offset := (offset + Z.of_nat (String.length sequence)
                         - Z.of_nat (String.length parsed_seq))%Z in
          parse_loop body rest parsed_root (Some sequence) offset
      end
  end.

Definition _parse_filename_pattern (fs : Fs.t) (a : attrs) (strict : bool)
  : result (string * Z) :=
  let body := _get_body a in
  bsi <- _predict_sequence fs a body false ;;
  '(parsed_root, sequence) <- parse_loop body bsi (root a) None 0 ;;
  if (1 <? List.length bsi)%nat && strict then Raise RuntimeError
  else
    match sequence with
    | None => Raise TypeError
    | Some sequence => n <- Py.int sequence ;; Ok (parsed_root ++ ext a, n)
    end.

Definition starts_at_zero (im : t) : bool := (start_num im =? 0)%Z.

(** The downward scan of [get_start_number]. *)
Fixpoint scan_down (fs : Fs.t) (im : t) (candidates : list Z) (other_num : Z)
  : result Z :=
  match candidates with
  | [] => Ok other_num
  | i :: rest =>
      fname <- Py.format (dfs_filename im) i ;;
      let fpath := Fs.join (basedir (self im)) fname in
      scan_down fs im rest (if is_file fs fpath RNone then i else other_num)
  end.

Definition get_start_number (fs : Fs.t) (im : t) : result Z :=
  other_num <- (if negb (starts_at_zero im)
                then candidates <- Py.xrange (start_num im - 1) (-1) (-1) ;;
                     scan_down fs im candidates (-1)
                else Ok (-1)%Z) ;;
  Ok (if (other_num <? 0)%Z then start_num im else other_num).

Definition single_message (filename : string) : string :=
  "Unable to find image sequence files, " ++
  "other than '" ++ filename ++ "' at the specified path.".

Definition __init__ (fs : Fs.t) (path : Fs.path) (supp_formats : option (list string))
  : result t :=
  let restrict := match supp_formats with
                  | None => RNone
                  | Some l => RList l
                  end in
  if negb (is_file fs path restrict) then Raise IOError
  else
    let '(basedir, filename) := Fs.split path in
    if Py.contains_char "%" filename then Raise ValueError
    else
      let '(root, ext) := Py.splitext filename in
      d <- split_at_digit root false ;;
      let files := fetch_dir fs basedir (RStr (norm_ext ext)) true in
      let a := {| path := path; basedir := basedir; filename := filename;
                  root := root; ext := ext;
                  head := Utils.head d; mid := Utils.mid d; tail := Utils.tail d;
                  files := files; fcount := List.length files |} in
      if (fcount a <? 2)%nat then
        Ok {| self := a; sequence_files := None;
              messages := [single_message filename];
              dfs_filename := filename; start_num := (-1)%Z |}
      else
        '(dfs, num) <- _parse_filename_pattern fs a true ;;
        let im := {| self := a; sequence_files := None; messages := [];
                     dfs_filename := dfs; start_num := num |} in
        start <- get_start_number fs im ;;
        Ok {| self := a; sequence_files := None; messages := [];
              dfs_filename := dfs; start_num := start |}.

(** The loop of [detect_gaps]. *)
Fixpoint missing_from (im : t) (numbers : list Z) : result (list string) :=
  match numbers with
  | [] => Ok []
  | i :: rest =>
      fname <- Py.format (dfs_filename im) i ;;
      missing_files <- missing_from im rest ;;
      Ok (if negb (Py.mem fname (files (self im))) then fname :: missing_files
          else missing_files)
  end.

Definition detect_gaps (im : t) : result (option (list string)) :=
  if (start_num im <? 0)%Z then Ok None
  else
    missing_files <- missing_from im
      (Py.range (start_num im) (Z.of_nat (List.length (files (self im))))) ;;
    Ok (if (0 <? List.length missing_files)%nat then Some missing_files else None).

Definition get_dfs_filename (im : t) : string := dfs_filename im.

Definition get_regex_filename (im : t) : result string :=
  match extract_digit_format_specifiers (dfs_filename im) with
  | NoDfs => Ok (dfs_filename im)
  | OneDfs _ dfs =>
      if (start_num im <? 0)%Z then Ok (dfs_filename im)
      else
        p <- to_re_pattern dfs true ;;
        let group_pattern := "(" ++ p ++ ")" in
        let re_filename := "^" ++ Py.replace dfs group_pattern (dfs_filename im) ++ "$" in
        if Py.contains "%%" re_filename then Ok (Py.replace "%%" "%" re_filename)
        else Ok re_filename
  | ManyDfs _ _ =>
      if (start_num im <? 0)%Z then Ok (dfs_filename im)
      else Raise ValueError
  end.

(** The loop of [get_sequence_files]: the pairs of sequence number and
    name ([seq_nums] zipped with [files]); without sorting the number is
    not computed and stays [0]. *)
Fixpoint collect_files (fs : Fs.t) (im : t) (re_fname : string) (sort_files : bool)
  (names : list string) : result (list (Z * string)) :=
  match names with
  | [] => Ok []
  | f :: rest =>
      let fpath := Fs.join (basedir (self im)) f in
      if negb (Fs.isfile fs fpath) then collect_files fs im re_fname sort_files rest
      else
        m <- Re.match_ re_fname f ;;
        match m with
        | None => collect_files fs im re_fname sort_files rest
        | Some groups =>
            num <- (if sort_files then g <- Re.group 1 groups ;; Py.int g
                    else Ok 0%Z) ;;
            found <- collect_files fs im re_fname sort_files rest ;;
            Ok ((num, f) :: found)
        end
  end.

Definition get_sequence_files (fs : Fs.t) (im : t) (sort_files : bool)
  : result (list string) :=
  re_fname <- get_regex_filename im ;;
  names <- Fs.os_listdir fs (basedir (self im)) ;;
  found <- collect_files fs im re_fname sort_files names ;;
  if sort_files && (0 <? List.length found)%nat
  then Ok (map snd (Py.sort Py.pair_leb found))
  else Ok (map snd found).

End ImageSequence.

(** * input_output.py *)

Module InputOutput.

Import Utils.

(** ** Commands on the file system

    A command takes the file system and returns the file system it leaves
    behind together with its value or the exception it raised: what was
    done before an exception stays done. *)

Definition cmd (A : Type) : Type := Fs.t -> Fs.t * result A.

Definition ret {A : Type} (a : A) : cmd A := fun fs => (fs, Ok a).
Definition raise {A : Type} (e : exn) : cmd A := fun fs => (fs, Raise e).
Definition lift {A : Type} (r : result A) : cmd A := fun fs => (fs, r).
Definition read {A : Type} (f : Fs.t -> A) : cmd A := fun fs => (fs, Ok (f fs)).
Definition write (f : Fs.t -> Fs.t) : cmd unit := fun fs => (f fs, Ok tt).

Definition cbind {A B : Type} (m : cmd A) (k : A -> cmd B) : cmd B :=
  fun fs =>
    match m fs with
    | (fs', Ok a) => k a fs'
    | (fs', Raise e) => (fs', Raise e)
    end.

Declare Scope cmd_scope.
Delimit Scope cmd_scope with cmd.
Notation "x <~ m ;; k" := (cbind m (fun x => k))
  (at level 61, m at next level, right associativity) : cmd_scope.
Notation "' p <~ m ;; k" := (cbind m (fun x => let p := x in k))
  (at level 61, p pattern, m at next level, right associativity) : cmd_scope.
Notation "m ;;; k" := (cbind m (fun _ => k))
  (at level 61, right associativity) : cmd_scope.
Open Scope cmd_scope.

(** [os.mkdir] *)
Definition mkdir (p : Fs.path) : cmd unit :=
  fun fs =>
    if Fs.exists_ fs p then (fs, Raise OSError)
    else if negb (Fs.isdir fs (fst (Fs.split p))) then (fs, Raise OSError)
    else (Fs.add fs p Fs.Dir, Ok tt).

(** Where [shutil.move] and [shutil.copy] put a file: inside [dst] when
    [dst] is a directory. *)
Definition real_destination (fs : Fs.t) (src dst : Fs.path) : Fs.path :=
  if Fs.isdir fs dst then Fs.join dst (snd (Fs.split src)) else dst.

(** [shutil.move] of a regular file: into the directory [dst] unless the
    name is taken there ([shutil.Error]), else onto [dst], replacing a
    file of that name. *)
Definition move (src dst : Fs.path) : cmd unit :=
  fun fs =>
    let real_dst := real_destination fs src dst in
    if Fs.isdir fs dst && Fs.exists_ fs real_dst then (fs, Raise ShutilError)
    else if negb (Fs.isfile fs src) then (fs, Raise IOError)
    else if negb (Fs.isdir fs (fst (Fs.split real_dst))) then (fs, Raise IOError)
    else if Fs.isdir fs real_dst then (fs, Raise IOError)
    else (Fs.add (Fs.remove fs src) real_dst Fs.File, Ok tt).

(** [shutil.copy] of a regular file; copying what exists onto itself is
    a [shutil.Error]. *)
Definition copy (src dst : Fs.path) : cmd unit :=
  fun fs =>
    let real_dst := real_destination fs src dst in
    if Fs.exists_ fs src && Fs.path_eqb src real_dst then (fs, Raise ShutilError)
    else if negb (Fs.isfile fs src) then (fs, Raise IOError)
    else if negb (Fs.isdir fs (fst (Fs.split real_dst))) then (fs, Raise IOError)
    else if Fs.isdir fs real_dst then (fs, Raise IOError)
    else (Fs.add fs real_dst Fs.File, Ok tt).

(** ** Removing

    Whether the operating system lets an entry be removed (permissions,
    locks) is no part of the file system modelled here: [denied] tells
    for which paths [os.remove] and [os.rmdir] are refused. *)

(** [os.remove] *)
Definition os_remove (denied : Fs.path -> bool) (p : Fs.path) : cmd unit :=
  fun fs =>
    if Fs.isfile fs p && negb (denied p) then (Fs.remove fs p, Ok tt)
    else (fs, Raise OSError).

(** [os.rmdir]: of an empty directory only. *)
Definition os_rmdir (denied : Fs.path -> bool) (p : Fs.path) : cmd unit :=
  fun fs =>
    if Fs.isdir fs p && (List.length (Fs.listdir fs p) =? 0)%nat
       && negb (denied p)
    then (Fs.remove fs p, Ok tt)
    else (fs, Raise OSError).

(** The loop of [shutil.rmtree] over the names of a directory; [walk] is
    the call for a subdirectory.  [None] stands for a walk that is cut
    short. *)
Fixpoint rmtree_names (walk : Fs.path -> Fs.t -> option (Fs.t * result unit))
  (denied : Fs.path -> bool) (path : Fs.path) (names : list string)
  (fs : Fs.t) : option (Fs.t * result unit) :=
  match names with
  | [] => Some (fs, Ok tt)
  | name :: rest =>
      let fullname := Fs.join path name in
      match (if Fs.isdir fs fullname then walk fullname fs
             else Some (os_remove denied fullname fs)) with
      | Some (fs', Ok _) => rmtree_names walk denied path rest fs'
      | other => other
      end
  end.

(** [shutil.rmtree(path)] with its default [onerror], which raises: list
    the directory, remove what it holds (a subdirectory by a nested
    call), then the directory; the first [OSError] ends the walk, and
    what was removed until then stays removed.  The nesting is cut after
    [depth] levels. *)
Fixpoint rmtree_walk (depth : nat) (denied : Fs.path -> bool) (path : Fs.path)
  (fs : Fs.t) : option (Fs.t * result unit) :=
  match depth with
  | O => None
  | S depth' =>
      match Fs.os_listdir fs path with
      | Raise e => Some (fs, Raise e)
      | Ok names =>
          match rmtree_names (rmtree_walk depth' denied) denied path names fs with
          | Some (fs', Ok _) => Some (os_rmdir denied path fs')
          | other => other
          end
      end
  end.

(** No directory is nested deeper than there are entries, so the walk
    of [shutil.rmtree] is never cut short (see [rmtree_walk_deep_enough]);
    Python's own limit on the nesting is a [RuntimeError]. *)
Definition shutil_rmtree (denied : Fs.path -> bool) (path : Fs.path) : cmd unit :=
  fun fs =>
    match rmtree_walk (S (List.length fs)) denied path fs with
    | Some r => r
    | None => (fs, Raise RuntimeError)
    end.

(** [raise ("...")] in the handlers of [utils.delete]: raising a string
    is a [TypeError]. *)
Definition except_OSError_raise_str (r : Fs.t * result unit)
  : Fs.t * result unit :=
  match r with
  | (fs, Raise OSError) => (fs, Raise TypeError)
  | _ => r
  end.

(** [utils.delete] *)
Definition delete (denied : Fs.path -> bool) (p : Fs.path) : cmd unit :=
  fun fs =>
    if negb (Fs.exists_ fs p) then (fs, Raise OSError)
    else if Fs.isfile fs p then except_OSError_raise_str (os_remove denied p fs)
    else if Fs.isdir fs p then except_OSError_raise_str (shutil_rmtree denied p fs)
    else (fs, Ok tt).

(** The names [filecmp.dircmp] leaves out of its lists by default. *)
Definition dircmp_ignored (name : string) : bool :=
  Py.mem name ["RCS"; "CVS"; "tags"].

(** [utils.compare]; [dircmp]'s [common] are the names in both
    directories, [common_funny] those of them that are a file in one and
    a directory in the other. *)
Definition compare (dir_path1 dir_path2 : Fs.path) (strict : bool) : cmd bool :=
  fun fs =>
    if negb (Fs.exists_ fs dir_path1) then (fs, Raise OSError)
    else if negb (Fs.isdir fs dir_path1) then (fs, Raise OSError)
    else if negb (Fs.exists_ fs dir_path2) then (fs, Raise OSError)
    else if negb (Fs.isdir fs dir_path2) then (fs, Raise OSError)
    else if strict && negb (Fs.path_eqb dir_path1 dir_path2) then (fs, Ok false)
    else
      let l1 := Fs.listdir fs dir_path1 in
      let l2 := Fs.listdir fs dir_path2 in
      if negb (List.length l1 =? List.length l2)%nat then (fs, Ok false)
      else
        let left_list := filter (fun n => negb (dircmp_ignored n)) l1 in
        let right_list := filter (fun n => negb (dircmp_ignored n)) l2 in
        let common := filter (fun n => Py.mem n right_list) left_list in
        let common_funny :=
          filter (fun n => negb (Bool.eqb (Fs.isdir fs (Fs.join dir_path1 n))
                                          (Fs.isdir fs (Fs.join dir_path2 n))))
                 common in
        (fs, Ok (negb (List.length common =? 0)%nat
                 && (List.length common_funny =? 0)%nat)).

(** ** The class *)

(** The attributes of an [InputOutput] instance that renaming reads.  The
    exceptions carry no message here; the texts that
    [rename_sequence_files] and [_rename_file] build for them are kept
    where building them can raise. *)
Record t : Type := {
  input_path : Fs.path;
  input_dir : Fs.path;
  input_fname : string;
  im : option ImageSequence.t;
  output_root : string;
  output_dir : Fs.path
}.

(** [e += msg]; adding [None] to a string is a [TypeError]. *)
Definition append_msg (e : string) (msg : option string) : result string :=
  match msg with
  | Some msg => Ok (e ++ msg)
  | None => Raise TypeError
  end.

Definition unescape_percent (out_root : string) : string :=
  if Py.contains "%%" out_root then Py.replace "%%" "%" out_root else out_root.

Definition _rename_file (io : t) : cmd unit :=
  let '(_, ext) := Py.splitext (input_fname io) in
  let out_root := unescape_percent (output_root io) in
  let destination_path := Fs.join (output_dir io) (out_root ++ ext) in
  same <~ compare (input_dir io) (output_dir io) false ;;
  (if same then move (input_path io) destination_path
   else copy (input_path io) destination_path) ;;;
  rc <~ read (fun fs => is_file fs destination_path RNone) ;;
  msg <~ read (fun fs => is_file_msg fs destination_path RNone) ;;
  if negb rc then
    same <~ compare (input_dir io) (output_dir io) false ;;
    let e := if same then "Unable to rename file from {}. "
             else "Unable to move and rename file from {}. " in
    e <~ lift (append_msg e msg) ;;
    _ <~ lift (Py.str_format e [Fs.to_string (input_dir io)]) ;;
    raise RuntimeError
  else ret tt.

(** [idx < int(len(dfs_fname) / 2)]; in Python 2 [None] is smaller than
    every integer and a list is larger. *)
Definition before_middle (idx : dfs_extract) (dfs_fname : string) : bool :=
  match idx with
  | NoDfs => true
  | OneDfs i _ => (i <? Z.of_nat (String.length dfs_fname) / 2)%Z
  | ManyDfs _ _ => false
  end.

(** The staging loop: rename the files into the temporary directory. *)
Fixpoint stage (io : t) (sequence : ImageSequence.t) (tmp_dir : Fs.path)
  (idx : dfs_extract) (dfs_fname re_fname : string) (width : nat)
  (files : list string) (count : Z) (tmp_filepaths : list Fs.path)
  : cmd (Z * list Fs.path) :=
  match files with
  | [] => ret (count, tmp_filepaths)
  | f :: rest =>
      let continue := stage io sequence tmp_dir idx dfs_fname re_fname width rest in
      let source_fpath := Fs.join (input_dir io) f in
      is_source <~ read (fun fs => Fs.isfile fs source_fpath) ;;
      if negb is_source then continue count tmp_filepaths
      else
        m <~ lift (Re.match_ re_fname f) ;;
        match m with
        | None => continue count tmp_filepaths
        | Some groups =>
            let '(root, ext) := Py.splitext f in
            start <~ (fun fs => (fs, ImageSequence.get_start_number fs sequence)) ;;
            stripped_root <~ (if (0 <=? start)%Z
                              then g <~ lift (Re.group 1 groups) ;;
                                   ret (Py.replace g "" root)
                              else ret "") ;;
            let out_root := unescape_percent (output_root io) in
            g <~ lift (Re.group 1 groups) ;;
            let number := Py.zfill width (Py.str count) in
            let root := Py.replace g number root in
            let root :=
              if negb (String.eqb stripped_root out_root) then
                if before_middle idx dfs_fname then number ++ out_root
                else out_root ++ number
              else root in
            let tmp_fpath := Fs.join tmp_dir (root ++ ext) in
            same <~ compare (input_dir io) (output_dir io) false ;;
            (if same then move source_fpath tmp_fpath
             else copy source_fpath tmp_fpath) ;;;
            continue (count + 1)%Z (tmp_filepaths ++ [tmp_fpath])%list
        end
  end.

(** The final hop: from the temporary to the output directory. *)
Fixpoint commit (io : t) (tmp_filepaths : list Fs.path) (count : Z) : cmd Z :=
  match tmp_filepaths with
  | [] => ret count
  | fpath :: rest =>
      let '(_, fname) := Fs.split fpath in
      let destination_fpath := Fs.join (output_dir io) fname in
      move fpath destination_fpath ;;;
      commit io rest (count + 1)%Z
  end.

(** The staging step of [rename_sequence_files]: create the temporary
    directory and rename the sequence files into it; its value is the
    final [count] and [tmp_filepaths]. *)
Definition staging_step (io : t) (sequence : ImageSequence.t) (start_num : Z)
  (tmp_dir : Fs.path) : cmd (Z * list Fs.path) :=
  mkdir tmp_dir ;;;
  files <~ (fun fs => (fs, ImageSequence.get_sequence_files fs sequence true)) ;;
  let dfs_fname := ImageSequence.get_dfs_filename sequence in
  let idx := extract_digit_format_specifiers dfs_fname in
  re_fname <~ lift (ImageSequence.get_regex_filename sequence) ;;
  let width :=
    String.length (Py.str (Z.of_nat (List.length files) + start_num)) in
  stage io sequence tmp_dir idx dfs_fname re_fname width files start_num [].

(** [rename_sequence_files(start_num)]; [now] is the time stamp
    [datetime.now().strftime("%y%m%d%H%M%S")], [denied] the removals
    the operating system refuses. *)
Definition rename_sequence_files (denied : Fs.path -> bool) (io : t)
  (start_num : Z) (now : string) : cmd unit :=
  match im io with
  | None => raise RuntimeError
  | Some sequence =>
      start <~ (fun fs => (fs, ImageSequence.get_start_number fs sequence)) ;;
      if (start <? 0)%Z then _rename_file io
      else
        let tmp_dir := Fs.join (input_dir io) ("tmp" ++ now) in
        '(count, tmp_filepaths) <~ staging_step io sequence start_num tmp_dir ;;
        if (count - start_num =? 0)%Z then
          same <~ compare (input_dir io) (output_dir io) false ;;
          let e := if same then "Unable to rename any files from {}. "
                   else "Unable to move and rename any files from {}. " in
          rc <~ read (fun fs => is_file fs (input_path io) RNone) ;;
          msg <~ read (fun fs => is_file_msg fs (input_path io) RNone) ;;
          e <~ lift (if negb rc then append_msg e msg else Ok e) ;;
          delete denied tmp_dir ;;;
          _ <~ lift (Py.str_format e [Fs.to_string (input_dir io)]) ;;
          raise RuntimeError
        else
          count <~ commit io tmp_filepaths 0 ;;
          if (count =? 0)%Z then
            _ <~ lift (Py.str_format
                         ("Unable to move renamed files from the temporary directory "
                          ++ "to {}. The renamed files can probably be recovered from {}")
                         [Fs.to_string (output_dir io); Fs.to_string tmp_dir]) ;;
            raise RuntimeError
          else delete denied tmp_dir
  end.

(** ** The constructor *)

(** [SUPP_OUT_FORMATS] *)
Definition SUPP_OUT_FORMATS : list string :=
  Py.sort String.leb (Config.IMG_FORMATS ++ Config.VID_FORMATS)%list.

(** An instance as [__init__] leaves it: the attributes renaming reads,
    and the others. *)
Record instance : Type := {
  io : t;
  has_specific_out_root : bool;
  culled_spec_chars : dict;
  output_path : Fs.path
}.

(** [InputOutput(input_path, output_root, output_dir, im)]; the file
    system is read when the start number of [im] is asked for.  A given
    [output_root] is any string of the caller's, separators included;
    the other strings split here are names.  [output_path] is the
    directory with the root as its last component, which is what
    [os.path.join] makes of a root that is not absolute. *)
Definition __init__ (fs : Fs.t) (input_path : Fs.path)
  (output_root : option string) (output_dir : option Fs.path)
  (im : option ImageSequence.t) : result instance :=
  let '(input_dir, input_fname) := Fs.split input_path in
  '(output_root, has_specific_out_root, culled_spec_chars) <-
    match output_root with
    | Some output_root =>
        let '(root, ext) := Py.os_path_splitext output_root in
        Ok (if Py.mem (norm_ext ext) SUPP_OUT_FORMATS then root else output_root,
            true, [])
    | None =>
        let '(output_root, _) := Py.splitext input_fname in
        match im with
        | None => Ok (output_root, false, [])
        | Some sequence =>
            start <- ImageSequence.get_start_number fs sequence ;;
            if (-1 <? start)%Z then
              let '(output_root, _) :=
                Py.splitext (ImageSequence.get_dfs_filename sequence) in
              '(output_root, culled_spec_chars) <-
                strip_digit_format_specifier output_root false Config.SPECIAL_CHARS ;;
              if Py.startswith "." output_root then
                let stripped_count := String.length output_root in
                let output_root := Py.lstrip is_dot output_root in
                let stripped_count := stripped_count - String.length output_root in
                Ok (output_root, false,
                    dict_set culled_spec_chars 0 (Py.repeat_char "." stripped_count))
              else Ok (output_root, false, culled_spec_chars)
            else Ok (output_root, false, [])
        end
    end ;;
  let output_dir := match output_dir with
                    | Some output_dir => output_dir
                    | None => input_dir
                    end in
  Ok {| io := {| input_path := input_path; input_dir := input_dir;
                 input_fname := input_fname; im := im;
                 output_root := output_root; output_dir := output_dir |};
        has_specific_out_root := has_specific_out_root;
        culled_spec_chars := culled_spec_chars;
        output_path := Fs.join output_dir output_root |}.

End InputOutput.

(** * Notions used in the statements *)

Module Notions.

Import Utils.

(** ** Segments of a decomposed root *)

(** The values of the dictionary in order, the midsection flattened. *)
Definition segments (d : split_dict) : list string :=
  (head d ::
   match mid d with
   | Some (MidList parts) => parts
   | Some (MidStr m) => [m]
   | None => []
   end ++
   match tail d with
   | Some tl => [tl]
   | None => []
   end)%list.

(** [s] is a non-empty run of digits ([b = true]) or of non-digits. *)
Definition run_of (b : bool) (s : string) : bool :=
  match s with
  | "" => false
  | _ => Py.all_chars (fun c => Bool.eqb (Py.is_digit c) b) s
  end.

(** The segments are runs whose classes alternate, starting with [b]. *)
Fixpoint alternating (b : bool) (l : list string) : bool :=
  match l with
  | [] => true
  | s :: l' => run_of b s && alternating (negb b) l'
  end.

(** ** Digit format specifiers *)

(** The specifier of width [w]; width [0] is the unpadded one. *)
Definition specifier (w : nat) : string :=
  if (w =? 0)%nat then "%d" else "%0" ++ Py.str (Z.of_nat w) ++ "d".

(** The width given to a number string: its length, or [0] for a single
    character. *)
Definition width_of (s : string) : nat :=
  if (1 <? String.length s)%nat then String.length s else 0.


(** The pattern fragment for a specifier of width [w]. *)
Definition re_fragment (w : nat) (strict : bool) : string :=
  if (w =? 0)%nat then "\d+"
  else if strict then "\d{" ++ Py.str (Z.of_nat w) ++ "}"
  else "\d{1," ++ Py.str (Z.of_nat w) ++ "}".

(** A string that is a specifier and nothing else: a percent sign, digits,
    the letter d. *)
Definition is_specifier (spec : string) : bool :=
  match findall_dfs spec with
  | [found] => String.eqb found spec
  | _ => false
  end.

(** [sub] occurs in [s] at the index [i]: [s[i:i + len(sub)] == sub]. *)
Definition occurs_at (s sub : string) (i : Z) : Prop :=
  (0 <= i)%Z
  /\ Py.slice (Z.to_nat i) (Z.to_nat i + String.length sub) s = sub.

(** ** Scoring of the body components *)

Import ImageSequence.

(** The index in the root at which component [i] of [body] starts. *)
Definition offset (body : list string) (i : nat) : nat :=
  String.length (String.concat "" (firstn i body)).

(** The distance one sibling file contributes for the component [part]
    starting at [si]: the sample itself contributes nothing. *)
Definition distance_to (fs : Fs.t) (a : attrs) (si : nat) (part f : string) : nat :=
  if is_file fs (Fs.join (basedir a) f) (RStr (norm_ext (ext a)))
     && negb (String.eqb f (filename a))
  then levenshtein_distance
         (Py.slice si (si + String.length part) (fst (Py.splitext f))) part
  else 0.

(** The accumulated dissimilarity of [part] against the files [sampled]. *)
Definition dissimilarity (fs : Fs.t) (a : attrs) (si : nat) (part : string)
  (sampled : list string) : nat :=
  list_sum (map (distance_to fs a si part) sampled).

(** The file count rounded down to a power of ten, or the count itself
    when that power is at most ten. *)
Definition sample_size (fcount : nat) : nat :=
  let p := 10 ^ (String.length (Py.str (Z.of_nat fcount)) - 1) in
  if (10 <? p)%nat then p else fcount.

(** The files a scan compares with: all of them when it is strict. *)
Definition sampled (a : attrs) (strict : bool) : list string :=
  if strict then files a else firstn (sample_size (fcount a)) (files a).

(** The attributes with only the first [n] files of the directory. *)
Definition first_files (n : nat) (a : attrs) : attrs :=
  {| ImageSequence.path := ImageSequence.path a;
     ImageSequence.basedir := ImageSequence.basedir a;
     ImageSequence.filename := ImageSequence.filename a;
     ImageSequence.root := ImageSequence.root a;
     ImageSequence.ext := ImageSequence.ext a;
     ImageSequence.head := ImageSequence.head a;
     ImageSequence.mid := ImageSequence.mid a;
     ImageSequence.tail := ImageSequence.tail a;
     ImageSequence.files := firstn n (ImageSequence.files a);
     ImageSequence.fcount := ImageSequence.fcount a |}.

(** ** Start number *)

(** A file named by the pattern [dfs] rendered with [i] is in [dir]. *)
Definition on_disk (fs : Fs.t) (dir : Fs.path) (dfs : string) (i : Z) : bool :=
  match Py.format dfs i with
  | Ok fname => is_file fs (Fs.join dir fname) RNone
  | Raise _ => false
  end.

(** [start] is the smallest number below [sample] whose file is on disk,
    or [sample] when there is none. *)
Definition is_first_number (fs : Fs.t) (dir : Fs.path) (dfs : string)
  (sample start : Z) : Prop :=
  ((0 <= start < sample)%Z /\ on_disk fs dir dfs start = true
   /\ forall i, (0 <= i < start)%Z -> on_disk fs dir dfs i = false)
  \/ (start = sample
      /\ forall i, (0 <= i < sample)%Z -> on_disk fs dir dfs i = false).

(** ** Patterns *)

(** The characters with a special meaning in a regular expression. *)
Definition is_meta (c : ascii) : bool := Py.contains_char c ".^$*+?{}[]\|()".

Definition no_meta (s : string) : bool :=
  Py.all_chars (fun c => negb (is_meta c)) s.

(** The literal items for the characters of [s]. *)
Fixpoint lits (s : string) : list Re.re :=
  match s with
  | "" => []
  | String c s' => Re.Lit c :: lits s'
  end.

(** An extension is empty, or a dot followed by plain characters. *)
Definition plain_ext (ext : string) : bool :=
  match ext with
  | "" => true
  | String c e => Ascii.eqb c "." && no_meta e
  end.

(** ** Gaps *)

(** [detect_gaps] as its documentation words it: the numbers checked run
    from the start number and there are as many of them as files. *)
Definition detect_gaps_documented (im : t) : result (option (list string)) :=
  if (start_num im <? 0)%Z then Ok None
  else
    missing_files <- missing_from im
      (Py.range (start_num im)
                (start_num im + Z.of_nat (List.length (files (self im))))) ;;
    Ok (if (0 <? List.length missing_files)%nat then Some missing_files else None).

(** The sibling [f] counts for the scoring of the sample and has other
    text than [part] at the index [si] of its root. *)
Definition differs_at (fs : Fs.t) (a : attrs) (si : nat) (part f : string)
  : Prop :=
  is_file fs (Fs.join (basedir a) f) (RStr (norm_ext (ext a))) = true
  /\ f <> filename a
  /\ Py.slice si (si + String.length part) (fst (Py.splitext f)) <> part.

(** ** Sequence numbers *)

(** The number a file name carries under the pattern [re_fname]:
    [int(re.match(re_fname, f).group(1))]. *)
Definition sequence_number (re_fname f : string) : option Z :=
  match Re.match_ re_fname f with
  | Ok (Some groups) =>
      match Re.group 1 groups with
      | Ok g => match Py.int g with Ok n => Some n | Raise _ => None end
      | Raise _ => None
      end
  | _ => None
  end.

(** ** Removed characters *)

(** The text with the characters of [culled] put back at their indices,
    the entries taken in order. *)
Fixpoint restore (stripped : string) (culled : dict) : string :=
  match culled with
  | [] => stripped
  | (i, chars) :: rest =>
      restore (Py.take i stripped ++ chars ++ Py.drop i stripped) rest
  end.

(** ** Edit distance *)

(** An alignment of [x] with [y] at cost [n]: reading both from the
    left, a character is kept, substituted, deleted from [x] or inserted
    from [y]; every change costs one. *)
Inductive alignment : nat -> list ascii -> list ascii -> Prop :=
| A_done : alignment 0 [] []
| A_keep (a : ascii) (x y : list ascii) (n : nat) :
    alignment n x y -> alignment n (a :: x) (a :: y)
| A_subst (a b : ascii) (x y : list ascii) (n : nat) :
    alignment n x y -> alignment (S n) (a :: x) (b :: y)
| A_delete (a : ascii) (x y : list ascii) (n : nat) :
    alignment n x y -> alignment (S n) (a :: x) y
| A_insert (b : ascii) (x y : list ascii) (n : nat) :
    alignment n x y -> alignment (S n) x (b :: y).

(** ** Path strings *)

(** The text after the last separator of a path string. *)
Definition last_component (p : string) : string :=
  match Py.rfind_char "/" p with
  | None => p
  | Some sepIndex => Py.drop (S sepIndex) p
  end.

(** ** Messages and removals *)

(** A text without braces: [str.format] copies it. *)
Definition no_brace (s : string) : bool :=
  Py.all_chars (fun c => negb (Ascii.eqb c "{" || Ascii.eqb c "}")) s.

(** [fs'] is [fs] less some entries at or below [d]. *)
Definition sheds (d : Fs.path) (fs fs' : Fs.t) : Prop :=
  exists keep : Fs.path -> bool,
    fs' = filter (fun e => keep (fst e)) fs
    /\ forall q, Fs.is_prefix d q = false -> keep q = true.

(** The operating system refuses no removal at or below [d]. *)
Definition removable (denied : Fs.path -> bool) (d : Fs.path) : Prop :=
  forall q, Fs.is_prefix d q = true -> denied q = false.

End Notions.

(** * Invariants and auxiliary notions of the proofs *)

Module Invariants.

Import Utils ImageSequence Notions.

(** The class of the last of [n + 1] alternating segments that start
    with class [b]. *)
Fixpoint class_at (b : bool) (n : nat) : bool :=
  match n with
  | O => b
  | S k => class_at (negb b) k
  end.

(** [ds] is the decimal notation of [n]. *)
Record decimal (n : nat) (ds : string) : Prop := {
  dec_digits : Py.all_chars Py.is_digit ds = true;
  dec_length : 1 <= String.length ds;
  dec_value : forall a rest,
      Py.digits_value a (ds ++ rest)
      = Py.digits_value (a * 10 ^ String.length ds + n) rest;
  dec_upper : n < 10 ^ String.length ds;
  dec_lower : 1 <= n -> 10 ^ (String.length ds - 1) <= n
}.
Arguments dec_digits {n ds} _.
Arguments dec_length {n ds} _.
Arguments dec_value {n ds} _ a rest.
Arguments dec_upper {n ds} _.
Arguments dec_lower {n ds} _ _.

(** The bounds of the repetition in the fragment for width [w]. *)
Definition bounds (w : nat) : nat * option nat :=
  if (w =? 0)%nat then (1, None) else (w, Some w).

(** The items of an extension: its dot matches any character. *)
Definition ext_items (ext : string) : list Re.re :=
  match ext with
  | "" => []
  | String _ e => Re.AnyChar :: lits e
  end.

(** The items of the pattern of a file name with one counter of width
    [w] between [pre] and [post]. *)
Definition pattern_items (pre : string) (w : nat) (post ext : string)
  : list Re.re :=
  (Re.Bol :: lits pre ++
   Re.Group 1 (Re.Seq (Re.Repeat (fst (bounds w)) (snd (bounds w)) Re.Digit) Re.Eps)
   :: lits post ++ ext_items ext ++ [Re.Eol])%list.

(** The continuation of a whole match: report the groups. *)
Definition final : Re.cont := fun _ _ c => Some c.

Definition restriction_of (supp_formats : option (list string)) : restriction :=
  match supp_formats with
  | None => RNone
  | Some l => RList l
  end.

(** What a successful construction tells about the instance. *)
Record constructed (fs : Fs.t) (path : Fs.path)
  (supp_formats : option (list string)) (im : t) : Prop := {
  con_path : ImageSequence.path (self im) = path;
  con_is_file : is_file fs path (restriction_of supp_formats) = true;
  con_split : Fs.split path = (basedir (self im), filename (self im));
  con_percent : Py.contains_char "%" (filename (self im)) = false;
  con_splitext : Py.splitext (filename (self im)) = (root (self im), ext (self im));
  con_digit : split_at_digit (root (self im)) false
              = Ok {| Utils.head := head (self im); Utils.mid := mid (self im);
                      Utils.tail := tail (self im) |};
  con_files : files (self im)
              = fetch_dir fs (basedir (self im)) (RStr (norm_ext (ext (self im)))) true;
  con_fcount : fcount (self im) = List.length (files (self im));
  con_cases :
    (fcount (self im) < 2
     /\ im = {| self := self im; sequence_files := None;
                messages := [single_message (filename (self im))];
                dfs_filename := filename (self im); start_num := (-1)%Z |})
    \/ (2 <= fcount (self im)
        /\ exists dfs num,
             _parse_filename_pattern fs (self im) true = Ok (dfs, num)
             /\ get_start_number fs
                  {| self := self im; sequence_files := None; messages := [];
                     dfs_filename := dfs; start_num := num |}
                = Ok (start_num im)
             /\ im = {| self := self im; sequence_files := None; messages := [];
                        dfs_filename := dfs; start_num := start_num im |})
}.
Arguments con_path {fs path supp_formats im} _.
Arguments con_is_file {fs path supp_formats im} _.
Arguments con_split {fs path supp_formats im} _.
Arguments con_percent {fs path supp_formats im} _.
Arguments con_splitext {fs path supp_formats im} _.
Arguments con_digit {fs path supp_formats im} _.
Arguments con_files {fs path supp_formats im} _.
Arguments con_fcount {fs path supp_formats im} _.
Arguments con_cases {fs path supp_formats im} _.

(** The sample name taken apart along the inferred pattern. *)
Record taken_apart (im : t) (pre part post : string) : Prop := {
  ta_root : root (self im) = pre ++ part ++ post;
  ta_name : filename (self im) = pre ++ part ++ post ++ ext (self im);
  ta_digits : Py.isdigit part = true;
  ta_pattern : dfs_filename im
               = pre ++ specifier (width_of part) ++ post ++ ext (self im);
  ta_percent_pre : Py.contains_char "%" pre = false;
  ta_percent_post : Py.contains_char "%" (post ++ ext (self im)) = false
}.
Arguments ta_root {im pre part post} _.
Arguments ta_name {im pre part post} _.
Arguments ta_digits {im pre part post} _.
Arguments ta_pattern {im pre part post} _.
Arguments ta_percent_pre {im pre part post} _.
Arguments ta_percent_post {im pre part post} _.

(** What a branch of [strip_digit_format_specifier] leaves: nothing at
    all, or a text and at most one entry, a run of class characters,
    from which the text [around] the specifier is restored. *)
Definition branch_ok (cls : list ascii) (around : string)
  (r : string * string * dict) : Prop :=
  let '(root_head, root_tail, culled) := r in
  (root_head = "" /\ root_tail = "")
  \/ (restore (root_head ++ root_tail) culled = around
      /\ List.length culled <= 1
      /\ Forall (fun e => snd e <> ""
                          /\ Py.all_chars (in_class cls) (snd e) = true) culled).

(** A pattern without groups and repetitions. *)
Fixpoint plain (r : Re.re) : bool :=
  match r with
  | Re.Seq r1 r2 => plain r1 && plain r2
  | Re.Group _ _ | Re.Repeat _ _ _ => false
  | _ => true
  end.

(** The items of a literal file name: its dot matches any character. *)
Definition name_items (root ext : string) : list Re.re :=
  (lits root ++ ext_items ext)%list.

(** The recursion that defines the edit distance. *)
Fixpoint edit_distance (x : list ascii) : list ascii -> nat :=
  fix against (y : list ascii) : nat :=
    match x, y with
    | [], _ => List.length y
    | _, [] => List.length x
    | a :: x', b :: y' =>
        Nat.min (Nat.min (edit_distance x' y + 1) (against y' + 1))
                (edit_distance x' y' + if Ascii.eqb a b then 0 else 1)
    end.

(** The prefixes of [rest], each reversed and put in front of [acc]. *)
Fixpoint rev_prefixes (acc rest : list ascii) : list (list ascii) :=
  match rest with
  | [] => [acc]
  | c :: rest' => acc :: rev_prefixes (c :: acc) rest'
  end.

(** ** Removing a tree *)

(** The entries that are left when the entries [names] of the directory
    [d] were removed with what lies below them. *)
Definition kept (d : Fs.path) (names : list string) (e : Fs.path * Fs.kind)
  : bool :=
  negb (existsb (fun n => Fs.is_prefix (Fs.join d n) (fst e)) names).

End Invariants.

(** * Example inputs *)

Module Examples.

Definition directory (names : list string) : Fs.t :=
  (["seq"], Fs.Dir) :: map (fun name => (["seq"; name], Fs.File)) names.

(** Two frames with a gap between them; the sequence starts at 1. *)
Definition gapped : Fs.t := directory ["frame_1.png"; "frame_3.png"].

(** Three consecutive frames. *)
Definition three_frames : Fs.t :=
  directory ["img_000.jpg"; "img_001.jpg"; "img_002.jpg"].

(** Frames 0, 2 and 3: below the sample 3 there is a gap at 1. *)
Definition gap_below : Fs.t :=
  directory ["img_000.jpg"; "img_002.jpg"; "img_003.jpg"].

(** One image and nothing else of its kind. *)
Definition lonely : Fs.t := directory ["single.png"].

(** Two frames whose extension holds a metacharacter. *)
Definition plus_extension : Fs.t := directory ["img_001.a+"; "img_002.a+"].

(** The attributes of the sample [img_001.jpg] among [three_frames]. *)
Definition sample_attrs : ImageSequence.attrs :=
  {| ImageSequence.path := ["seq"; "img_001.jpg"];
     ImageSequence.basedir := ["seq"];
     ImageSequence.filename := "img_001.jpg";
     ImageSequence.root := "img_001"; ImageSequence.ext := ".jpg";
     ImageSequence.head := "img_"; ImageSequence.mid := None;
     ImageSequence.tail := Some "001";
     ImageSequence.files := ["img_000.jpg"; "img_001.jpg"; "img_002.jpg"];
     ImageSequence.fcount := 3 |}.

(** The descriptor of that sequence. *)
Definition sample_sequence : ImageSequence.t :=
  {| ImageSequence.self := sample_attrs;
     ImageSequence.sequence_files := None;
     ImageSequence.messages := [];
     ImageSequence.dfs_filename := "img_%03d.jpg";
     ImageSequence.start_num := 0 |}.

Definition sample_io (output_dir : Fs.path) : InputOutput.t :=
  {| InputOutput.input_path := ["seq"; "img_001.jpg"];
     InputOutput.input_dir := ["seq"];
     InputOutput.input_fname := "img_001.jpg";
     InputOutput.im := Some sample_sequence;
     InputOutput.output_root := "img_";
     InputOutput.output_dir := output_dir |}.

(** The source directory after the files of the sequence were removed
    from it, and a destination directory. *)
Definition emptied : Fs.t :=
  [(["seq"], Fs.Dir); (["out"], Fs.Dir); (["seq"; "notes.txt"], Fs.File)].

(** A directory of 102 images: the sample [a7.png], a hundred files
    [a7x000.png] to [a7x099.png], and [a8.png], the only one whose
    number differs from the sample's. *)
Definition crowd : list string :=
  "a7.png" ::
  List.app
    (map (fun k => "a7x" ++ Py.zfill 3 (Py.str (Z.of_nat k)) ++ ".png")
         (seq 0 100))
    ["a8.png"].

Definition crowded : Fs.t := directory crowd.

(** The attributes of the sample [a7.png] among them. *)
Definition crowded_attrs : ImageSequence.attrs :=
  {| ImageSequence.path := ["seq"; "a7.png"];
     ImageSequence.basedir := ["seq"];
     ImageSequence.filename := "a7.png";
     ImageSequence.root := "a7"; ImageSequence.ext := ".png";
     ImageSequence.head := "a"; ImageSequence.mid := None;
     ImageSequence.tail := Some "7";
     ImageSequence.files := crowd;
     ImageSequence.fcount := 102 |}.

(** A source directory whose name holds braces, without the files of
    the sequence, and the input and output of a renaming from it. *)
Definition braced : Fs.t :=
  [(["{seq}"], Fs.Dir); (["out"], Fs.Dir); (["{seq}"; "notes.txt"], Fs.File)].

Definition braced_io : InputOutput.t :=
  {| InputOutput.input_path := ["{seq}"; "img_001.jpg"];
     InputOutput.input_dir := ["{seq}"];
     InputOutput.input_fname := "img_001.jpg";
     InputOutput.im :=
       Some {| ImageSequence.self :=
                 {| ImageSequence.path := ["{seq}"; "img_001.jpg"];
                    ImageSequence.basedir := ["{seq}"];
                    ImageSequence.filename := "img_001.jpg";
                    ImageSequence.root := "img_001";
                    ImageSequence.ext := ".jpg";
                    ImageSequence.head := "img_";
                    ImageSequence.mid := None;
                    ImageSequence.tail := Some "001";
                    ImageSequence.files :=
                      ["img_000.jpg"; "img_001.jpg"; "img_002.jpg"];
                    ImageSequence.fcount := 3 |};
               ImageSequence.sequence_files := None;
               ImageSequence.messages := [];
               ImageSequence.dfs_filename := "img_%03d.jpg";
               ImageSequence.start_num := 0 |};
     InputOutput.output_root := "img_";
     InputOutput.output_dir := ["out"] |}.

(** An operating system that refuses no removal. *)
Definition permissive : Fs.path -> bool := fun _ => false.

(** The temporary directory for the time stamp [210308120000]. *)
Definition staging_dir : Fs.path := ["seq"; "tmp210308120000"].

(** Two frames without padding: by name [img_10.png] comes first. *)
Definition unpadded : Fs.t := directory ["img_10.png"; "img_9.png"].

(** The descriptor of the sample [img_9.png] among them. *)
Definition unpadded_sequence : ImageSequence.t :=
  {| ImageSequence.self :=
       {| ImageSequence.path := ["seq"; "img_9.png"];
          ImageSequence.basedir := ["seq"];
          ImageSequence.filename := "img_9.png";
          ImageSequence.root := "img_9"; ImageSequence.ext := ".png";
          ImageSequence.head := "img_"; ImageSequence.mid := None;
          ImageSequence.tail := Some "9";
          ImageSequence.files := ["img_10.png"; "img_9.png"];
          ImageSequence.fcount := 2 |};
     ImageSequence.sequence_files := None;
     ImageSequence.messages := [];
     ImageSequence.dfs_filename := "img_%d.png";
     ImageSequence.start_num := 9 |}.

End Examples.

(** * Properties

    From here on every argument of a lemma is written out. *)

Unset Implicit Arguments.

(** * Properties of the built-ins *)

Module PyFacts.

Import Py.

Lemma append_nil_r (s : string) : s ++ "" = s.
Proof. induction s; simpl; congruence. Qed.

Lemma append_assoc (a b c : string) : (a ++ b) ++ c = a ++ (b ++ c).
Proof. induction a; simpl; congruence. Qed.

Lemma length_append (a b : string) :
  String.length (a ++ b) = String.length a + String.length b.
Proof. induction a; simpl; congruence. Qed.

Lemma take_append (a b : string) : take (String.length a) (a ++ b) = a.
Proof. induction a; simpl; [destruct b|]; congruence. Qed.

Lemma drop_append (a b : string) : drop (String.length a) (a ++ b) = b.
Proof. induction a; simpl; auto. Qed.

Lemma take_all (s : string) (n : nat) : String.length s <= n -> take n s = s.
Proof.
  revert n; induction s; intros [|n] H; simpl in *; try reflexivity; try lia.
  f_equal. apply IHs. lia.
Qed.

Lemma take_drop (n : nat) (s : string) : take n s ++ drop n s = s.
Proof.
  revert s; induction n; intros [|c s]; simpl; try reflexivity.
  f_equal. apply IHn.
Qed.

Lemma all_chars_append (p : ascii -> bool) (a b : string) :
  all_chars p (a ++ b) = all_chars p a && all_chars p b.
Proof. induction a; simpl; [reflexivity|]. rewrite IHa. apply andb_assoc. Qed.

Lemma concat_app (l1 l2 : list string) :
  String.concat "" (l1 ++ l2) = String.concat "" l1 ++ String.concat "" l2.
Proof.
  induction l1 as [|x l1 IH]; simpl; [reflexivity|].
  destruct l1 as [|y l1].
  - simpl. destruct l2; simpl; [now rewrite append_nil_r | reflexivity].
  - simpl in *. rewrite IH. now rewrite append_assoc.
Qed.

Lemma concat_cons (x : string) (l : list string) :
  String.concat "" (x :: l) = x ++ String.concat "" l.
Proof. destruct l; simpl; [now rewrite append_nil_r | reflexivity]. Qed.

End PyFacts.

(** * The filename decomposer *)

Module SplitFacts.

Import Utils Notions Invariants PyFacts.

Lemma append_at_last (l : list string) (s : string) (c : ascii) :
  append_at (l ++ [s]) (List.length l) c
  = Ok (l ++ [(s ++ String c "")%string])%list.
Proof.
  induction l as [|x l IH]; simpl; [reflexivity|].
  now rewrite IH.
Qed.

Lemma run_of_snoc (b : bool) (s : string) (c : ascii) :
  run_of b s = true -> Py.is_digit c = b ->
  run_of b (s ++ String c "") = true.
Proof.
  unfold run_of. destruct s as [|a s]; [discriminate|].
  intros H Hc. simpl append. cbv iota.
  change (String a (s ++ String c "")) with (String a s ++ String c "").
  rewrite all_chars_append, H. simpl. rewrite Hc.
  now destruct b.
Qed.

Lemma run_of_single (c : ascii) : run_of (Py.is_digit c) (String c "") = true.
Proof. simpl. now destruct (Py.is_digit c). Qed.


Lemma alternating_snoc (b : bool) (l : list string) (s : string) :
  alternating b (l ++ [s]) =
  alternating b l && run_of (class_at b (List.length l)) s.
Proof.
  revert b; induction l as [|x l IH]; intros b; simpl.
  - now rewrite andb_true_r.
  - rewrite IH. now rewrite andb_assoc.
Qed.

Lemma class_at_succ (b : bool) (n : nat) :
  class_at b (S n) = negb (class_at b n).
Proof. revert b; induction n; intros b; simpl in *; [reflexivity|]. apply IHn. Qed.

Lemma same_class (d k : bool) : negb d && negb k || d && k = Bool.eqb d k.
Proof. now destruct d, k. Qed.

(** The loop keeps the segments alternating and only appends to their
    concatenation. *)
Lemma split_loop_spec (chars : string) :
  forall (b0 : bool) (l : list string) (s : string),
    alternating b0 (l ++ [s]) = true ->
    exists l',
      split_loop chars (class_at b0 (List.length l)) (l ++ [s]) (List.length l)
        = Ok l'
      /\ String.concat "" l' = String.concat "" (l ++ [s]) ++ chars
      /\ alternating b0 l' = true
      /\ (chars = "" -> l' = (l ++ [s])%list).
Proof.
  induction chars as [|c chars IH]; intros b0 l s Halt.
  - exists (l ++ [s])%list. simpl. now rewrite append_nil_r.
  - simpl split_loop.
    rewrite alternating_snoc in Halt. apply andb_true_iff in Halt as [Hl Hs].
    rewrite same_class.
    destruct (Bool.eqb (Py.is_digit c) (class_at b0 (List.length l))) eqn:E.
    + apply eqb_prop in E.
      rewrite append_at_last. cbn [bind].
      rewrite E.
      destruct (IH b0 l (s ++ String c "")) as (l' & Hrun & Hcat & Halt' & _).
      { rewrite alternating_snoc, Hl. simpl. now apply run_of_snoc. }
      exists l'. split; [exact Hrun|]. split; [|split; [exact Halt'|discriminate]].
      rewrite Hcat, !concat_app. simpl. now rewrite !append_assoc.
    + apply eqb_false_iff in E.
      assert (Hc : Py.is_digit c = class_at b0 (S (List.length l))).
      { rewrite class_at_succ. revert E.
        destruct (Py.is_digit c), (class_at b0 (List.length l)); simpl; intros; congruence. }
      rewrite Hc.
      replace (S (List.length l)) with (List.length (l ++ [s])%list)
        by (rewrite length_app; simpl; lia).
      destruct (IH b0 (l ++ [s])%list (String c "")) as (l' & Hrun & Hcat & Halt' & _).
      { rewrite alternating_snoc, alternating_snoc, Hl, Hs. simpl andb.
        rewrite length_app. simpl List.length.
        replace (List.length l + 1) with (S (List.length l)) by lia.
        rewrite <- Hc. apply run_of_single. }
      exists l'. split; [exact Hrun|]. split; [|split; [exact Halt'|discriminate]].
      rewrite Hcat, (concat_app (l ++ [s])). simpl. now rewrite !append_assoc.
Qed.

(** Sorting the fragments into head, midsection and tail loses nothing. *)
Lemma segments_sort_root (l : list string) :
  l <> [] -> segments (sort_root l false) = l.
Proof.
  destruct l as [|x [|y [|z l]]]; intros H; try congruence; try reflexivity.
  unfold segments, sort_root. cbn [head mid tail hd tl List.length Nat.ltb Nat.leb].
  cbv zeta.
  assert (E : (y :: z :: l)%list
              = (removelast (y :: z :: l) ++ [last (x :: y :: z :: l) ""])%list).
  { change (last (x :: y :: z :: l) "") with (last (y :: z :: l) "").
    apply app_removelast_last. discriminate. }
  remember (removelast (y :: z :: l)) as ms eqn:R.
  remember (last (x :: y :: z :: l) "") as tl eqn:L.
  rewrite E.
  destruct ms as [|m [|m' ms]].
  - simpl in R. destruct l; discriminate.
  - reflexivity.
  - reflexivity.
Qed.

End SplitFacts.

(** * Decimal notation *)

Module DecimalFacts.

Import Py PyFacts Invariants.

Lemma digit_val_char (d : nat) : d < 10 -> digit_val (digit_char d) = d.
Proof.
  intros H. unfold digit_val, digit_char.
  rewrite nat_ascii_embedding by lia. lia.
Qed.

Lemma is_digit_char (d : nat) : d < 10 -> is_digit (digit_char d) = true.
Proof.
  intros H. unfold is_digit, digit_char.
  rewrite nat_ascii_embedding by lia.
  apply andb_true_iff; split; apply Nat.leb_le; lia.
Qed.

Lemma is_digit_val (c : ascii) : is_digit c = true -> digit_val c < 10.
Proof.
  unfold is_digit, digit_val. intros H.
  apply andb_true_iff in H as [H1 H2].
  apply Nat.leb_le in H1, H2. lia.
Qed.


Lemma str_nat_from_succ (f n : nat) (acc : string) :
  str_nat_from (S f) n acc
  = if (n / 10 =? 0)%nat then String (digit_char (n mod 10)) acc
    else str_nat_from f (n / 10) (String (digit_char (n mod 10)) acc).
Proof. reflexivity. Qed.

Lemma str_nat_from_decimal (fuel : nat) :
  forall n acc, n < fuel ->
    exists ds, str_nat_from fuel n acc = ds ++ acc /\ decimal n ds.
Proof.
  induction fuel as [|f IH]; intros n acc Hn; [lia|].
  rewrite str_nat_from_succ.
  assert (Hmod : n mod 10 < 10) by (apply Nat.mod_upper_bound; lia).
  assert (Hdiv : n = 10 * (n / 10) + n mod 10) by (apply Nat.div_mod_eq).
  remember (n mod 10) as m eqn:Em.
  remember (n / 10) as q eqn:Eq.
  destruct (q =? 0)%nat eqn:E.
  - apply Nat.eqb_eq in E.
    exists (String (digit_char m) ""). split; [reflexivity|].
    constructor; cbn [String.length all_chars append digits_value].
    + now rewrite is_digit_char.
    + lia.
    + intros a rest. rewrite digit_val_char by assumption. f_equal.
      rewrite Nat.pow_1_r. lia.
    + rewrite Nat.pow_1_r. lia.
    + intros H1. change (1 - 1) with 0. rewrite Nat.pow_0_r. lia.
  - apply Nat.eqb_neq in E.
    destruct (IH q (String (digit_char m) acc)) as (ds & Hds & D).
    { lia. }
    exists (ds ++ String (digit_char m) "").
    split; [rewrite Hds; now rewrite append_assoc|].
    destruct D as [D1 D2 D3 D4 D5].
    assert (Hlen : String.length (ds ++ String (digit_char m) "")
                   = S (String.length ds)).
    { rewrite length_append. cbn [String.length]. lia. }
    constructor.
    + rewrite all_chars_append, D1. cbn [all_chars andb].
      now rewrite is_digit_char.
    + lia.
    + intros a rest. rewrite append_assoc, D3.
      cbn [append digits_value].
      rewrite digit_val_char by assumption. f_equal.
      rewrite Hlen, Nat.pow_succ_r'. lia.
    + rewrite Hlen, Nat.pow_succ_r'. lia.
    + intros _. rewrite Hlen.
      replace (S (String.length ds) - 1) with (S (String.length ds - 1)) by lia.
      rewrite Nat.pow_succ_r'. specialize (D5 ltac:(lia)). lia.
Qed.

Lemma str_nat_decimal (n : nat) : decimal n (str_nat n).
Proof.
  destruct (str_nat_from_decimal (S n) n "" ltac:(lia)) as (ds & H & D).
  unfold str_nat. rewrite H, append_nil_r. exact D.
Qed.

Lemma str_of_nat (n : nat) : str (Z.of_nat n) = str_nat n.
Proof.
  unfold str. destruct (Z.of_nat n <? 0)%Z eqn:E.
  - apply Z.ltb_lt in E. lia.
  - now rewrite Zabs2Nat.id.
Qed.

Lemma digits_value_str_nat (n : nat) : digits_value 0 (str_nat n) = n.
Proof.
  pose proof (dec_value (str_nat_decimal n) 0 "") as H.
  rewrite append_nil_r in H. rewrite H. reflexivity.
Qed.

(** ** Stripping *)

Lemma rev_acc_append (s acc : string) : rev_acc s acc = rev_acc s "" ++ acc.
Proof.
  revert acc; induction s as [|c s IH]; intros acc; simpl; [reflexivity|].
  rewrite IH, (IH (String c "")). now rewrite append_assoc.
Qed.

Lemma rev_append (a b : string) : rev (a ++ b) = rev b ++ rev a.
Proof.
  unfold rev. induction a as [|c a IH]; simpl.
  - now rewrite append_nil_r.
  - rewrite rev_acc_append, IH, (rev_acc_append a (String c "")).
    now rewrite append_assoc.
Qed.

Lemma rev_involutive (s : string) : rev (rev s) = s.
Proof.
  induction s as [|c s IH]; [reflexivity|].
  change (String c s) with (String c "" ++ s) at 1.
  rewrite rev_append, rev_append, IH. reflexivity.
Qed.

Lemma all_chars_rev (p : ascii -> bool) (s : string) :
  all_chars p (rev s) = all_chars p s.
Proof.
  induction s as [|c s IH]; [reflexivity|].
  change (String c s) with (String c "" ++ s) at 1.
  rewrite rev_append, all_chars_append, IH. simpl.
  rewrite andb_true_r. apply andb_comm.
Qed.

Lemma lstrip_none (p : ascii -> bool) (s : string) :
  all_chars (fun c => negb (p c)) s = true -> lstrip p s = s.
Proof.
  destruct s as [|c s]; simpl; [reflexivity|].
  intros H. apply andb_true_iff in H as [H _].
  now destruct (p c).
Qed.

Lemma strip_none (p : ascii -> bool) (s : string) :
  all_chars (fun c => negb (p c)) s = true -> strip p s = s.
Proof.
  intros H. unfold strip, rstrip. rewrite (lstrip_none _ _ H).
  rewrite lstrip_none by now rewrite all_chars_rev.
  apply rev_involutive.
Qed.

Lemma all_chars_impl (p q : ascii -> bool) (s : string) :
  (forall c, p c = true -> q c = true) ->
  all_chars p s = true -> all_chars q s = true.
Proof.
  intros Hpq. induction s as [|c s IH]; simpl; [reflexivity|].
  intros H. apply andb_true_iff in H as [H1 H2].
  now rewrite (Hpq _ H1), IH.
Qed.

Lemma digit_not_space (c : ascii) : is_digit c = true -> negb (is_space c) = true.
Proof.
  unfold is_digit, is_space. intros H.
  apply andb_true_iff in H as [H1 H2]. apply Nat.leb_le in H1, H2.
  apply negb_true_iff, orb_false_iff. split.
  - apply Nat.eqb_neq. lia.
  - apply andb_false_iff. right. apply Nat.leb_gt. lia.
Qed.

Lemma digit_not_sign (c : ascii) :
  is_digit c = true -> Ascii.eqb c "+" = false /\ Ascii.eqb c "-" = false.
Proof.
  intros H. split; apply Ascii.eqb_neq; intros ->; discriminate.
Qed.

(** [int] reads a run of digits as its value. *)
Lemma int_digits (s : string) :
  isdigit s = true -> int s = Ok (Z.of_nat (digits_value 0 s)).
Proof.
  intros H. unfold int.
  assert (Hall : all_chars is_digit s = true) by (destruct s; [discriminate|exact H]).
  rewrite strip_none by (eapply all_chars_impl; [apply digit_not_space|exact Hall]).
  destruct s as [|c s]; [discriminate|].
  simpl in Hall. apply andb_true_iff in Hall as [Hc _].
  destruct (digit_not_sign _ Hc) as [-> ->].
  now rewrite H.
Qed.

Lemma isdigit_str_nat (n : nat) : isdigit (str_nat n) = true.
Proof.
  pose proof (str_nat_decimal n) as [D1 D2 _ _ _].
  unfold isdigit. destruct (str_nat n); [simpl in D2; lia|exact D1].
Qed.

Lemma int_str_nat (n : nat) : int (str_nat n) = Ok (Z.of_nat n).
Proof. rewrite int_digits by apply isdigit_str_nat. now rewrite digits_value_str_nat. Qed.

End DecimalFacts.

(** * Digit format specifiers *)

Module SpecifierFacts.

Import Utils Notions Invariants PyFacts DecimalFacts.

(** ** The scanner *)

Lemma findall_inspec (digs : string) :
  forall ds rest,
    Py.all_chars Py.is_digit digs = true ->
    findall_dfs_from (InSpec ds) (digs ++ String "d" rest)
    = String "%" (ds ++ digs ++ "d") :: findall_dfs_from Outside rest.
Proof.
  induction digs as [|c digs IH]; intros ds rest H.
  - reflexivity.
  - cbn [Py.all_chars] in H. apply andb_true_iff in H as [Hc H].
    cbn [append findall_dfs_from]. rewrite Hc, IH by assumption.
    now rewrite append_assoc.
Qed.

Lemma findall_outside (pre rest : string) :
  Py.contains_char "%" pre = false ->
  findall_dfs_from Outside (pre ++ rest) = findall_dfs_from Outside rest.
Proof.
  induction pre as [|c pre IH]; intros H; [reflexivity|].
  cbn [Py.contains_char] in H. apply orb_false_iff in H as [Hc H].
  cbn [append findall_dfs_from]. rewrite Ascii.eqb_sym, Hc. now apply IH.
Qed.

Lemma findall_nothing (s : string) :
  Py.contains_char "%" s = false -> findall_dfs_from Outside s = [].
Proof.
  intros H. rewrite <- (append_nil_r s). now rewrite findall_outside.
Qed.

(** A name with one specifier and no other percent sign. *)
Lemma findall_one (pre digs post : string) :
  Py.contains_char "%" pre = false ->
  Py.contains_char "%" post = false ->
  Py.all_chars Py.is_digit digs = true ->
  findall_dfs (pre ++ String "%" (digs ++ "d") ++ post)
  = [String "%" (digs ++ "d")].
Proof.
  intros Hpre Hpost Hd. unfold findall_dfs.
  rewrite findall_outside by assumption.
  simpl. rewrite append_assoc. simpl.
  rewrite findall_inspec by assumption.
  now rewrite findall_nothing.
Qed.

Lemma specifier_shape (w : nat) :
  1 <= w -> specifier w = String "%" (String "0" (Py.str_nat w) ++ "d").
Proof.
  intros H. unfold specifier.
  destruct (w =? 0)%nat eqn:E; [apply Nat.eqb_eq in E; lia|].
  now rewrite str_of_nat.
Qed.

Lemma has_specifier (w : nat) : has_digit_format_specifier (specifier w) = true.
Proof.
  destruct w as [|w]; [reflexivity|].
  unfold has_digit_format_specifier.
  pose proof (findall_one "" (String "0" (Py.str_nat (S w))) "") as H.
  simpl append in H. rewrite append_nil_r in H.
  rewrite specifier_shape by lia. simpl append. rewrite H; try reflexivity.
  simpl. apply (dec_digits (str_nat_decimal (S w))).
Qed.

(** ** Negative indices *)

Lemma index_z_neg (s : string) (k : nat) :
  1 <= k <= String.length s ->
  Py.index_z (- Z.of_nat k) s
  = match String.get (String.length s - k) s with
    | Some c => Ok c
    | None => Raise IndexError
    end.
Proof.
  intros H. unfold Py.index_z.
  replace (- Z.of_nat k <? 0)%Z with true by (symmetry; apply Z.ltb_lt; lia).
  replace (- Z.of_nat k + Z.of_nat (String.length s) <? 0)%Z with false
    by (symmetry; apply Z.ltb_ge; lia).
  replace (Z.of_nat (String.length s)
           <=? - Z.of_nat k + Z.of_nat (String.length s))%Z with false
    by (symmetry; apply Z.leb_gt; lia).
  simpl orb. cbv iota.
  replace (Z.to_nat (- Z.of_nat k + Z.of_nat (String.length s)))
    with (String.length s - k) by lia.
  reflexivity.
Qed.

Lemma clamp_neg (s : string) (k : nat) :
  1 <= k <= String.length s ->
  Py.clamp_index (- Z.of_nat k) s = String.length s - k.
Proof.
  intros H. unfold Py.clamp_index.
  replace (- Z.of_nat k <? 0)%Z with true by (symmetry; apply Z.ltb_lt; lia).
  lia.
Qed.

Lemma clamp_nonneg (s : string) (k : nat) :
  Py.clamp_index (Z.of_nat k) s = Nat.min k (String.length s).
Proof.
  unfold Py.clamp_index.
  replace (Z.of_nat k <? 0)%Z with false by (symmetry; apply Z.ltb_ge; lia).
  lia.
Qed.

Lemma get_append (a b : string) (c : ascii) :
  String.get (String.length a) (a ++ String c b) = Some c.
Proof. induction a; simpl; auto. Qed.

Lemma snoc_cases (s : string) :
  s <> "" -> exists s' c, s = s' ++ String c "".
Proof.
  induction s as [|a s IH]; intros H; [congruence|].
  destruct s as [|b s].
  - now exists "", a.
  - destruct IH as (s' & c & E); [discriminate|].
    exists (String a s'), c. simpl. now rewrite <- E.
Qed.

(** ** to_re_pattern on the specifiers *)

Lemma to_re_pattern_specifier (w : nat) (strict : bool) :
  to_re_pattern (specifier w) strict = Ok (re_fragment w strict).
Proof.
  destruct w as [|w]; [reflexivity|].
  unfold to_re_pattern. rewrite has_specifier. cbn [negb].
  rewrite specifier_shape by lia.
  pose proof (str_nat_decimal (S w)) as D.
  pose proof (int_str_nat (S w)) as Hint.
  remember (Py.str_nat (S w)) as ds eqn:Eds.
  destruct (snoc_cases ds) as (ds' & c & E).
  { intros ->. pose proof (dec_length D). simpl in *. lia. }
  assert (Hc : Py.is_digit c = true).
  { pose proof (dec_digits D) as Hd. rewrite E, all_chars_append in Hd.
    apply andb_true_iff in Hd as [_ Hd]. simpl in Hd.
    now rewrite andb_true_r in Hd. }
  set (spec := String "%" (String "0" ds ++ "d")).
  assert (Hlen : String.length spec = 3 + String.length ds).
  { unfold spec. simpl. rewrite length_append. simpl. lia. }
  assert (Hneq : (spec =? "%d") = false).
  { unfold spec. simpl. reflexivity. }
  rewrite Hneq. cbn [negb].
  assert (Hidx : Py.index_z (-2) spec = Ok c).
  { change (-2)%Z with (- Z.of_nat 2)%Z. rewrite index_z_neg by lia.
    rewrite Hlen. unfold spec. rewrite E.
    replace (3 + String.length (ds' ++ String c "") - 2)
      with (String.length (String "%" (String "0" ds'))).
    2:{ rewrite length_append. simpl. lia. }
    replace (String "%" (String "0" (ds' ++ String c "") ++ "d"))
      with (String "%" (String "0" ds') ++ String c "d").
    2:{ simpl. now rewrite append_assoc. }
    now rewrite get_append. }
  rewrite Hidx. cbn [bind]. rewrite Hc.
  rewrite (int_digits (String c "")) by (simpl; now rewrite Hc).
  cbn [bind].
  assert (Hsize :
    (if (4 <? String.length spec)%nat
     then Py.int (Py.slice_z (- Z.of_nat (String.length spec - 1) + 1) (-1) spec)
     else Ok (Z.of_nat (Py.digits_value 0 (String c ""))))
    = Ok (Z.of_nat (S w))).
  { destruct (4 <? String.length spec)%nat eqn:L.
    - apply Nat.ltb_lt in L.
      unfold Py.slice_z.
      replace (- Z.of_nat (String.length spec - 1) + 1)%Z
        with (- Z.of_nat (String.length spec - 2))%Z by lia.
      change (-1)%Z with (- Z.of_nat 1)%Z.
      rewrite !clamp_neg by lia.
      unfold Py.slice.
      replace (String.length spec - 1 - (String.length spec - (String.length spec - 2)))
        with (String.length ds) by lia.
      replace (String.length spec - (String.length spec - 2)) with 2 by lia.
      unfold spec. simpl Py.drop. rewrite take_append. exact Hint.
    - apply Nat.ltb_ge in L.
      assert (ds' = "").
      { destruct ds' as [|a ds']; [reflexivity|].
        rewrite E, length_append in Hlen.
        change (String.length (String a ds')) with (S (String.length ds')) in Hlen.
        change (String.length (String c "")) with 1 in Hlen. lia. }
      subst ds'. simpl in E. rewrite E in Hint.
      rewrite int_digits in Hint by (simpl; now rewrite Hc).
      exact Hint. }
  rewrite Hsize. cbn [bind].
  unfold re_fragment. cbn [Nat.eqb].
  now destruct strict.
Qed.

Lemma index_z_error (i : Z) (s : string) (e : exn) :
  Py.index_z i s = Raise e -> e = IndexError.
Proof.
  unfold Py.index_z.
  destruct ((_ <? 0) || _)%Z; [congruence|].
  destruct (String.get _ s); congruence.
Qed.

Lemma int_error (s : string) (e : exn) : Py.int s = Raise e -> e = ValueError.
Proof.
  unfold Py.int. destruct (Py.strip Py.is_space s) as [|c ds]; [congruence|].
  destruct (Ascii.eqb c "+"), (Ascii.eqb c "-");
    repeat match goal with |- context [if ?b then _ else _] => destruct b end;
    congruence.
Qed.

Lemma to_re_pattern_rejects (spec : string) (strict : bool) :
  to_re_pattern spec strict = Raise AttributeError
  <-> has_digit_format_specifier spec = false.
Proof.
  unfold to_re_pattern. split.
  - destruct (has_digit_format_specifier spec); [|reflexivity].
    cbn [negb]. destruct (negb (spec =? "%d")); [|discriminate].
    destruct (Py.index_z (-2) spec) as [c|e] eqn:E1; cbn [bind].
    2:{ apply index_z_error in E1. congruence. }
    destruct (if Py.is_digit c then Py.int (String c "") else Ok 1%Z) as [n|e] eqn:E2;
      cbn [bind].
    2:{ destruct (Py.is_digit c); [apply int_error in E2|]; congruence. }
    destruct (if (4 <? String.length spec)%nat then _ else Ok n) as [m|e] eqn:E3;
      cbn [bind].
    2:{ destruct (4 <? String.length spec)%nat; [apply int_error in E3|]; congruence. }
    destruct strict; discriminate.
  - intros ->. reflexivity.
Qed.

End SpecifierFacts.

(** * Candidate scoring *)

Module ScoringFacts.

Import Utils ImageSequence Notions Invariants PyFacts DecimalFacts.

Lemma digits_value_zeros (k a : nat) :
  Py.digits_value a (Py.repeat_char "0" k) = a * 10 ^ k.
Proof.
  revert a; induction k as [|k IH]; intros a; simpl Py.repeat_char; simpl Py.digits_value.
  - simpl. lia.
  - rewrite IH. change (Py.digit_val "0") with 0.
    rewrite Nat.pow_succ_r'. lia.
Qed.

Lemma all_digits_zeros (k : nat) :
  Py.all_chars Py.is_digit (Py.repeat_char "0" k) = true.
Proof. induction k; simpl; auto. Qed.

(** The bound on the files compared is the sample size. *)
Lemma max_count_sample_size (fcount : nat) :
  max_count fcount = Ok (sample_size fcount).
Proof.
  unfold max_count, sample_size.
  rewrite int_digits by (simpl; apply all_digits_zeros).
  cbn [bind]. rewrite Nat2Z.id.
  simpl Py.digits_value. change (10 * 0 + Py.digit_val "1") with 1.
  rewrite digits_value_zeros. now rewrite Nat.mul_1_l.
Qed.

Lemma sample_size_bounds (fcount : nat) :
  1 <= fcount ->
  10 ^ (String.length (Py.str (Z.of_nat fcount)) - 1) <= fcount
  /\ fcount < 10 ^ String.length (Py.str (Z.of_nat fcount)).
Proof.
  intros H. rewrite str_of_nat.
  pose proof (str_nat_decimal fcount) as D.
  split; [apply (dec_lower D H) | apply (dec_upper D)].
Qed.

(** The inner loop adds the distances of the files it reaches. *)
Lemma total_distance_step (fs : Fs.t) (a : attrs) (si : nat) (part f : string)
  (total : nat) :
  (if is_file fs (Fs.join (basedir a) f) (RStr (norm_ext (ext a)))
      && negb (String.eqb f (filename a))
   then let '(froot, _) := Py.splitext f in
        total + levenshtein_distance
                  (Py.slice si (si + String.length part) froot) part
   else total)
  = total + distance_to fs a si part f.
Proof.
  unfold distance_to.
  destruct (is_file _ _ _ && _); [|lia].
  now destruct (Py.splitext f).
Qed.

Lemma total_distance_sampled (fs : Fs.t) (a : attrs) (mc si : nat) (part : string) :
  forall fnames count total,
    total_distance fs a false mc si part fnames count total
    = total + dissimilarity fs a si part (firstn (mc - count) fnames).
Proof.
  induction fnames as [|f rest IH]; intros count total.
  - simpl. rewrite firstn_nil. unfold dissimilarity. simpl. lia.
  - simpl total_distance. cbn [negb andb].
    destruct (mc <=? count)%nat eqn:E.
    + apply Nat.leb_le in E.
      replace (mc - count) with 0 by lia. unfold dissimilarity. simpl. lia.
    + apply Nat.leb_gt in E.
      rewrite total_distance_step, IH.
      replace (mc - count) with (S (mc - S count)) by lia.
      unfold dissimilarity. simpl. lia.
Qed.

Lemma total_distance_full (fs : Fs.t) (a : attrs) (mc si : nat) (part : string) :
  forall fnames count total,
    total_distance fs a true mc si part fnames count total
    = total + dissimilarity fs a si part fnames.
Proof.
  induction fnames as [|f rest IH]; intros count total.
  - unfold dissimilarity. simpl. lia.
  - simpl total_distance. cbn [negb andb].
    rewrite total_distance_step, IH.
    unfold dissimilarity. simpl. lia.
Qed.

(** ** The predicted indices *)

Lemma predict_from_spec (fs : Fs.t) (a : attrs) (strict : bool) (mc : nat) :
  forall parts i si idx,
    In idx (predict_from fs a strict mc parts i si)
    <-> exists k part,
          idx = i + k /\ nth_error parts k = Some part
          /\ 0 < total_distance fs a strict mc
                   (si + String.length (String.concat "" (firstn k parts)))
                   part (files a) 0 0
          /\ Py.isdigit part = true.
Proof.
  induction parts as [|p rest IH]; intros i si idx.
  - simpl. split; [tauto|]. intros (k & part & _ & H & _). now destruct k.
  - simpl predict_from.
    set (cond := ((0 <? total_distance fs a strict mc si p (files a) 0 0)%nat
                  && Py.isdigit p)).
    assert (Hrest : In idx (predict_from fs a strict mc rest (S i) (si + String.length p))
                    <-> exists k part,
                          idx = i + S k /\ nth_error rest k = Some part
                          /\ 0 < total_distance fs a strict mc
                                   (si + String.length (String.concat "" (p :: firstn k rest)))
                                   part (files a) 0 0
                          /\ Py.isdigit part = true).
    { rewrite IH. split; intros (k & part & E & N & T & D); exists k, part.
      - rewrite concat_cons, length_append, Nat.add_assoc.
        repeat split; try assumption. lia.
      - rewrite concat_cons, length_append, Nat.add_assoc in T.
        repeat split; try assumption. lia. }
    assert (Hhead : cond = true
                    <-> 0 < total_distance fs a strict mc
                              (si + String.length (String.concat "" (firstn 0 (p :: rest))))
                              p (files a) 0 0
                        /\ Py.isdigit p = true).
    { unfold cond. simpl firstn. simpl String.concat. simpl String.length.
      rewrite Nat.add_0_r, andb_true_iff, Nat.ltb_lt. tauto. }
    split.
    + intros H.
      assert (Hcases : (cond = true /\ idx = i)
                       \/ In idx (predict_from fs a strict mc rest (S i)
                                    (si + String.length p))).
      { destruct cond; [destruct H as [H|H]; [left; auto|right; exact H]|right; exact H]. }
      destruct Hcases as [[Hc ->]|Hin].
      * exists 0, p. apply Hhead in Hc. destruct Hc. repeat split; auto.
      * apply Hrest in Hin. destruct Hin as (k & part & E & N & T & D).
        exists (S k), part. repeat split; auto.
    + intros (k & part & E & N & T & D).
      destruct k as [|k].
      * simpl in N. injection N as ->.
        assert (Hc : cond = true) by (apply Hhead; split; assumption).
        rewrite Hc. left. lia.
      * assert (Hin : In idx (predict_from fs a strict mc rest (S i)
                                (si + String.length p))).
        { apply Hrest. exists k, part. repeat split; auto. }
        destruct cond; [right|]; exact Hin.
Qed.

Lemma predict_from_length (fs : Fs.t) (a : attrs) (strict : bool) (mc : nat) :
  forall parts i si,
    List.length (predict_from fs a strict mc parts i si) <= List.length parts.
Proof.
  induction parts as [|p rest IH]; intros i si; simpl; [lia|].
  specialize (IH (S i) (si + String.length p)).
  destruct (_ && _); simpl; lia.
Qed.

(** [_predict_sequence] fails exactly when nothing is predicted. *)
Lemma predict_sequence_result (fs : Fs.t) (a : attrs) (body : list string)
  (strict : bool) :
  _predict_sequence fs a body strict
  = match predict_from fs a strict (sample_size (fcount a)) body 0 0 with
    | [] => Raise RuntimeError
    | predicted => Ok predicted
    end.
Proof.
  unfold _predict_sequence. rewrite max_count_sample_size. cbn [bind].
  pose proof (predict_from_length fs a strict (sample_size (fcount a)) body 0 0) as L.
  destruct (predict_from _ _ _ _ body 0 0) as [|x l] eqn:E; [reflexivity|].
  replace (List.length body <? List.length (x :: l))%nat with false
    by (symmetry; apply Nat.ltb_ge; exact L).
  reflexivity.
Qed.

(** ** Replacing the predicted components *)

Lemma parse_specifier_digits (s : string) :
  Py.isdigit s = true ->
  parse_digit_format_specifier s = Ok (specifier (width_of s)).
Proof.
  intros H. unfold parse_digit_format_specifier. rewrite int_digits by assumption.
  unfold specifier, width_of.
  destruct (1 <? String.length s)%nat eqn:E; [|reflexivity].
  apply Nat.ltb_lt in E.
  destruct (String.length s =? 0)%nat eqn:Z; [apply Nat.eqb_eq in Z; lia|].
  reflexivity.
Qed.

Lemma parse_loop_total (body : list string) :
  forall bsi parsed_root sequence off,
    (forall i, In i bsi ->
       exists part, nth_error body i = Some part /\ Py.isdigit part = true) ->
    exists parsed_root' sequence',
      parse_loop body bsi parsed_root sequence off = Ok (parsed_root', sequence')
      /\ (bsi <> [] -> exists part, sequence' = Some part /\ Py.isdigit part = true).
Proof.
  induction bsi as [|i rest IH]; intros parsed_root sequence off H.
  - exists parsed_root, sequence. split; [reflexivity|congruence].
  - destruct (H i (or_introl eq_refl)) as (part & N & D).
    simpl parse_loop. rewrite N, parse_specifier_digits by assumption.
    cbn [bind].
    match goal with
    | |- context [parse_loop body rest ?pr ?sq ?off0] =>
        destruct (IH pr sq off0) as (pr' & sq' & Hrun & Hseq)
    end.
    { intros j Hj. apply H. now right. }
    exists pr', sq'. split; [exact Hrun|]. intros _.
    destruct rest as [|j rest'].
    + simpl in Hrun. injection Hrun as _ <-. now exists part.
    + apply Hseq. discriminate.
Qed.

End ScoringFacts.

(** * The start number *)

Module StartFacts.

Import Utils ImageSequence Notions Invariants.

Lemma range_down_neg : Py.range_down (-1) = [].
Proof. reflexivity. Qed.

Lemma range_down_succ (k : nat) :
  Py.range_down (Z.of_nat k) = Z.of_nat k :: Py.range_down (Z.of_nat k - 1).
Proof.
  unfold Py.range_down.
  replace (Z.to_nat (Z.of_nat k + 1)) with (S k) by lia.
  replace (Z.to_nat (Z.of_nat k - 1 + 1)) with k by lia.
  cbn [seq map]. f_equal; [lia|].
  rewrite <- seq_shift, map_map.
  apply map_ext. intros j. lia.
Qed.

(** [xrange(a, -1, -1)] counts down from [a] when [a] and the number of
    items are C [long]s, and is an [OverflowError] otherwise. *)
Lemma xrange_down (a : Z) :
  Py.xrange a (-1) (-1)
  = if ((- Py.maxint - 1 <=? a) && (a <? Py.maxint))%Z
    then Ok (Py.range_down a) else Raise OverflowError.
Proof.
  unfold Py.xrange, Py.fits_long, Py.range_down.
  change (- Py.maxint - 1 <=? -1)%Z with true.
  change (-1 <=? Py.maxint)%Z with true.
  rewrite !andb_true_r.
  destruct (- Py.maxint - 1 <=? a)%Z eqn:Lo; cbn [andb negb];
    [|reflexivity].
  destruct (a <=? Py.maxint)%Z eqn:Hi; cbn [negb].
  - change (-1 =? 0)%Z with false. change (0 <? -1)%Z with false. cbv iota.
    change (- -1)%Z with 1%Z. rewrite Z.div_1_r.
    destruct (-1 <? a)%Z eqn:Pos.
    + apply Z.ltb_lt in Pos. apply Z.leb_le in Hi.
      replace (a - -1 - 1 + 1)%Z with (a + 1)%Z by lia.
      destruct (a <? Py.maxint)%Z eqn:Lt.
      * apply Z.ltb_lt in Lt.
        replace (Py.maxint <? a + 1)%Z with false
          by (symmetry; apply Z.ltb_ge; lia).
        f_equal. apply map_ext. intros k. lia.
      * apply Z.ltb_ge in Lt.
        replace (Py.maxint <? a + 1)%Z with true
          by (symmetry; apply Z.ltb_lt; lia).
        reflexivity.
    + apply Z.ltb_ge in Pos.
      change (Py.maxint <? 0)%Z with false. cbv iota.
      replace (a <? Py.maxint)%Z with true
        by (symmetry; apply Z.ltb_lt; unfold Py.maxint; lia).
      replace (Z.to_nat (a + 1)) with 0 by lia. reflexivity.
  - apply Z.leb_gt in Hi.
    replace (a <? Py.maxint)%Z with false by (symmetry; apply Z.ltb_ge; lia).
    reflexivity.
Qed.

Lemma xrange_down_ok (a : Z) (l : list Z) :
  Py.xrange a (-1) (-1) = Ok l ->
  l = Py.range_down a /\ (a < Py.maxint)%Z.
Proof.
  rewrite xrange_down.
  destruct (_ <=? a)%Z; cbn [andb]; [|discriminate].
  destruct (a <? Py.maxint)%Z eqn:Lt; [|discriminate].
  intros H. injection H as <-. split; [reflexivity|now apply Z.ltb_lt].
Qed.

(** The scan from [k - 1] down to [0] returns the smallest number on
    disk, or what it started with. *)
Lemma scan_down_spec (fs : Fs.t) (im : t) (k : nat) :
  forall other r,
    scan_down fs im (Py.range_down (Z.of_nat k - 1)) other = Ok r ->
    (r = other
     /\ forall i, (0 <= i < Z.of_nat k)%Z ->
          on_disk fs (basedir (self im)) (dfs_filename im) i = false)
    \/ ((0 <= r < Z.of_nat k)%Z
        /\ on_disk fs (basedir (self im)) (dfs_filename im) r = true
        /\ forall i, (0 <= i < r)%Z ->
             on_disk fs (basedir (self im)) (dfs_filename im) i = false).
Proof.
  induction k as [|k IH]; intros other r H.
  - cbn in H. injection H as <-. left. split; [reflexivity|]. intros i Hi. lia.
  - replace (Z.of_nat (S k) - 1)%Z with (Z.of_nat k) in H by lia.
    rewrite range_down_succ in H. cbn [scan_down] in H.
    destruct (Py.format (dfs_filename im) (Z.of_nat k)) as [fname|e] eqn:F;
      cbn [bind] in H; [|discriminate].
    assert (D : on_disk fs (basedir (self im)) (dfs_filename im) (Z.of_nat k)
                = is_file fs (Fs.join (basedir (self im)) fname) RNone).
    { unfold on_disk. now rewrite F. }
    apply IH in H. destruct H as [[-> Hnone]|(Hr & Hon & Hmin)].
    + destruct (is_file fs (Fs.join (basedir (self im)) fname) RNone) eqn:I.
      * right. split; [lia|]. split; [exact D|]. exact Hnone.
      * left. split; [reflexivity|]. intros i Hi.
        destruct (Z.eq_dec i (Z.of_nat k)) as [->|Hne]; [exact D|].
        apply Hnone. lia.
    + right. split; [lia|]. split; assumption.
Qed.

Lemma get_start_number_first (fs : Fs.t) (im : t) (r : Z) :
  get_start_number fs im = Ok r ->
  is_first_number fs (basedir (self im)) (dfs_filename im) (start_num im) r.
Proof.
  unfold get_start_number, starts_at_zero.
  destruct (start_num im =? 0)%Z eqn:Z0; cbn [negb bind].
  - apply Z.eqb_eq in Z0. intros H. injection H as <-. cbn.
    right. split; [reflexivity|]. intros i Hi. lia.
  - destruct (Py.xrange (start_num im - 1) (-1) (-1)) as [l|e] eqn:X;
      cbn [bind]; [|discriminate].
    apply xrange_down_ok in X. destruct X as [-> _].
    destruct (Z_lt_le_dec (start_num im) 0) as [Hneg|Hpos].
    + unfold Py.range_down.
      replace (Z.to_nat (start_num im - 1 + 1)) with 0 by lia.
      cbn. intros H. injection H as <-.
      right. split; [reflexivity|]. intros i Hi. lia.
    + destruct (scan_down fs im (Py.range_down (start_num im - 1)) (-1)) as [o|e] eqn:S;
        cbn [bind]; [|discriminate].
      intros H. injection H as <-.
      replace (start_num im) with (Z.of_nat (Z.to_nat (start_num im))) in S by lia.
      apply scan_down_spec in S.
      rewrite Z2Nat.id in S by lia.
      destruct S as [[-> Hnone]|(Hr & Hon & Hmin)].
      * cbn. right. split; [reflexivity|exact Hnone].
      * replace (o <? 0)%Z with false by (symmetry; apply Z.ltb_ge; lia).
        left. repeat split; try assumption; lia.
Qed.

End StartFacts.

(** * Construction *)

Module InitFacts.

Import Utils ImageSequence Notions Invariants PyFacts SplitFacts.

Lemma splitext_append (name r e : string) :
  Py.splitext name = (r, e) -> r ++ e = name.
Proof.
  unfold Py.splitext.
  destruct (Py.rfind_char "." name) as [k|].
  - destruct (Py.all_chars (Ascii.eqb ".") (Py.take k name)).
    + intros H. injection H as <- <-. apply append_nil_r.
    + intros H. injection H as <- <-. apply take_drop.
  - intros H. injection H as <- <-. apply append_nil_r.
Qed.

Lemma splitext_root (name r e : string) :
  Py.splitext name = (r, e) -> name <> "" -> r <> "".
Proof.
  unfold Py.splitext.
  destruct (Py.rfind_char "." name) as [k|].
  - destruct (Py.all_chars (Ascii.eqb ".") (Py.take k name)) eqn:A.
    + intros H. injection H as <- <-. auto.
    + intros H. injection H as <- <-. intros _ E. rewrite E in A. discriminate.
  - intros H. injection H as <- <-. auto.
Qed.

(** A non-empty root always decomposes. *)
Lemma split_at_digit_total (root : string) :
  root <> "" ->
  exists d, split_at_digit root false = Ok d
            /\ String.concat "" (segments d) = root
            /\ alternating (match root with
                            | String c _ => Py.is_digit c
                            | "" => false
                            end) (segments d) = true
            /\ (String.length root = 1 -> segments d = [root]).
Proof.
  destruct root as [|c rest]; [congruence|]. intros _.
  unfold split_at_digit.
  destruct (split_loop_spec rest (Py.is_digit c) [] (String c ""))
    as (l & Hrun & Hcat & Halt & Hone).
  { cbn [app alternating]. rewrite run_of_single. reflexivity. }
  cbn [app List.length class_at] in Hrun, Hcat, Hone.
  rewrite Hrun. cbn [bind].
  assert (Hl : l <> []).
  { intros ->. cbn in Hcat. discriminate. }
  exists (sort_root l false). rewrite segments_sort_root by exact Hl.
  split; [reflexivity|]. split; [exact Hcat|]. split; [exact Halt|].
  intros H1. destruct rest; [|discriminate]. now apply Hone.
Qed.

Lemma get_body_segments (a : attrs) :
  _get_body a = segments {| Utils.head := head a; Utils.mid := mid a;
                            Utils.tail := tail a |}.
Proof.
  unfold _get_body, segments. cbn [Utils.head Utils.mid Utils.tail].
  destruct (mid a) as [[m|parts]|], (tail a); cbn;
    rewrite <- ?app_assoc; try reflexivity.
  all: now rewrite ?app_nil_r.
Qed.



Lemma init_inversion (fs : Fs.t) (path : Fs.path)
  (supp_formats : option (list string)) (im : t) :
  __init__ fs path supp_formats = Ok im -> constructed fs path supp_formats im.
Proof.
  unfold __init__. fold (restriction_of supp_formats).
  destruct (is_file fs path (restriction_of supp_formats)) eqn:Hfile;
    cbn [negb]; [|discriminate].
  destruct (Fs.split path) as [bd fname] eqn:Hsplit.
  destruct (Py.contains_char "%" fname) eqn:Hpct; [discriminate|].
  destruct (Py.splitext fname) as [rt ex] eqn:Hext.
  destruct (split_at_digit rt false) as [d|e] eqn:Hd; cbn [bind]; [|discriminate].
  cbn [fcount].
  destruct (List.length (fetch_dir fs bd (RStr (norm_ext ex)) true) <? 2)%nat eqn:Hcount.
  - intros H. injection H as <-. apply Nat.ltb_lt in Hcount.
    constructor; cbn; try assumption; try reflexivity.
    + now destruct d.
    + left. split; [exact Hcount|reflexivity].
  - apply Nat.ltb_ge in Hcount.
    match goal with
    | |- context [_parse_filename_pattern fs ?a true] => set (att := a)
    end.
    destruct (_parse_filename_pattern fs att true) as [[dfs num]|e] eqn:Hparse;
      cbn [bind]; [|discriminate].
    destruct (get_start_number fs _) as [start|e] eqn:Hstart; cbn [bind]; [|discriminate].
    intros H. injection H as <-.
    constructor; cbn; try assumption; try reflexivity.
    + now destruct d.
    + right. split; [exact Hcount|]. exists dfs, num. repeat split; assumption.
Qed.

End InitFacts.

(** * Regular expressions *)

Module ReFacts.

Import Notions Invariants PyFacts DecimalFacts.
Import Re.

Lemma bind_ok {A : Type} (r : result A) : (x <- r ;; Ok x) = r.
Proof. now destruct r. Qed.

(** ** Lexing *)

Lemma lex_normal_plain (c : ascii) :
  is_meta c = false -> lex_normal c = Ok ([TLit c], LNormal).
Proof.
  unfold is_meta. cbn [Py.contains_char]. intros H.
  repeat (apply orb_false_iff in H as [?E H]).
  unfold lex_normal.
  repeat match goal with
         | E : Ascii.eqb c ?x = false |- _ => rewrite E; clear E
         end.
  reflexivity.
Qed.

Lemma lex_literals (s rest : string) :
  no_meta s = true ->
  lex LNormal (s ++ rest)
  = (toks <- lex LNormal rest ;; Ok (literals s ++ toks)%list).
Proof.
  intros Hs. induction s as [|c s IH].
  - cbn [append literals app]. now rewrite bind_ok.
  - unfold no_meta in Hs. cbn [Py.all_chars] in Hs.
    apply andb_true_iff in Hs as [Hc Hs]. apply negb_true_iff in Hc.
    cbn [append lex lex_step]. rewrite (lex_normal_plain _ Hc). cbn [bind].
    rewrite (IH Hs). now destruct (lex LNormal rest).
Qed.

Lemma digit_not_brace (c : ascii) :
  Py.is_digit c = true -> Ascii.eqb c "}" = false.
Proof. intros H. apply Ascii.eqb_neq. intros ->. discriminate. Qed.

(** The digits of a repetition count. *)
Lemma lex_brace_digits (digs : string) :
  forall lo rest,
    Py.all_chars Py.is_digit digs = true ->
    lex (LBrace lo None) (digs ++ rest) = lex (LBrace (lo ++ digs) None) rest.
Proof.
  induction digs as [|c digs IH]; intros lo rest Hd.
  - now rewrite append_nil_r.
  - cbn [Py.all_chars] in Hd. apply andb_true_iff in Hd as [Hc Hd].
    cbn [append lex lex_step]. rewrite (digit_not_brace _ Hc), Hc. cbn [bind app].
    rewrite bind_ok, IH by assumption.
    now rewrite append_assoc.
Qed.

Lemma lex_brace_close (lo rest : string) :
  lo <> "" ->
  lex (LBrace lo None) (String "}" rest)
  = (toks <- lex LNormal rest ;;
     Ok (TQuant (Py.digits_value 0 lo) (Some (Py.digits_value 0 lo)) :: toks)).
Proof.
  intros Hlo. cbn [lex lex_step]. rewrite Ascii.eqb_refl.
  unfold close_brace. destruct lo as [|a lo]; [congruence|].
  rewrite Nat.ltb_irrefl. cbn [bind app].
  now destruct (lex LNormal rest).
Qed.


Lemma lex_cons (st : lex_state) (c : ascii) (s : string) :
  lex st (String c s)
  = ('(toks, st') <- lex_step st c ;;
     rest <- lex st' s ;; Ok (toks ++ rest)%list).
Proof. reflexivity. Qed.

(** One step of the lexer on a known character. *)
Ltac lex_char toks st :=
  rewrite lex_cons;
  match goal with
  | |- context [lex_step ?s ?c] =>
      change (lex_step s c) with (@Ok (list token * lex_state) (toks, st))
  end;
  cbn [bind app].

Lemma lex_fragment (w : nat) (rest : string) :
  lex LNormal (re_fragment w true ++ rest)
  = (toks <- lex LNormal rest ;;
     Ok (TDigit :: TQuant (fst (bounds w)) (snd (bounds w)) :: toks)).
Proof.
  unfold re_fragment, bounds. destruct (w =? 0)%nat eqn:E; cbn [fst snd].
  - change ("\d+" ++ rest) with (String "\" (String "d" (String "+" rest))).
    lex_char (@nil token) LEscape.
    lex_char [TDigit] LNormal.
    lex_char [TQuant 1 None] LNormal.
    now destruct (lex LNormal rest).
  - rewrite str_of_nat.
    change (("\d{" ++ Py.str_nat w ++ "}") ++ rest)
      with (String "\" (String "d" (String "{" ((Py.str_nat w ++ "}") ++ rest)))).
    lex_char (@nil token) LEscape.
    lex_char [TDigit] LNormal.
    lex_char (@nil token) (LBrace "" None).
    rewrite append_assoc.
    rewrite lex_brace_digits by apply (dec_digits (str_nat_decimal w)).
    cbn [append].
    rewrite lex_brace_close.
    2:{ intros Hn. pose proof (dec_length (str_nat_decimal w)) as L.
        rewrite Hn in L. cbn in L. lia. }
    rewrite digits_value_str_nat.
    now destruct (lex LNormal rest).
Qed.

(** ** Parsing *)

Lemma parse_literals (s : string) :
  forall st toks,
    parse_tokens st (literals s ++ toks)
    = parse_tokens {| cur := List.rev (lits s) ++ cur st; stack := stack st;
                      next_group := next_group st |} toks.
Proof.
  induction s as [|c s IH]; intros st toks.
  - cbn [literals lits List.rev app]. now destruct st.
  - cbn [literals lits List.rev app parse_tokens parse_token bind].
    rewrite IH. cbn [cur stack next_group].
    now rewrite <- app_assoc.
Qed.


Lemma lex_ext (ext : string) :
  plain_ext ext = true ->
  lex LNormal (ext ++ "$")
  = Ok (match ext with
        | "" => []
        | String _ e => TAny :: literals e
        end ++ [TEol])%list.
Proof.
  destruct ext as [|c e]; [reflexivity|].
  cbn [plain_ext]. intros H. apply andb_true_iff in H as [Hc He].
  apply Ascii.eqb_eq in Hc. subst c.
  change (String "." e ++ "$") with (String "." (e ++ "$")).
  lex_char [TAny] LNormal.
  rewrite lex_literals by exact He.
  reflexivity.
Qed.

Lemma compile_pattern (pre post ext : string) (w : nat) :
  no_meta pre = true -> no_meta post = true -> plain_ext ext = true ->
  compile ("^" ++ pre ++ "(" ++ re_fragment w true ++ ")" ++ post ++ ext ++ "$")
  = Ok (seq_of (pattern_items pre w post ext)).
Proof.
  intros Hpre Hpost Hext. unfold compile.
  change ("^" ++ pre ++ "(" ++ re_fragment w true ++ ")" ++ post ++ ext ++ "$")
    with (String "^" (pre ++ String "(" (re_fragment w true ++
            String ")" (post ++ ext ++ "$")))).
  lex_char [TBol] LNormal.
  rewrite lex_literals by exact Hpre.
  lex_char [TOpen] LNormal.
  rewrite lex_fragment.
  lex_char [TClose] LNormal.
  rewrite lex_literals by exact Hpost.
  rewrite lex_ext by exact Hext.
  cbn [bind app].
  cbn [parse_tokens parse_token bind cur stack next_group].
  rewrite parse_literals.
  cbn [parse_tokens parse_token bind cur stack next_group].
  rewrite parse_literals.
  unfold pattern_items, ext_items.
  destruct ext as [|c e].
  - cbn [app parse_tokens parse_token bind cur stack next_group List.rev seq_of
         fold_right].
    repeat (rewrite ?List.rev_app_distr, ?List.rev_involutive;
            cbn [List.rev app]; rewrite <- ?app_assoc).
    reflexivity.
  - cbn [app parse_tokens parse_token bind cur stack next_group].
    rewrite parse_literals.
    cbn [app parse_tokens parse_token bind cur stack next_group List.rev seq_of
         fold_right].
    repeat (rewrite ?List.rev_app_distr, ?List.rev_involutive;
            cbn [List.rev app]; rewrite <- ?app_assoc).
    reflexivity.
Qed.

End ReFacts.

(** * Matching file-name patterns *)

Module MatchFacts.

Import Notions Invariants PyFacts DecimalFacts ReFacts.
Import Re.


Lemma startswith_append (p s : string) : Py.startswith p (p ++ s) = true.
Proof.
  induction p as [|c p IH]; [now destruct s|].
  cbn [append Py.startswith]. now rewrite Ascii.eqb_refl, IH.
Qed.

Section Subject.

Variable subject : string.

(** Literal items consume exactly their text. *)
Lemma run_lits (p : string) :
  forall (items : list re) pos s c k,
    run subject (seq_of (lits p ++ items)) pos s c k
    = if Py.startswith p s
      then run subject (seq_of items) (pos + String.length p)
             (Py.drop (String.length p) s) c k
      else None.
Proof.
  induction p as [|a p IH]; intros items pos s c k.
  - cbn [lits app String.length Py.drop]. rewrite Nat.add_0_r.
    now destruct s.
  - cbn [lits app seq_of fold_right run]. fold (seq_of (lits p ++ items)).
    destruct s as [|b s]; [reflexivity|].
    cbn [Py.startswith String.length Py.drop].
    destruct (Ascii.eqb a b); [|reflexivity].
    rewrite IH. cbn [andb]. now rewrite Nat.add_succ_r.
Qed.

Lemma run_digit (pos : nat) (s : string) (c : captures) (k : cont) :
  run subject Digit pos s c k
  = match s with
    | String b s' => if Py.is_digit b then k (S pos) s' c else None
    | "" => None
    end.
Proof. reflexivity. Qed.

(** A greedy run of digits: the ways it can succeed. *)
Lemma rep_digits_inv (lo : nat) (hi : option nat) (k : cont) (fuel : nat) :
  forall count pos s c r,
    rep (run subject Digit) lo hi k fuel count pos s c = Some r ->
    exists digs s',
      s = digs ++ s' /\ Py.all_chars Py.is_digit digs = true
      /\ lo <= count + String.length digs
      /\ k (pos + String.length digs) s' c = Some r.
Proof.
  induction fuel as [|f IH]; intros count pos s c r H.
  - cbn [rep] in H.
    assert (Hstop : (if (lo <=? count)%nat then k pos s c else None) = Some r)
      by (destruct (reached hi count); exact H).
    destruct (lo <=? count)%nat eqn:L; [|discriminate].
    apply Nat.leb_le in L. exists "", s. cbn [append String.length Py.all_chars].
    rewrite !Nat.add_0_r. repeat split; auto.
  - cbn [rep] in H.
    assert (Hcases :
      (if (lo <=? count)%nat then k pos s c else None) = Some r
      \/ exists b s', s = String b s' /\ Py.is_digit b = true
                      /\ rep (run subject Digit) lo hi k f (S count) (S pos) s' c
                         = Some r).
    { destruct (reached hi count); [left; exact H|].
      rewrite run_digit in H. destruct s as [|b s']; [left; exact H|].
      destruct (Py.is_digit b) eqn:D; [|left; exact H].
      replace (S pos =? pos)%nat with false in H
        by (symmetry; apply Nat.eqb_neq; lia).
      cbn [andb] in H.
      destruct (rep (run subject Digit) lo hi k f (S count) (S pos) s' c) eqn:R.
      - right. exists b, s'. cbv beta iota in H. repeat split; auto. congruence.
      - left. exact H. }
    destruct Hcases as [Hstop|(b & s' & -> & D & R)].
    + destruct (lo <=? count)%nat eqn:L; [|discriminate].
      apply Nat.leb_le in L. exists "", s. cbn [append String.length Py.all_chars].
      rewrite !Nat.add_0_r. repeat split; auto.
    + apply IH in R. destruct R as (digs & s'' & -> & Hd & Hlo & Hk).
      exists (String b digs), s''. cbn [append Py.all_chars String.length].
      rewrite D, Hd. repeat split; auto; try lia.
      now rewrite Nat.add_succ_r.
Qed.

(** A greedy run of digits succeeds when stopping after [digs] does. *)
Lemma rep_digits_some (lo : nat) (hi : option nat) (k : cont) (digs : string) :
  forall s fuel count pos c r,
    Py.all_chars Py.is_digit digs = true ->
    String.length digs <= fuel ->
    lo <= count + String.length digs ->
    (forall h, hi = Some h -> count + String.length digs <= h) ->
    k (pos + String.length digs) s c = Some r ->
    exists r', rep (run subject Digit) lo hi k fuel count pos (digs ++ s) c = Some r'.
Proof.
  induction digs as [|b digs IH]; intros s fuel count pos c r Hd Hf Hlo Hhi Hk.
  - cbn [String.length append] in *. rewrite Nat.add_0_r in *.
    assert (Hstop : (if (lo <=? count)%nat then k pos s c else None) = Some r).
    { replace (lo <=? count)%nat with true by (symmetry; apply Nat.leb_le; lia).
      exact Hk. }
    destruct fuel as [|f]; cbn [rep]; rewrite Hstop.
    + exists r. now destruct (reached hi count).
    + destruct (reached hi count); [now exists r|].
      destruct (run subject Digit pos s c _) as [r'|]; [now exists r'|now exists r].
  - cbn [Py.all_chars] in Hd. apply andb_true_iff in Hd as [Hb Hd].
    cbn [String.length] in Hf, Hlo, Hhi, Hk.
    destruct fuel as [|f]; [lia|].
    cbn [rep append].
    assert (Hreach : reached hi count = false).
    { destruct hi as [h|]; [|reflexivity]. cbn. apply Nat.leb_gt.
      specialize (Hhi h eq_refl). lia. }
    rewrite Hreach, run_digit, Hb.
    replace (S pos =? pos)%nat with false by (symmetry; apply Nat.eqb_neq; lia).
    cbn [andb].
    destruct (IH s f (S count) (S pos) c r) as (r' & Hr'); try assumption; try lia.
    + intros h Hh. specialize (Hhi h Hh). lia.
    + now rewrite Nat.add_succ_l, <- Nat.add_succ_r.
    + rewrite Hr'. now exists r'.
Qed.

End Subject.

(** ** The tail of a pattern: text after the counter *)

Lemma run_tail_inv (subject post ext : string) :
  forall pos s c r,
    run subject (seq_of (lits post ++ ext_items ext ++ [Eol])) pos s c final = Some r ->
    r = c.
Proof.
  intros pos s c r. rewrite run_lits.
  destruct (Py.startswith post s); [|discriminate].
  destruct ext as [|d e]; cbn [ext_items app].
  - cbn [seq_of fold_right run]. destruct (at_end _); [|discriminate].
    unfold final. congruence.
  - cbn [seq_of fold_right run]. fold (seq_of (lits e ++ [Eol])).
    destruct (Py.drop (String.length post) s) as [|b s']; [discriminate|].
    destruct (Ascii.eqb b newline); [discriminate|].
    rewrite run_lits. destruct (Py.startswith e s'); [|discriminate].
    cbn [seq_of fold_right run]. destruct (at_end _); [|discriminate].
    unfold final. congruence.
Qed.

Lemma run_tail_some (subject post ext : string) (pos : nat) (c : captures) :
  plain_ext ext = true ->
  run subject (seq_of (lits post ++ ext_items ext ++ [Eol])) pos (post ++ ext) c final
  = Some c.
Proof.
  intros Hext. rewrite run_lits, startswith_append, drop_append.
  destruct ext as [|d e]; cbn [ext_items app].
  - reflexivity.
  - cbn [plain_ext] in Hext. apply andb_true_iff in Hext as [Hd _].
    apply Ascii.eqb_eq in Hd. subst d.
    cbn [seq_of fold_right run]. fold (seq_of (lits e ++ [Eol])).
    change (Ascii.eqb "." newline) with false. cbn iota.
    rewrite <- (append_nil_r e) at 2.
    rewrite run_lits, startswith_append, drop_append.
    reflexivity.
Qed.

(** ** The whole pattern *)

Lemma bounds_lo (w : nat) : 1 <= fst (bounds w).
Proof.
  unfold bounds. destruct (w =? 0)%nat eqn:E; cbn; [lia|].
  apply Nat.eqb_neq in E. lia.
Qed.

(** Whatever name the pattern matches, its group is a run of digits. *)
Lemma pattern_group_digits (pre post ext : string) (w : nat) (f : string)
  (groups : captures) :
  run f (seq_of (pattern_items pre w post ext)) 0 f [] final = Some groups ->
  exists g, groups = [(1, g)] /\ Py.isdigit g = true.
Proof.
  unfold pattern_items. cbn [seq_of fold_right run Nat.eqb].
  match goal with
  | |- context [fold_right Seq Eps (lits pre ++ ?items)] =>
      change (fold_right Seq Eps (lits pre ++ items)) with (seq_of (lits pre ++ items))
  end.
  rewrite run_lits.
  destruct (Py.startswith pre f) eqn:Hpre; [|discriminate].
  cbn [seq_of fold_right run]. fold (seq_of (lits post ++ ext_items ext ++ [Eol])).
  intros H. apply (rep_digits_inv f) in H.
  destruct H as (digs & s' & Hs & Hd & Hlo & Hk).
  cbn [run] in Hk. apply (run_tail_inv f post ext) in Hk. subst groups.
  exists digs. split.
  - do 2 f_equal. unfold Py.slice.
    replace (0 + String.length pre + String.length digs - (0 + String.length pre))
      with (String.length digs) by lia.
    cbn [Nat.add]. rewrite Hs. apply take_append.
  - pose proof (bounds_lo w). unfold Py.isdigit.
    destruct digs; [cbn in Hlo; lia|exact Hd].
Qed.

(** The pattern matches the name it was inferred from. *)
Lemma pattern_matches_sample (pre part post ext : string) :
  Py.isdigit part = true -> plain_ext ext = true ->
  exists groups,
    run (pre ++ part ++ post ++ ext)
        (seq_of (pattern_items pre (width_of part) post ext)) 0
        (pre ++ part ++ post ++ ext) [] final = Some groups.
Proof.
  intros Hpart Hext.
  assert (Hd : Py.all_chars Py.is_digit part = true)
    by (destruct part; [discriminate|exact Hpart]).
  assert (Hlen : 1 <= String.length part)
    by (destruct part; [discriminate|cbn; lia]).
  unfold pattern_items. cbn [seq_of fold_right run Nat.eqb].
  match goal with
  | |- context [fold_right Seq Eps (lits pre ++ ?items)] =>
      change (fold_right Seq Eps (lits pre ++ items)) with (seq_of (lits pre ++ items))
  end.
  rewrite run_lits, startswith_append, drop_append.
  cbn [seq_of fold_right run]. fold (seq_of (lits post ++ ext_items ext ++ [Eol])).
  eapply (rep_digits_some (pre ++ part ++ post ++ ext)).
  - exact Hd.
  - rewrite length_append. lia.
  - unfold bounds, width_of. cbn [Nat.add].
    destruct (1 <? String.length part)%nat eqn:L.
    + apply Nat.ltb_lt in L.
      replace (String.length part =? 0)%nat with false
        by (symmetry; apply Nat.eqb_neq; lia).
      cbn. lia.
    + cbn. lia.
  - unfold bounds, width_of. cbn [Nat.add].
    destruct (1 <? String.length part)%nat eqn:L.
    + apply Nat.ltb_lt in L.
      replace (String.length part =? 0)%nat with false
        by (symmetry; apply Nat.eqb_neq; lia).
      cbn. intros h Hh. injection Hh as <-. lia.
    + cbn. intros h Hh. discriminate.
  - cbn [run]. apply run_tail_some. exact Hext.
Qed.

End MatchFacts.

(** * The inferred pattern *)

Module PatternFacts.

Import Utils ImageSequence Notions Invariants PyFacts DecimalFacts SpecifierFacts ScoringFacts.

Lemma contains_char_append (c : ascii) (a b : string) :
  Py.contains_char c (a ++ b) = Py.contains_char c a || Py.contains_char c b.
Proof.
  induction a as [|x a IH]; [reflexivity|].
  cbn [append Py.contains_char]. rewrite IH. apply orb_assoc.
Qed.

Lemma no_meta_append (a b : string) :
  no_meta (a ++ b) = no_meta a && no_meta b.
Proof. apply all_chars_append. Qed.

(** ** Replacing the one specifier *)

Lemma replace_skip (old new x rest : string) :
  Py.replace_from old new (String.length x) (x ++ rest)
  = Py.replace_from old new 0 rest.
Proof.
  induction x as [|c x IH]; [reflexivity|].
  cbn [append String.length Py.replace_from]. exact IH.
Qed.

Lemma startswith_percent (body s : string) (c : ascii) :
  Ascii.eqb c "%" = false ->
  Py.startswith (String "%" body) (String c s) = false.
Proof.
  intros H. cbn [Py.startswith]. now rewrite Ascii.eqb_sym, H.
Qed.

Lemma replace_none (body new s : string) :
  Py.contains_char "%" s = false ->
  Py.replace_from (String "%" body) new 0 s = s.
Proof.
  induction s as [|c s IH]; intros H; [reflexivity|].
  cbn [Py.contains_char] in H. apply orb_false_iff in H as [Hc H].
  cbn [Py.replace_from].
  rewrite startswith_percent by (now rewrite Ascii.eqb_sym).
  now rewrite IH.
Qed.

Lemma replace_one (body new pre rest : string) :
  Py.contains_char "%" pre = false ->
  Py.contains_char "%" rest = false ->
  Py.replace (String "%" body) new (pre ++ String "%" body ++ rest)
  = pre ++ new ++ rest.
Proof.
  intros Hpre Hrest.
  change (Py.replace (String "%" body) new (pre ++ String "%" body ++ rest))
    with (Py.replace_from (String "%" body) new 0 (pre ++ String "%" body ++ rest)).
  induction pre as [|c pre IH].
  - cbn [append Py.replace_from].
    change (String "%" (body ++ rest)) with (String "%" body ++ rest).
    rewrite MatchFacts.startswith_append.
    cbn [String.length].
    replace (S (String.length body) - 1) with (String.length body) by lia.
    now rewrite replace_skip, replace_none.
  - cbn [Py.contains_char] in Hpre. apply orb_false_iff in Hpre as [Hc Hpre].
    specialize (IH Hpre). cbn [append] in IH.
    cbn [append Py.replace_from].
    rewrite startswith_percent by (now rewrite Ascii.eqb_sym).
    now rewrite IH.
Qed.

Lemma find_double_percent (s : string) :
  Py.contains_char "%" s = false -> Py.contains "%%" s = false.
Proof.
  unfold Py.contains. intros H.
  assert (E : Py.find "%%" s = None).
  { induction s as [|c s IH]; [reflexivity|].
    cbn [Py.contains_char] in H. apply orb_false_iff in H as [Hc H].
    cbn [Py.find]. rewrite startswith_percent by (now rewrite Ascii.eqb_sym).
    now rewrite IH. }
  now rewrite E.
Qed.

(** ** The specifier as text *)

Lemma specifier_form (w : nat) :
  exists digs, specifier w = String "%" (digs ++ "d")
               /\ Py.all_chars Py.is_digit digs = true.
Proof.
  destruct w as [|w].
  - now exists "".
  - exists (String "0" (Py.str_nat (S w))). split.
    + now rewrite specifier_shape by lia.
    + cbn [Py.all_chars]. rewrite (dec_digits (str_nat_decimal (S w))). reflexivity.
Qed.

Lemma digits_no_percent (s : string) :
  Py.all_chars Py.is_digit s = true -> Py.contains_char "%" s = false.
Proof.
  induction s as [|c s IH]; [reflexivity|].
  cbn [Py.all_chars Py.contains_char]. intros H.
  apply andb_true_iff in H as [Hc H]. rewrite (IH H), orb_false_r.
  apply Ascii.eqb_neq. intros <-. discriminate.
Qed.

Lemma fragment_no_percent (w : nat) :
  Py.contains_char "%" (re_fragment w true) = false.
Proof.
  unfold re_fragment. destruct (w =? 0)%nat; [reflexivity|].
  rewrite str_of_nat.
  change ("\d{" ++ Py.str_nat w ++ "}")
    with (String "\" (String "d" (String "{" (Py.str_nat w ++ "}")))).
  cbn [Py.contains_char]. rewrite contains_char_append.
  rewrite digits_no_percent by apply (dec_digits (str_nat_decimal w)).
  reflexivity.
Qed.

(** The regular expression of a pattern with one specifier. *)
Lemma regex_of_pattern (im : t) (pre post ex : string) (w : nat) :
  dfs_filename im = pre ++ specifier w ++ post ++ ex ->
  (0 <= start_num im)%Z ->
  Py.contains_char "%" pre = false ->
  Py.contains_char "%" (post ++ ex) = false ->
  get_regex_filename im
  = Ok ("^" ++ pre ++ "(" ++ re_fragment w true ++ ")" ++ post ++ ex ++ "$").
Proof.
  intros Hdfs Hstart Hpre Hpost.
  destruct (specifier_form w) as (digs & Hspec & Hdigs).
  unfold get_regex_filename, extract_digit_format_specifiers,
    has_digit_format_specifier.
  rewrite Hdfs, Hspec.
  rewrite (findall_one pre digs (post ++ ex)) by assumption.
  cbn [negb map].
  replace (start_num im <? 0)%Z with false by (symmetry; apply Z.ltb_ge; lia).
  rewrite <- Hspec, to_re_pattern_specifier. cbn [bind].
  rewrite Hspec, replace_one by assumption.
  rewrite find_double_percent.
  - now rewrite !append_assoc.
  - rewrite contains_char_append in Hpost.
    apply orb_false_iff in Hpost as [Hpost Hex].
    repeat (first [rewrite contains_char_append
                  | progress cbn [Py.contains_char append]]).
    rewrite Hpre, fragment_no_percent, Hpost, Hex. reflexivity.
Qed.

(** ** The shape of the parsed pattern *)

Lemma slice_prefix (pre rest : string) :
  Py.slice_z 0 (Z.of_nat (String.length pre) - 0) (pre ++ rest) = pre.
Proof.
  unfold Py.slice_z. rewrite Z.sub_0_r.
  change 0%Z with (Z.of_nat 0). rewrite !clamp_nonneg.
  unfold Py.slice. rewrite length_append.
  replace (Nat.min (String.length pre) (String.length pre + String.length rest)
           - Nat.min 0 (String.length pre + String.length rest))
    with (String.length pre) by lia.
  replace (Nat.min 0 (String.length pre + String.length rest)) with 0 by lia.
  cbn [Py.drop]. apply take_append.
Qed.

Lemma slice_suffix (pre part post : string) :
  Py.slice_z (Z.of_nat (String.length pre) - 0 + Z.of_nat (String.length part))
             (Z.of_nat (String.length (pre ++ part ++ post)))
             (pre ++ part ++ post)
  = post.
Proof.
  unfold Py.slice_z. rewrite Z.sub_0_r, <- Nat2Z.inj_add, !clamp_nonneg.
  unfold Py.slice. rewrite !length_append.
  rewrite Nat.min_id.
  replace (Nat.min (String.length pre + String.length part)
             (String.length pre + (String.length part + String.length post)))
    with (String.length (pre ++ part))
    by (rewrite length_append; lia).
  rewrite <- append_assoc, drop_append.
  apply take_all. rewrite length_append. lia.
Qed.

Lemma parse_pattern_shape (fs : Fs.t) (a : attrs) (dfs : string) (num : Z) :
  _parse_filename_pattern fs a true = Ok (dfs, num) ->
  String.concat "" (_get_body a) = root a ->
  exists pre part post,
    root a = pre ++ part ++ post
    /\ Py.isdigit part = true
    /\ dfs = pre ++ specifier (width_of part) ++ post ++ ext a
    /\ num = Z.of_nat (Py.digits_value 0 part).
Proof.
  unfold _parse_filename_pattern. rewrite predict_sequence_result.
  intros H Hroot.
  destruct (predict_from fs a false (sample_size (fcount a)) (_get_body a) 0 0)
    as [|i [|j more]] eqn:P; cbn [bind] in H.
  - discriminate.
  - assert (Hi : In i [i]) by now left.
    rewrite <- P in Hi. apply predict_from_spec in Hi.
    destruct Hi as (k & part & Hk & N & _ & D). cbn in Hk. subst k.
    cbn [parse_loop] in H. rewrite N, parse_specifier_digits in H by exact D.
    cbn [bind List.length Nat.ltb Nat.leb andb] in H.
    rewrite int_digits in H by exact D. cbn [bind] in H.
    injection H as Hdfs Hnum.
    apply nth_error_split in N. destruct N as (l1 & l2 & Hbody & Hlen).
    exists (String.concat "" l1), part, (String.concat "" l2).
    assert (Hcat : root a = String.concat "" l1 ++ part ++ String.concat "" l2).
    { rewrite <- Hroot, Hbody, concat_app, concat_cons. reflexivity. }
    split; [exact Hcat|]. split; [exact D|]. split; [|now rewrite Hnum].
    rewrite <- Hdfs.
    assert (Hfirst : firstn i (_get_body a) = l1).
    { rewrite Hbody, <- Hlen. rewrite firstn_app, Nat.sub_diag, firstn_all.
      cbn [firstn]. apply app_nil_r. }
    rewrite Hfirst, Hcat.
    rewrite slice_prefix, slice_suffix.
    now rewrite !append_assoc.
  - destruct (parse_loop (_get_body a) (i :: j :: more) (root a) None 0)
      as [[pr sq]|e]; cbn [bind] in H; discriminate.
Qed.

End PatternFacts.

(** * Listing the sequence files *)

Module ListingFacts.

Import Utils ImageSequence Notions Invariants PyFacts DecimalFacts.
Import ReFacts MatchFacts PatternFacts InitFacts.

(** ** The file system *)

Lemma path_eqb_eq (p q : Fs.path) : Fs.path_eqb p q = true <-> p = q.
Proof.
  revert q; induction p as [|a p IH]; intros [|b q]; cbn [Fs.path_eqb];
    try (split; [discriminate|congruence]); [tauto|].
  rewrite andb_true_iff, String.eqb_eq, IH. split.
  - intros [-> ->]. reflexivity.
  - intros H. injection H as -> ->. auto.
Qed.

Lemma path_eqb_refl (p : Fs.path) : Fs.path_eqb p p = true.
Proof. now apply path_eqb_eq. Qed.

Lemma lookup_listdir (fs : Fs.t) (d : Fs.path) (name : string) (k : Fs.kind) :
  Fs.lookup fs (Fs.join d name) = Some k -> In name (Fs.listdir fs d).
Proof.
  unfold Fs.join. induction fs as [|[q k'] fs IH]; cbn [Fs.lookup Fs.listdir];
    [discriminate|].
  destruct (Fs.path_eqb (d ++ [name])%list q) eqn:E.
  - apply path_eqb_eq in E. subst q. intros _.
    destruct (d ++ [name])%list eqn:A; [now destruct d|]. rewrite <- A.
    rewrite removelast_last, last_last, path_eqb_refl. now left.
  - intros H. specialize (IH H).
    destruct q as [|x q]; [exact IH|].
    destruct (Fs.path_eqb (removelast (x :: q)) d); [now right|exact IH].
Qed.

Lemma isfile_lookup (fs : Fs.t) (p : Fs.path) :
  Fs.isfile fs p = true -> Fs.lookup fs p = Some Fs.File.
Proof.
  unfold Fs.isfile. destruct (Fs.lookup fs p) as [[|]|]; congruence.
Qed.

Lemma is_file_isfile (fs : Fs.t) (p : Fs.path) (r : restriction) :
  is_file fs p r = true -> Fs.isfile fs p = true.
Proof.
  unfold is_file. destruct (Fs.exists_ fs p); cbn [negb]; [|discriminate].
  destruct (Fs.isfile fs p); [reflexivity|discriminate].
Qed.

Lemma split_join (p d : Fs.path) (name : string) :
  Fs.split p = (d, name) -> name <> "" -> p = Fs.join d name.
Proof.
  unfold Fs.split, Fs.join. intros H Hn. injection H as <- <-.
  destruct p as [|x p]; [now cbn in Hn|].
  apply app_removelast_last. discriminate.
Qed.

(** ** Sorting keeps the elements *)

Lemma In_insert_sorted {A : Type} (leb : A -> A -> bool) (x y : A) (l : list A) :
  In x (Py.insert_sorted leb y l) <-> x = y \/ In x l.
Proof.
  induction l as [|z l IH]; cbn [Py.insert_sorted].
  - cbn. intuition.
  - destruct (leb y z); cbn [In]; [intuition|]. rewrite IH. cbn. intuition.
Qed.

Lemma In_sort {A : Type} (leb : A -> A -> bool) (x : A) (l : list A) :
  In x (Py.sort leb l) <-> In x l.
Proof.
  induction l as [|y l IH]; cbn [Py.sort]; [tauto|].
  rewrite In_insert_sorted, IH. cbn. intuition.
Qed.

(** ** Collecting the matches *)

Lemma match_compiled (rx f : string) (r : Re.re) :
  Re.compile rx = Ok r -> Re.match_ rx f = Ok (Re.run f r 0 f [] final).
Proof. intros H. unfold Re.match_. now rewrite H. Qed.

Lemma collect_files_total (fs : Fs.t) (im : t) (rx : string)
  (pre post ex : string) (w : nat) (sort_files : bool) :
  Re.compile rx = Ok (Re.seq_of (pattern_items pre w post ex)) ->
  forall names,
  exists found,
    collect_files fs im rx sort_files names = Ok found
    /\ forall f, In f names ->
         Fs.isfile fs (Fs.join (basedir (self im)) f) = true ->
         (exists groups,
             Re.run f (Re.seq_of (pattern_items pre w post ex)) 0 f [] final
             = Some groups) ->
         In f (map snd found).
Proof.
  intros Hrx. induction names as [|f names (found & Hfound & Hin)].
  - exists []. split; [reflexivity|]. intros f [].
  - cbn [collect_files].
    destruct (Fs.isfile fs (Fs.join (basedir (self im)) f)) eqn:Hfile; cbn [negb].
    + rewrite (match_compiled rx f _ Hrx). cbn [bind].
      destruct (Re.run f (Re.seq_of (pattern_items pre w post ex)) 0 f [] final)
        as [groups|] eqn:Hrun.
      * assert (Hnum : exists num,
                   (if sort_files
                    then g <- Re.group 1 groups ;; Py.int g
                    else Ok 0%Z) = Ok num).
        { destruct sort_files; [|now exists 0%Z].
          destruct (pattern_group_digits _ _ _ _ _ _ Hrun) as (g & -> & Hg).
          unfold Re.group. cbn [Re.group_of Nat.eqb bind].
          rewrite int_digits by exact Hg. eauto. }
        destruct Hnum as (num & ->). cbn [bind]. rewrite Hfound. cbn [bind].
        exists ((num, f) :: found). split; [reflexivity|].
        intros f' [<-|Hf'] Hfile' Hmatch; cbn [map snd In]; [now left|].
        right. now apply Hin.
      * exists found. split; [exact Hfound|].
        intros f' [<-|Hf'] Hfile' Hmatch.
        -- destruct Hmatch as (groups & Hg). congruence.
        -- now apply Hin.
    + exists found. split; [exact Hfound|].
      intros f' [<-|Hf'] Hfile' Hmatch; [congruence|now apply Hin].
Qed.

(** ** The sample among the sequence files *)

(** A sequence was inferred from a directory that could be listed. *)
Lemma sequence_directory (fs : Fs.t) (path : Fs.path)
  (supp_formats : option (list string)) (im : t) :
  constructed fs path supp_formats im -> (0 <= start_num im)%Z ->
  Fs.isdir fs (basedir (self im)) = true.
Proof.
  intros C Hstart.
  destruct (con_cases C) as [[_ Him]|(Hcount & _)].
  { rewrite Him in Hstart. cbn in Hstart. lia. }
  rewrite (con_fcount C), (con_files C) in Hcount. unfold fetch_dir in Hcount.
  destruct (Fs.isdir fs (basedir (self im))); [reflexivity|].
  cbn in Hcount. lia.
Qed.

Lemma sequence_taken_apart (fs : Fs.t) (path : Fs.path)
  (supp_formats : option (list string)) (im : t) :
  constructed fs path supp_formats im -> (0 <= start_num im)%Z ->
  exists pre part post, taken_apart im pre part post.
Proof.
  intros C Hstart.
  destruct (con_cases C) as [[_ Him]|(_ & dfs & num & Hparse & _ & Him)].
  { rewrite Him in Hstart. cbn in Hstart. lia. }
  pose proof (con_digit C) as Hd.
  assert (Hroot : root (self im) <> "").
  { intros E. rewrite E in Hd. discriminate. }
  destruct (split_at_digit_total _ Hroot) as (d & Hd' & Hcat & _).
  rewrite Hd in Hd'. injection Hd' as <-.
  rewrite <- get_body_segments in Hcat.
  destruct (parse_pattern_shape _ _ _ _ Hparse Hcat) as (pre & part & post & R & D & P & _).
  pose proof (splitext_append _ _ _ (con_splitext C)) as Hname.
  pose proof (con_percent C) as Hpct.
  rewrite <- Hname, R in Hpct.
  rewrite !append_assoc in Hpct.
  rewrite !contains_char_append in Hpct.
  apply orb_false_iff in Hpct as [Hpre Hpct].
  apply orb_false_iff in Hpct as [_ Hpct].
  exists pre, part, post. constructor; try assumption.
  - rewrite <- Hname, R. now rewrite !append_assoc.
  - rewrite Him. cbn [dfs_filename]. exact P.
  - now rewrite contains_char_append.
Qed.

End ListingFacts.

(** * Renaming *)

Module RenameFacts.

Import Utils Notions Invariants ListingFacts.
Import InputOutput.

(** ** Looking up after an update *)

Lemma path_eqb_sym (p q : Fs.path) : Fs.path_eqb p q = Fs.path_eqb q p.
Proof.
  destruct (Fs.path_eqb p q) eqn:E.
  - apply path_eqb_eq in E. subst. symmetry. apply path_eqb_refl.
  - destruct (Fs.path_eqb q p) eqn:E'; [|reflexivity].
    apply path_eqb_eq in E'. subst. rewrite path_eqb_refl in E. discriminate.
Qed.

Lemma lookup_filter (g : Fs.path -> bool) (fs : Fs.t) (p : Fs.path) :
  Fs.lookup (filter (fun e => g (fst e)) fs) p
  = if g p then Fs.lookup fs p else None.
Proof.
  induction fs as [|[q k] fs IH]; cbn [filter Fs.lookup fst].
  - now destruct (g p).
  - destruct (g q) eqn:G; cbn [Fs.lookup];
      destruct (Fs.path_eqb p q) eqn:E;
      try (apply path_eqb_eq in E; subst q; rewrite G in *);
      try reflexivity; try exact IH.
Qed.


Lemma lookup_rmtree (fs : Fs.t) (d p : Fs.path) :
  Fs.lookup (Fs.rmtree fs d) p
  = if Fs.is_prefix d p then None else Fs.lookup fs p.
Proof.
  unfold Fs.rmtree. rewrite (lookup_filter (fun x => negb (Fs.is_prefix d x))).
  now destruct (Fs.is_prefix d p).
Qed.

Lemma is_prefix_refl (d : Fs.path) : Fs.is_prefix d d = true.
Proof. induction d; cbn; [reflexivity|]. now rewrite String.eqb_refl. Qed.


Lemma isdir_exists (fs : Fs.t) (d : Fs.path) :
  Fs.isdir fs d = true -> Fs.exists_ fs d = true.
Proof.
  unfold Fs.isdir, Fs.exists_. destruct d; [reflexivity|].
  now destruct (Fs.lookup fs _) as [[|]|].
Qed.

(** ** Commands that only read *)

Lemma compare_reads (d1 d2 : Fs.path) (strict : bool) (fs : Fs.t) :
  fst (compare d1 d2 strict fs) = fs.
Proof.
  unfold compare.
  repeat match goal with
         | |- context [if ?b then _ else _] => destruct b
         end; reflexivity.
Qed.


(** ** Successful runs of composed commands *)

Lemma cbind_ok {A B : Type} (m : cmd A) (k : A -> cmd B) (fs fs' : Fs.t) (b : B) :
  cbind m k fs = (fs', Ok b) ->
  exists a fs1, m fs = (fs1, Ok a) /\ k a fs1 = (fs', Ok b).
Proof.
  unfold cbind. destruct (m fs) as [fs1 [a|e]]; [eauto|discriminate].
Qed.

Lemma pure_ok {A : Type} (r : result A) (fs fs' : Fs.t) (a : A) :
  (fs, r) = (fs', Ok a) -> fs' = fs /\ r = Ok a.
Proof. intros H. injection H as <- ->. auto. Qed.

(** ** The staging loop *)

(** The count only grows, and when it did not grow nothing was touched. *)
Lemma stage_count (io : t) (sequence : ImageSequence.t) (tmp_dir : Fs.path)
  (idx : dfs_extract) (dfs_fname re_fname : string) (width : nat) :
  forall files count paths fs fs' count' paths',
    stage io sequence tmp_dir idx dfs_fname re_fname width files count paths fs
    = (fs', Ok (count', paths')) ->
    (count <= count')%Z /\ (count' = count -> fs' = fs /\ paths' = paths).
Proof.
  induction files as [|f files IH]; intros count paths fs fs' count' paths' H.
  - cbn in H. injection H as <- <- <-. split; [lia|auto].
  - cbn [stage] in H.
    apply cbind_ok in H as (is_source & fs1 & Hm & H).
    apply pure_ok in Hm as [-> _].
    destruct (negb is_source); [now apply IH in H|].
    apply cbind_ok in H as (m & fs1 & Hm & H).
    apply pure_ok in Hm as [-> _].
    destruct m as [groups|]; [|now apply IH in H].
    destruct (Py.splitext f) as [rt ex].
    apply cbind_ok in H as (start & fs1 & Hm & H).
    apply pure_ok in Hm as [-> _].
    apply cbind_ok in H as (stripped & fs1 & Hm & H).
    assert (fs1 = fs) as ->.
    { destruct (0 <=? start)%Z.
      - apply cbind_ok in Hm as (g & fs2 & Hg & Hm).
        apply pure_ok in Hg as [-> _]. now apply pure_ok in Hm as [-> _].
      - now apply pure_ok in Hm as [-> _]. }
    apply cbind_ok in H as (g & fs1 & Hg & H).
    apply pure_ok in Hg as [-> _].
    apply cbind_ok in H as (same & fs1 & Hsame & H).
    assert (fs1 = fs) as ->.
    { pose proof (compare_reads (input_dir io) (output_dir io) false fs) as Hc.
      rewrite Hsame in Hc. exact Hc. }
    apply cbind_ok in H as (u & fs2 & _ & H).
    apply IH in H. destruct H as [Hle Heq]. split; [lia|]. intros E. lia.
Qed.

End RenameFacts.

(** * Messages *)

Module MessageFacts.

Import Utils Notions PyFacts.




(** Once the one argument is taken by automatic numbering, every
    further field fails at the lookup of its argument. *)
Lemma parse_field_raises (field : string) :
  forall seen e, Py.parse_field seen field = Raise e -> e = ValueError.
Proof.
  induction field as [|c rest IH]; intros seen e; cbn [Py.parse_field];
    [discriminate|].
  destruct (Ascii.eqb c ":"); [discriminate|].
  destruct (Ascii.eqb c "!"); [|apply IH].
  destruct rest as [|conversion [|c' spec]]; try discriminate.
  - intros H. now injection H as <-.
  - destruct (Ascii.eqb c' ":"); [discriminate|]. intros H. now injection H as <-.
Qed.

Lemma get_integer_raises (digits : string) :
  forall acc e, Py.get_integer acc digits = Raise e -> e = ValueError.
Proof.
  induction digits as [|c rest IH]; intros acc e; cbn [Py.get_integer];
    [discriminate|].
  destruct (_ <? acc)%Z; [|apply IH]. intros H. now injection H as <-.
Qed.

Lemma format_field_taken (text arg : string) :
  exists e, Py.format_field (Py.NAuto 1) text [arg] = Raise e
            /\ (e = ValueError \/ e = IndexError \/ e = KeyError).
Proof.
  unfold Py.format_field.
  destruct (Py.parse_field "" text) as [[[name conversion] spec]|e] eqn:P;
    cbn [bind].
  - destruct (Py.field_name_split name) as [first others].
    unfold Py.field_index. destruct first as [|c first].
    + cbn. eauto.
    + destruct (Py.all_chars Py.is_digit (String c first)); [|cbn; eauto].
      destruct (Py.get_integer 0 (String c first)) as [index|e] eqn:G;
        cbn [bind]; [eauto|].
      apply get_integer_raises in G. subst e. eauto.
  - apply parse_field_raises in P. subst e. eauto.
Qed.

Lemma str_format_rest (arg : string) (s : string) :
  forall st, Py.str_format_from st (Py.NAuto 1) s [arg] <> Raise Unsupported.
Proof.
  induction s as [|c s IH]; intros st.
  - destruct st; cbn; discriminate.
  - assert (Hcopy : forall st' c',
               (r <- Py.str_format_from st' (Py.NAuto 1) s [arg] ;;
                Ok (String c' r)) <> Raise Unsupported).
    { intros st' c'. specialize (IH st').
      destruct (Py.str_format_from st' (Py.NAuto 1) s [arg]) as [r|e];
        cbn [bind]; congruence. }
    assert (Hfield : forall text,
               ('(piece, num) <- Py.format_field (Py.NAuto 1) text [arg] ;;
                r <- Py.str_format_from Py.MLit num s [arg] ;;
                Ok (piece ++ r)) <> Raise Unsupported).
    { intros text. destruct (format_field_taken text arg) as (e & -> & He).
      cbn [bind]. destruct He as [->|[->| ->]]; discriminate. }
    destruct st as [| | |depth text]; cbn [Py.str_format_from].
    + destruct (Ascii.eqb c "{"); [apply IH|].
      destruct (Ascii.eqb c "}"); [apply IH|apply Hcopy].
    + destruct (Ascii.eqb c "{"); [apply Hcopy|].
      destruct (Ascii.eqb c "}"); [apply Hfield|apply IH].
    + destruct (Ascii.eqb c "}"); [apply Hcopy|discriminate].
    + destruct (Ascii.eqb c "{"); [apply IH|].
      destruct (Ascii.eqb c "}"); [|apply IH].
      destruct depth; [apply Hfield|apply IH].
Qed.

(** So no message made of a text with one pair of braces and anything
    after it is outside the fragment of [str.format] given a meaning. *)
Lemma str_format_message (pre rest arg : string) :
  no_brace pre = true ->
  Py.str_format (pre ++ "{}" ++ rest) [arg] <> Raise Unsupported.
Proof.
  unfold Py.str_format, no_brace. intros Hpre.
  change ("{}" ++ rest) with (String "{" (String "}" rest)).
  induction pre as [|c pre IH].
  - cbn. pose proof (str_format_rest arg rest Py.MLit) as R.
    destruct (Py.str_format_from Py.MLit (Py.NAuto 1) rest [arg]);
      cbn [bind]; congruence.
  - cbn [Py.all_chars] in Hpre. apply andb_true_iff in Hpre as [Hc Hs].
    apply negb_true_iff, orb_false_iff in Hc as [Ho Hcl].
    cbn [append Py.str_format_from]. rewrite Ho, Hcl. specialize (IH Hs).
    destruct (Py.str_format_from Py.MLit Py.NInit _ [arg]); cbn [bind];
      congruence.
Qed.

(** The two components of what [is_file] returns agree, and the message
    holds braces only if the path does. *)
Lemma is_file_msg_none (fs : Fs.t) (p : Fs.path) (r : restriction) :
  is_file fs p r = true <-> is_file_msg fs p r = None.
Proof.
  unfold is_file, is_file_msg.
  destruct (Fs.exists_ fs p); cbn [negb]; [|split; discriminate].
  destruct (Fs.isfile fs p); cbn [negb]; [|split; discriminate].
  destruct (Fs.split p) as [d filename].
  destruct (Py.splitext filename) as [rt ex].
  destruct r as [|e|l]; [tauto| |];
    match goal with
    | |- context [if ?b then _ else _] => destruct b
    end; split; auto; discriminate.
Qed.


End MessageFacts.

(** * Removing *)

Module RemovalFacts.

Import Utils Notions ListingFacts RenameFacts.
Import InputOutput.

Lemma lookup_remove (fs : Fs.t) (p q : Fs.path) :
  Fs.lookup (Fs.remove fs p) q
  = if Fs.path_eqb q p then None else Fs.lookup fs q.
Proof.
  unfold Fs.remove.
  rewrite (lookup_filter (fun x => negb (Fs.path_eqb x p))).
  now destruct (Fs.path_eqb q p).
Qed.

Lemma is_prefix_eqb (p q : Fs.path) :
  Fs.is_prefix p q = false -> Fs.path_eqb q p = false.
Proof.
  intros H. destruct (Fs.path_eqb q p) eqn:E; [|reflexivity].
  apply path_eqb_eq in E. subst q. now rewrite is_prefix_refl in H.
Qed.

Lemma is_prefix_app (d p : Fs.path) :
  Fs.is_prefix d p = true <-> exists rest, p = (d ++ rest)%list.
Proof.
  revert p. induction d as [|a d IH]; intros p; cbn [Fs.is_prefix].
  - split; [intros _; now exists p|reflexivity].
  - destruct p as [|b p].
    + split; [discriminate|]. intros [rest H]. discriminate.
    + rewrite andb_true_iff, String.eqb_eq, IH. split.
      * intros [-> [rest ->]]. now exists rest.
      * intros [rest H]. cbn in H. injection H as -> ->. split; eauto.
Qed.

Lemma is_prefix_trans (d c q : Fs.path) :
  Fs.is_prefix d c = true -> Fs.is_prefix c q = true ->
  Fs.is_prefix d q = true.
Proof.
  rewrite !is_prefix_app. intros [r1 ->] [r2 ->].
  exists (r1 ++ r2)%list. now rewrite app_assoc.
Qed.

Lemma is_prefix_join (d : Fs.path) (name : string) :
  Fs.is_prefix d (Fs.join d name) = true.
Proof. apply is_prefix_app. now exists [name]. Qed.

Lemma join_longer (d : Fs.path) (name : string) :
  Fs.path_eqb d (Fs.join d name) = false.
Proof.
  destruct (Fs.path_eqb d (Fs.join d name)) eqn:E; [|reflexivity].
  apply path_eqb_eq in E. apply (f_equal (@List.length string)) in E.
  unfold Fs.join in E. rewrite List.length_app in E. cbn in E. lia.
Qed.

Lemma lookup_In (fs : Fs.t) (p : Fs.path) (k : Fs.kind) :
  Fs.lookup fs p = Some k -> In (p, k) fs.
Proof.
  induction fs as [|[q k'] fs IH]; cbn [Fs.lookup]; [discriminate|].
  destruct (Fs.path_eqb p q) eqn:E.
  - apply path_eqb_eq in E. subst q. intros H. injection H as ->. now left.
  - intros H. right. auto.
Qed.


(** ** Shedding entries *)

Lemma sheds_refl (d : Fs.path) (fs : Fs.t) : sheds d fs fs.
Proof.
  exists (fun _ => true). split; [|reflexivity].
  induction fs as [|e fs IH]; cbn; congruence.
Qed.

Lemma filter_filter {A : Type} (f g : A -> bool) (l : list A) :
  filter g (filter f l) = filter (fun x => f x && g x) l.
Proof.
  induction l as [|x l IH]; cbn [filter]; [reflexivity|].
  destruct (f x); cbn [filter andb]; [destruct (g x)|]; congruence.
Qed.

Lemma sheds_trans (d : Fs.path) (fs1 fs2 fs3 : Fs.t) :
  sheds d fs1 fs2 -> sheds d fs2 fs3 -> sheds d fs1 fs3.
Proof.
  intros (g1 & -> & H1) (g2 & -> & H2).
  exists (fun q => g1 q && g2 q). split.
  - apply filter_filter.
  - intros q Hq. now rewrite H1, H2.
Qed.

Lemma sheds_remove (d p : Fs.path) (fs : Fs.t) :
  Fs.is_prefix d p = true -> sheds d fs (Fs.remove fs p).
Proof.
  intros Hp. exists (fun q => negb (Fs.path_eqb q p)). split; [reflexivity|].
  intros q Hq. destruct (Fs.path_eqb q p) eqn:E; [|reflexivity].
  apply path_eqb_eq in E. congruence.
Qed.

Lemma sheds_deeper (d c : Fs.path) (fs fs' : Fs.t) :
  Fs.is_prefix d c = true -> sheds c fs fs' -> sheds d fs fs'.
Proof.
  intros Hc (g & -> & Hg). exists g. split; [reflexivity|].
  intros q Hq. apply Hg.
  destruct (Fs.is_prefix c q) eqn:E; [|reflexivity].
  now rewrite (is_prefix_trans _ _ _ Hc E) in Hq.
Qed.

Lemma sheds_lookup (d : Fs.path) (fs fs' : Fs.t) (q : Fs.path) :
  sheds d fs fs' ->
  (Fs.lookup fs' q = Fs.lookup fs q \/ Fs.lookup fs' q = None)
  /\ (Fs.is_prefix d q = false -> Fs.lookup fs' q = Fs.lookup fs q).
Proof.
  intros (g & -> & Hg). rewrite lookup_filter. split.
  - destruct (g q); auto.
  - intros Hq. now rewrite (Hg q Hq).
Qed.

Lemma sheds_In (d : Fs.path) (fs fs' : Fs.t) (e : Fs.path * Fs.kind) :
  sheds d fs fs' -> In e fs' -> In e fs.
Proof. intros (g & -> & _) H. now apply filter_In in H. Qed.

Lemma length_filter_le {A : Type} (f : A -> bool) (l : list A) :
  List.length (filter f l) <= List.length l.
Proof.
  induction l as [|x l IH]; cbn [filter List.length]; [lia|].
  destruct (f x); cbn [List.length]; lia.
Qed.

Lemma sheds_below (d x : Fs.path) (fs fs' : Fs.t) :
  sheds d fs fs' ->
  List.length (Fs.below fs' x) <= List.length (Fs.below fs x).
Proof.
  intros (g & -> & _). unfold Fs.below.
  induction fs as [|e fs IH]; cbn [filter]; [lia|].
  destruct (g (fst e)); cbn [filter];
    destruct (Fs.is_prefix x (fst e) && negb (Fs.path_eqb x (fst e)));
    cbn [List.length]; lia.
Qed.

Lemma filter_length_lt {A : Type} (f g : A -> bool) (l : list A) (x : A) :
  (forall y, f y = true -> g y = true) ->
  In x l -> g x = true -> f x = false ->
  List.length (filter f l) < List.length (filter g l).
Proof.
  intros Hfg. induction l as [|y l IH]; cbn [In filter]; [tauto|].
  assert (Hle : List.length (filter f l) <= List.length (filter g l)).
  { clear IH. induction l as [|z l IHl]; cbn [filter]; [lia|].
    destruct (f z) eqn:F.
    - rewrite (Hfg z F). cbn [List.length]. lia.
    - destruct (g z); cbn [List.length]; lia. }
  intros [->|Hin] Hg Hf.
  - rewrite Hg, Hf. cbn [List.length]. lia.
  - specialize (IH Hin Hg Hf). destruct (f y) eqn:F.
    + rewrite (Hfg y F). cbn [List.length]. lia.
    + destruct (g y); cbn [List.length]; lia.
Qed.

(** A subdirectory holds fewer entries than the directory it lies in. *)
Lemma below_child (fs : Fs.t) (d : Fs.path) (name : string) :
  Fs.isdir fs (Fs.join d name) = true ->
  List.length (Fs.below fs (Fs.join d name)) < List.length (Fs.below fs d).
Proof.
  intros Hdir. unfold Fs.isdir in Hdir.
  destruct (Fs.join d name) as [|x c] eqn:Ec.
  { unfold Fs.join in Ec. now destruct d. }
  rewrite <- Ec in *.
  destruct (Fs.lookup fs (Fs.join d name)) as [[|]|] eqn:L; try discriminate.
  apply lookup_In in L. unfold Fs.below.
  apply (filter_length_lt _ _ _ (Fs.join d name, Fs.Dir)); [|exact L| |].
  - intros [q k]. cbn [fst]. rewrite !andb_true_iff, !negb_true_iff.
    intros [Hp Hne]. split.
    + exact (is_prefix_trans _ _ _ (is_prefix_join d name) Hp).
    + destruct (Fs.path_eqb d q) eqn:E; [|reflexivity].
      apply path_eqb_eq in E. subst q.
      apply is_prefix_app in Hp as [rest Hp].
      apply (f_equal (@List.length string)) in Hp.
      unfold Fs.join in Hp. rewrite !List.length_app in Hp. cbn in Hp. lia.
  - cbn [fst]. now rewrite is_prefix_join, join_longer.
  - cbn [fst]. now rewrite path_eqb_refl, andb_false_r.
Qed.

(** ** The walk of [shutil.rmtree] *)

Section Walk.

Variable denied : Fs.path -> bool.

Lemma os_remove_sheds (p : Fs.path) (fs fs' : Fs.t) (r : result unit) :
  os_remove denied p fs = (fs', r) -> sheds p fs fs'.
Proof.
  unfold os_remove. destruct (_ && _); intros H; injection H as <- _.
  - apply sheds_remove, is_prefix_refl.
  - apply sheds_refl.
Qed.

Lemma os_rmdir_sheds (p : Fs.path) (fs fs' : Fs.t) (r : result unit) :
  os_rmdir denied p fs = (fs', r) -> sheds p fs fs'.
Proof.
  unfold os_rmdir. destruct (_ && _); intros H; injection H as <- _.
  - apply sheds_remove, is_prefix_refl.
  - apply sheds_refl.
Qed.

Lemma rmtree_names_sheds
  (walk : Fs.path -> Fs.t -> option (Fs.t * result unit)) (path : Fs.path) :
  (forall name fs fs' r, walk (Fs.join path name) fs = Some (fs', r) ->
                         sheds (Fs.join path name) fs fs') ->
  forall names fs fs' r,
    rmtree_names walk denied path names fs = Some (fs', r) ->
    sheds path fs fs'.
Proof.
  intros Hwalk. induction names as [|name names IH]; intros fs fs' r H.
  - cbn in H. injection H as <- _. apply sheds_refl.
  - cbn [rmtree_names] in H.
    assert (Hstep : forall fs1 r1,
               (if Fs.isdir fs (Fs.join path name)
                then walk (Fs.join path name) fs
                else Some (os_remove denied (Fs.join path name) fs))
               = Some (fs1, r1) -> sheds path fs fs1).
    { intros fs1 r1 E. apply (sheds_deeper _ _ _ _ (is_prefix_join path name)).
      destruct (Fs.isdir fs (Fs.join path name)).
      - now apply Hwalk in E.
      - injection E as E. now apply os_remove_sheds in E. }
    destruct (if Fs.isdir fs (Fs.join path name) then _ else _)
      as [[fs1 [[]|e]]|]; [| |discriminate].
    + apply (sheds_trans _ _ fs1); [now apply (Hstep fs1 (Ok tt))|].
      now apply IH in H.
    + injection H as <- _. now apply (Hstep fs1 (Raise e)).
Qed.

Lemma rmtree_walk_sheds (depth : nat) :
  forall path fs fs' r,
    rmtree_walk depth denied path fs = Some (fs', r) -> sheds path fs fs'.
Proof.
  induction depth as [|depth IH]; intros path fs fs' r H; [discriminate|].
  cbn [rmtree_walk] in H.
  destruct (Fs.os_listdir fs path) as [names|e].
  - destruct (rmtree_names _ denied path names fs) as [[fs1 [[]|e]]|] eqn:N;
      [| |discriminate].
    + apply rmtree_names_sheds in N; [|intros; eapply IH; eassumption].
      injection H as H. apply os_rmdir_sheds in H.
      now apply (sheds_trans _ _ fs1).
    + apply rmtree_names_sheds in N; [|intros; eapply IH; eassumption].
      now injection H as <- _.
  - injection H as <- _. apply sheds_refl.
Qed.

(** The walk raises nothing but [OSError]. *)
Lemma rmtree_names_raises
  (walk : Fs.path -> Fs.t -> option (Fs.t * result unit)) (path : Fs.path) :
  (forall p fs fs' e, walk p fs = Some (fs', Raise e) -> e = OSError) ->
  forall names fs fs' e,
    rmtree_names walk denied path names fs = Some (fs', Raise e) ->
    e = OSError.
Proof.
  intros Hwalk. induction names as [|name names IH]; intros fs fs' e H;
    [discriminate|].
  cbn [rmtree_names] in H.
  destruct (Fs.isdir fs (Fs.join path name)).
  - destruct (walk (Fs.join path name) fs) as [[fs1 [[]|e1]]|] eqn:W;
      [now apply IH in H| |discriminate].
    injection H as _ <-. now apply Hwalk in W.
  - unfold os_remove in H. destruct (_ && _).
    + now apply IH in H.
    + now injection H as _ <-.
Qed.

Lemma rmtree_walk_raises (depth : nat) :
  forall path fs fs' e,
    rmtree_walk depth denied path fs = Some (fs', Raise e) -> e = OSError.
Proof.
  induction depth as [|depth IH]; intros path fs fs' e H; [discriminate|].
  cbn [rmtree_walk] in H. unfold Fs.os_listdir in H.
  destruct (Fs.isdir fs path); [|now injection H as _ <-].
  destruct (rmtree_names _ denied path _ fs) as [[fs1 [[]|e1]]|] eqn:N;
    [| |discriminate].
  - injection H as H. unfold os_rmdir in H.
    destruct (_ && _); [discriminate|]. now injection H as _ <-.
  - injection H as _ <-. now apply rmtree_names_raises in N.
Qed.

(** A walk that may nest deeper than the directory holds entries is not
    cut short. *)
Lemma rmtree_names_deep_enough
  (walk : Fs.path -> Fs.t -> option (Fs.t * result unit)) (path : Fs.path)
  (depth : nat) :
  (forall name fs fs' r, walk (Fs.join path name) fs = Some (fs', r) ->
                         sheds (Fs.join path name) fs fs') ->
  (forall name fs, List.length (Fs.below fs (Fs.join path name)) < depth ->
                   walk (Fs.join path name) fs <> None) ->
  forall names fs,
    List.length (Fs.below fs path) <= depth ->
    rmtree_names walk denied path names fs <> None.
Proof.
  intros Hsheds Hdeep. induction names as [|name names IH]; intros fs Hlen;
    [discriminate|].
  cbn [rmtree_names].
  destruct (Fs.isdir fs (Fs.join path name)) eqn:Hdir.
  - pose proof (below_child fs path name Hdir) as Hlt.
    destruct (walk (Fs.join path name) fs) as [[fs1 [[]|e]]|] eqn:W.
    + apply IH. apply Hsheds in W.
      pose proof (sheds_below _ path _ _ W). lia.
    + discriminate.
    + exfalso. apply (Hdeep name fs); [lia|exact W].
  - destruct (os_remove denied (Fs.join path name) fs) as [fs1 [[]|e]] eqn:R.
    + apply IH. apply os_remove_sheds in R.
      pose proof (sheds_below _ path _ _ R). lia.
    + discriminate.
Qed.

Lemma rmtree_walk_deep_enough (depth : nat) :
  forall path fs,
    List.length (Fs.below fs path) < depth ->
    rmtree_walk depth denied path fs <> None.
Proof.
  induction depth as [|depth IH]; intros path fs Hlen; [lia|].
  cbn [rmtree_walk].
  destruct (Fs.os_listdir fs path) as [names|e]; [|discriminate].
  pose proof (rmtree_names_deep_enough (rmtree_walk depth denied) path depth) as N.
  destruct (rmtree_names _ denied path names fs) as [[fs1 [[]|e]]|] eqn:E;
    try discriminate.
  exfalso. apply (N (fun name => rmtree_walk_sheds depth (Fs.join path name))
                    (fun name => IH (Fs.join path name)) names fs);
    [lia|exact E].
Qed.

Lemma shutil_rmtree_walk (path : Fs.path) (fs : Fs.t) :
  exists r, rmtree_walk (S (List.length fs)) denied path fs = Some r
            /\ shutil_rmtree denied path fs = r.
Proof.
  unfold shutil_rmtree.
  destruct (rmtree_walk _ denied path fs) as [r|] eqn:W; [eauto|].
  exfalso. apply (rmtree_walk_deep_enough (S (List.length fs)) path fs);
    [|exact W].
  unfold Fs.below. pose proof (length_filter_le
    (fun e => Fs.is_prefix path (fst e) && negb (Fs.path_eqb path (fst e))) fs).
  lia.
Qed.

(** A walk that succeeds ends with the removal of the directory. *)
Lemma rmtree_walk_removes (depth : nat) (path : Fs.path) (fs fs' : Fs.t) :
  rmtree_walk depth denied path fs = Some (fs', Ok tt) ->
  Fs.lookup fs' path = None.
Proof.
  destruct depth as [|depth]; [discriminate|]. cbn [rmtree_walk].
  destruct (Fs.os_listdir fs path) as [names|e]; [|discriminate].
  destruct (rmtree_names _ denied path names fs) as [[fs1 [[]|e]]|];
    try discriminate.
  unfold os_rmdir. destruct (_ && _); [|discriminate].
  intros H. injection H as <-. now rewrite lookup_remove, path_eqb_refl.
Qed.

(** ** [utils.delete] *)

(** What [delete] returns: it succeeds, or raises [OSError] for a path
    that does not exist and [TypeError] for a removal that failed. *)
Lemma delete_outcomes (p : Fs.path) (fs fs' : Fs.t) (r : result unit) :
  delete denied p fs = (fs', r) ->
  sheds p fs fs'
  /\ (r = Ok tt
      \/ (r = Raise OSError /\ Fs.exists_ fs p = false /\ fs' = fs)
      \/ (r = Raise TypeError /\ Fs.exists_ fs p = true)).
Proof.
  unfold delete. destruct (Fs.exists_ fs p) eqn:Hex; cbn [negb].
  2:{ intros H. injection H as <- <-. split; [apply sheds_refl|auto]. }
  destruct (Fs.isfile fs p).
  - destruct (os_remove denied p fs) as [fs1 r1] eqn:R.
    pose proof (os_remove_sheds _ _ _ _ R) as Hs.
    unfold os_remove in R. destruct (_ && _); injection R as <- <-;
      cbn [except_OSError_raise_str]; intros H; injection H as <- <-; auto.
  - destruct (Fs.isdir fs p).
    + destruct (shutil_rmtree_walk p fs) as ([fs1 r1] & W & ->).
      pose proof (rmtree_walk_sheds _ _ _ _ _ W) as Hs.
      destruct r1 as [[]|e].
      * cbn. intros H. injection H as <- <-. auto.
      * apply rmtree_walk_raises in W. subst e. cbn.
        intros H. injection H as <- <-. auto.
    + intros H. injection H as <- <-. split; [apply sheds_refl|auto].
Qed.

Lemma delete_exists (p : Fs.path) (fs fs' : Fs.t) :
  Fs.exists_ fs p = true ->
  delete denied p fs = (fs', Ok tt) -> Fs.lookup fs' p = None.
Proof.
  unfold delete. intros Hex. rewrite Hex. cbn [negb].
  destruct (Fs.isfile fs p) eqn:Hf.
  - unfold os_remove. rewrite Hf. destruct (denied p); cbn; [discriminate|].
    intros H. injection H as <-. now rewrite lookup_remove, path_eqb_refl.
  - destruct (Fs.isdir fs p) eqn:Hd.
    + destruct (shutil_rmtree_walk p fs) as ([fs1 r1] & W & ->).
      destruct r1 as [[]|e].
      * cbn. intros H. injection H as <-. now apply rmtree_walk_removes in W.
      * apply rmtree_walk_raises in W. subst e. cbn. discriminate.
    + unfold Fs.exists_, Fs.isfile, Fs.isdir in *.
      destruct p; [discriminate|].
      destruct (Fs.lookup fs _) as [[|]|]; discriminate.
Qed.


End Walk.

End RemovalFacts.

(** * The claims *)

Import Utils ImageSequence Notions Invariants.
Import PyFacts SplitFacts DecimalFacts SpecifierFacts ScoringFacts StartFacts.
Import InitFacts ReFacts MatchFacts PatternFacts ListingFacts RenameFacts.

(** ** Filename decomposer *)

(** C7. For every non-empty root [R], [split_at_digit] returns segments
    (head, midsection parts, tail) whose concatenation is [R]; the
    segments are non-empty runs of digits or of non-digits whose classes
    alternate, so no two adjacent segments are of the same class; a root
    of length 1 yields the single segment [R]. *)
Theorem decompose_lossless_minimal (R : string) :
  R <> "" ->
  exists d,
    split_at_digit R false = Ok d
    /\ String.concat "" (segments d) = R
    /\ (exists b, alternating b (segments d) = true)
    /\ (String.length R = 1 -> segments d = [R]).
Proof.
  intros H. destruct (split_at_digit_total R H) as (d & Hd & Hcat & Halt & Hone).
  exists d. repeat split; try assumption. eauto.
Qed.

Lemma decompose_lossless_minimal_witness :
  exists d,
    split_at_digit "20200504_my-file_0075" false = Ok d
    /\ String.concat "" (segments d) = "20200504_my-file_0075"
    /\ (exists b, alternating b (segments d) = true)
    /\ (String.length "20200504_my-file_0075" = 1
        -> segments d = ["20200504_my-file_0075"]).
Proof. apply (decompose_lossless_minimal "20200504_my-file_0075"). discriminate. Defined.



(** C6. On the specifier of width [w], [to_re_pattern] returns [\d+]
    when [w = 0] (strict or not), the exact repetition of [w] digits
    when strict and the repetition of one to [w] digits when not strict:
    so far the claim holds.  Its guard, however, is a search for a
    specifier anywhere in the string, so [AttributeError] is raised
    exactly when the string contains none.  ["x%dx"] is no specifier
    (neither ['%d'] nor ['%0<n>d'], for which the documentation of
    [to_re_pattern] promises [AttributeError]), and a pattern is
    returned for it; ["ab%03d"] is none either and raises [ValueError]. *)
Theorem to_re_pattern_guard_is_a_search (w : nat) (strict : bool) :
  to_re_pattern (specifier w) strict = Ok (re_fragment w strict)
  /\ (forall spec, to_re_pattern spec strict = Raise AttributeError
                   <-> has_digit_format_specifier spec = false)
  /\ is_specifier "x%dx" = false
  /\ to_re_pattern "x%dx" true = Ok "\d{1}"
  /\ is_specifier "ab%03d" = false
  /\ to_re_pattern "ab%03d" true = Raise ValueError.
Proof.
  split; [apply to_re_pattern_specifier|].
  split; [intros spec; apply to_re_pattern_rejects|].
  repeat split; reflexivity.
Qed.

(** ** Gaps *)

(** C1, the code at the input that shows the defect: with the files
    [frame_1.png] and [frame_3.png] the sequence starts at 1 and
    [detect_gaps] checks the numbers from 1 to the file count 2
    exclusive, so it reports no gap, while the numbers 1 and 2 the
    documentation describes miss [frame_2.png]. *)
Theorem detect_gaps_stops_at_file_count :
  exists im,
    __init__ Examples.gapped ["seq"; "frame_1.png"] None = Ok im
    /\ start_num im = 1%Z
    /\ files (self im) = ["frame_1.png"; "frame_3.png"]
    /\ detect_gaps im = Ok None
    /\ detect_gaps_documented im = Ok (Some ["frame_2.png"]).
Proof.
  eexists. split; [vm_compute; reflexivity|].
  repeat split; vm_compute; reflexivity.
Qed.

(** The two agree for a sequence that starts at zero, and for a single
    file. *)
Lemma detect_gaps_from_zero (im : t) :
  (start_num im <= 0)%Z -> detect_gaps im = detect_gaps_documented im.
Proof.
  intros H. unfold detect_gaps, detect_gaps_documented.
  destruct (start_num im <? 0)%Z eqn:E; [reflexivity|].
  apply Z.ltb_ge in E. replace (start_num im) with 0%Z by lia.
  reflexivity.
Qed.

(** ** Candidate scoring *)


(** The scoring reads the attributes only for the directory, the
    extension, the name of the sample and the files. *)
Lemma predict_from_first_files (fs : Fs.t) (a : attrs) (n mc : nat) :
  forall parts i si,
    predict_from fs a false n parts i si
    = predict_from fs (first_files n a) true mc parts i si.
Proof.
  induction parts as [|part rest IH]; intros i si; [reflexivity|].
  cbn [predict_from]. rewrite IH.
  rewrite total_distance_sampled, total_distance_full, Nat.sub_0_r.
  reflexivity.
Qed.

(** C8. A scan that is not strict predicts what a full scan of only the
    first [N] files of the directory predicts, where [N] is ten to the
    power of the number of digits of the file count less one (the count
    rounded down to a power of ten) when that power exceeds ten, and the
    file count otherwise; in the latter case the scan is the full scan
    of all files. *)
Theorem scoring_samples_a_power_of_ten (fs : Fs.t) (a : attrs)
  (body : list string) :
  let p := 10 ^ (String.length (Py.str (Z.of_nat (fcount a))) - 1) in
  _predict_sequence fs a body false
  = _predict_sequence fs (first_files (if (10 <? p)%nat then p else fcount a) a)
      body true
  /\ (1 <= fcount a -> p <= fcount a < 10 * p)
  /\ (fcount a = List.length (files a) -> p <= 10 ->
      _predict_sequence fs a body false = _predict_sequence fs a body true).
Proof.
  cbv zeta. split; [|split].
  - rewrite !predict_sequence_result.
    fold (sample_size (fcount a)).
    now rewrite (predict_from_first_files fs a (sample_size (fcount a))
                   (sample_size (fcount (first_files (sample_size (fcount a)) a)))).
  - intros H. destruct (sample_size_bounds _ H) as [Hlo Hhi].
    split; [exact Hlo|].
    rewrite str_of_nat in *.
    pose proof (dec_length (str_nat_decimal (fcount a))) as L.
    replace (String.length (Py.str_nat (fcount a)))
      with (S (String.length (Py.str_nat (fcount a)) - 1)) in Hhi by lia.
    now rewrite Nat.pow_succ_r' in Hhi.
  - intros Hlen Hp. rewrite !predict_sequence_result.
    assert (E : forall parts i si,
               predict_from fs a false (sample_size (fcount a)) parts i si
               = predict_from fs a true (sample_size (fcount a)) parts i si).
    { induction parts as [|part rest IH]; intros i si; [reflexivity|].
      cbn [predict_from]. rewrite IH.
      rewrite total_distance_sampled, total_distance_full, Nat.sub_0_r.
      unfold sample_size.
      replace (10 <? _)%nat with false by (symmetry; apply Nat.ltb_ge; exact Hp).
      now rewrite Hlen, firstn_all. }
    now rewrite E.
Qed.

(** In the directory of 102 images the bound is 100: the scan that is
    not strict compares with the first hundred files, none of which
    differs from the sample at its number, and predicts nothing; the
    full scan reaches [a8.png] and predicts the number. *)
Lemma scoring_samples_a_power_of_ten_witness :
  (_predict_sequence Examples.crowded Examples.crowded_attrs ["a"; "7"] false
   = _predict_sequence Examples.crowded
       (first_files 100 Examples.crowded_attrs) ["a"; "7"] true
   /\ 100 <= 102 < 10 * 100)
  /\ _predict_sequence Examples.crowded Examples.crowded_attrs ["a"; "7"] false
     = Raise RuntimeError
  /\ _predict_sequence Examples.crowded Examples.crowded_attrs ["a"; "7"] true
     = Ok [1]
  /\ __init__ Examples.crowded ["seq"; "a7.png"] None = Raise RuntimeError.
Proof.
  split.
  - pose proof (scoring_samples_a_power_of_ten Examples.crowded
                  Examples.crowded_attrs ["a"; "7"]) as (H1 & H2 & _).
    split; [exact H1|]. apply H2. cbn. lia.
  - repeat split; vm_compute; reflexivity.
Defined.

(** C2. A body component is predicted (is a sequence candidate) exactly
    when its accumulated dissimilarity against the sampled files is
    greater than zero and it consists of digits.  [_predict_sequence]
    raises [RuntimeError] when nothing is predicted and returns the
    candidates otherwise (they are never more than the components).
    [_parse_filename_pattern] then raises in strict mode when more than
    one candidate is found, and does not raise for one candidate, nor in
    non-strict mode for several. *)
Theorem sequence_candidates (fs : Fs.t) (a : attrs) (strict_scan : bool) :
  let body := _get_body a in
  let candidates (strict : bool) :=
    predict_from fs a strict (sample_size (fcount a)) body 0 0 in
  (forall i,
      In i (candidates strict_scan)
      <-> exists part,
            nth_error body i = Some part
            /\ 0 < dissimilarity fs a (offset body i) part (sampled a strict_scan)
            /\ Py.isdigit part = true)
  /\ List.length (candidates strict_scan) <= List.length body
  /\ (_predict_sequence fs a body strict_scan
      = match candidates strict_scan with
        | [] => Raise RuntimeError
        | predicted => Ok predicted
        end)
  /\ (candidates false = [] ->
      forall strict, _parse_filename_pattern fs a strict = Raise RuntimeError)
  /\ (1 < List.length (candidates false) ->
      _parse_filename_pattern fs a true = Raise RuntimeError)
  /\ (List.length (candidates false) = 1 ->
      exists r, _parse_filename_pattern fs a true = Ok r)
  /\ (1 <= List.length (candidates false) ->
      exists r, _parse_filename_pattern fs a false = Ok r).
Proof.
  cbv zeta.
  assert (Hmem : forall strict i,
             In i (predict_from fs a strict (sample_size (fcount a)) (_get_body a) 0 0)
             <-> exists part,
                   nth_error (_get_body a) i = Some part
                   /\ 0 < dissimilarity fs a (offset (_get_body a) i) part
                            (sampled a strict)
                   /\ Py.isdigit part = true).
  { intros strict i. rewrite predict_from_spec. unfold offset, sampled.
    split.
    - intros (k & part & Hk & N & T & D). cbn in Hk. subst k.
      exists part. repeat split; try assumption.
      destruct strict.
      + now rewrite total_distance_full in T.
      + now rewrite total_distance_sampled, Nat.sub_0_r in T.
    - intros (part & N & T & D). exists i, part.
      repeat split; try assumption.
      destruct strict.
      + now rewrite total_distance_full.
      + now rewrite total_distance_sampled, Nat.sub_0_r. }
  assert (Hloop : forall bsi,
             bsi = predict_from fs a false (sample_size (fcount a)) (_get_body a) 0 0 ->
             bsi <> [] ->
             exists parsed_root part,
               parse_loop (_get_body a) bsi (root a) None 0
               = Ok (parsed_root, Some part)
               /\ Py.isdigit part = true).
  { intros bsi Hbsi Hne.
    destruct (parse_loop_total (_get_body a) bsi (root a) None 0)
      as (pr & sq & Hrun & Hseq).
    - intros i Hi. rewrite Hbsi in Hi. apply Hmem in Hi.
      destruct Hi as (part & N & _ & D). eauto.
    - destruct (Hseq Hne) as (part & -> & D). eauto. }
  split; [apply Hmem|]. split; [apply predict_from_length|].
  split; [apply predict_sequence_result|].
  split; [|split; [|split]].
  - intros E strict. unfold _parse_filename_pattern.
    now rewrite predict_sequence_result, E.
  - intros L. unfold _parse_filename_pattern. rewrite predict_sequence_result.
    destruct (predict_from fs a false _ _ 0 0) as [|i [|j more]] eqn:P;
      cbn in L; try lia.
    cbn [bind].
    destruct (Hloop (i :: j :: more) eq_refl) as (pr & part & -> & D);
      [discriminate|].
    reflexivity.
  - intros L. unfold _parse_filename_pattern. rewrite predict_sequence_result.
    destruct (predict_from fs a false _ _ 0 0) as [|i [|j more]] eqn:P;
      cbn in L; try lia.
    cbn [bind].
    destruct (Hloop [i] eq_refl) as (pr & part & -> & D); [discriminate|].
    cbn [bind List.length Nat.ltb Nat.leb andb].
    rewrite int_digits by exact D. cbn [bind]. eauto.
  - intros L. unfold _parse_filename_pattern. rewrite predict_sequence_result.
    destruct (predict_from fs a false _ _ 0 0) as [|i more] eqn:P;
      cbn in L; try lia.
    cbn [bind].
    destruct (Hloop (i :: more) eq_refl) as (pr & part & -> & D); [discriminate|].
    cbn [bind]. rewrite andb_false_r.
    rewrite int_digits by exact D. cbn [bind]. eauto.
Qed.

Lemma sequence_candidates_witness :
  exists r, _parse_filename_pattern Examples.three_frames Examples.sample_attrs true
            = Ok r.
Proof.
  pose proof (sequence_candidates Examples.three_frames Examples.sample_attrs false)
    as (_ & _ & _ & _ & _ & H & _).
  apply H. vm_compute. reflexivity.
Defined.

(** ** Construction and start number *)


Lemma body_of_constructed (fs : Fs.t) (path : Fs.path)
  (supp_formats : option (list string)) (im : t) :
  constructed fs path supp_formats im ->
  String.concat "" (_get_body (self im)) = root (self im).
Proof.
  intros C. pose proof (con_digit C) as Hd.
  assert (Hroot : root (self im) <> "").
  { intros E. rewrite E in Hd. discriminate. }
  destruct (split_at_digit_total _ Hroot) as (d & Hd' & Hcat & _).
  rewrite Hd in Hd'. injection Hd' as <-.
  now rewrite get_body_segments.
Qed.

(** C3. For a descriptor built from a directory with at least two files
    of the extension, the start number is the smallest [i] in
    [0 .. sample - 1] for which the pattern rendered with [i] names a
    file on disk, and the sample number when there is none. *)
Theorem start_number_is_smallest_on_disk (fs : Fs.t) (path : Fs.path)
  (supp_formats : option (list string)) (im : t) :
  __init__ fs path supp_formats = Ok im ->
  2 <= fcount (self im) ->
  exists dfs sample,
    _parse_filename_pattern fs (self im) true = Ok (dfs, sample)
    /\ dfs_filename im = dfs
    /\ (0 <= sample)%Z
    /\ is_first_number fs (basedir (self im)) dfs sample (start_num im).
Proof.
  intros Hinit Hcount. apply init_inversion in Hinit.
  destruct (con_cases Hinit) as [[Hlt _]|(_ & dfs & num & Hparse & Hstart & Him)];
    [lia|].
  exists dfs, num. split; [exact Hparse|]. split; [now rewrite Him|].
  split.
  - destruct (parse_pattern_shape _ _ _ _ Hparse (body_of_constructed _ _ _ _ Hinit))
      as (_ & part & _ & _ & _ & _ & ->). lia.
  - apply get_start_number_first in Hstart. exact Hstart.
Qed.

Lemma start_number_is_smallest_on_disk_witness :
  exists im,
    __init__ Examples.gap_below ["seq"; "img_003.jpg"] (Some ["JPG"]) = Ok im
    /\ start_num im = 0%Z
    /\ exists dfs sample,
         _parse_filename_pattern Examples.gap_below (self im) true = Ok (dfs, sample)
         /\ dfs_filename im = dfs
         /\ (0 <= sample)%Z
         /\ is_first_number Examples.gap_below (basedir (self im)) dfs sample
              (start_num im).
Proof.
  eexists. split; [vm_compute; reflexivity|].
  split; [reflexivity|].
  apply (start_number_is_smallest_on_disk Examples.gap_below
           ["seq"; "img_003.jpg"] (Some ["JPG"])).
  - vm_compute. reflexivity.
  - cbn. lia.
Defined.

(** C4. When fewer than two files of the sample's extension are in the
    directory, construction succeeds with start number [-1], the file
    name itself as pattern (it holds no specifier) and one diagnostic
    message; nothing else is inferred: there are no gaps and the regular
    expression is the file name. *)
Theorem single_file_is_not_a_sequence (fs : Fs.t) (path : Fs.path)
  (supp_formats : option (list string)) :
  let basedir := fst (Fs.split path) in
  let filename := snd (Fs.split path) in
  let ext := snd (Py.splitext filename) in
  is_file fs path (restriction_of supp_formats) = true ->
  filename <> "" ->
  Py.contains_char "%" filename = false ->
  List.length (fetch_dir fs basedir (RStr (norm_ext ext)) true) < 2 ->
  exists im,
    __init__ fs path supp_formats = Ok im
    /\ start_num im = (-1)%Z
    /\ dfs_filename im = filename
    /\ messages im = [single_message filename]
    /\ has_digit_format_specifier (dfs_filename im) = false
    /\ detect_gaps im = Ok None
    /\ get_regex_filename im = Ok filename.
Proof.
  cbv zeta. intros Hfile Hname Hpct Hcount.
  unfold __init__. fold (restriction_of supp_formats). rewrite Hfile. cbn [negb].
  destruct (Fs.split path) as [bd fname] eqn:Hsplit. cbn [fst snd] in *.
  rewrite Hpct.
  destruct (Py.splitext fname) as [rt ex] eqn:Hext. cbn [snd] in *.
  destruct (split_at_digit_total rt (splitext_root _ _ _ Hext Hname))
    as (d & -> & _).
  cbn [bind fcount].
  replace (List.length (fetch_dir fs bd (RStr (norm_ext ex)) true) <? 2)%nat
    with true by (symmetry; apply Nat.ltb_lt; exact Hcount).
  assert (Hnone : has_digit_format_specifier fname = false).
  { unfold has_digit_format_specifier, findall_dfs.
    now rewrite findall_nothing. }
  eexists. split; [reflexivity|]. cbn [start_num dfs_filename messages].
  repeat split; try assumption.
  unfold get_regex_filename, extract_digit_format_specifiers. cbn [dfs_filename].
  now rewrite Hnone.
Qed.

Lemma single_file_is_not_a_sequence_witness :
  exists im,
    __init__ Examples.lonely ["seq"; "single.png"] None = Ok im
    /\ start_num im = (-1)%Z
    /\ dfs_filename im = "single.png"
    /\ messages im = [single_message "single.png"]
    /\ has_digit_format_specifier (dfs_filename im) = false
    /\ detect_gaps im = Ok None
    /\ get_regex_filename im = Ok "single.png".
Proof.
  apply (single_file_is_not_a_sequence Examples.lonely ["seq"; "single.png"] None).
  - reflexivity.
  - discriminate.
  - reflexivity.
  - vm_compute. lia.
Defined.

(** ** The regular expression of a sequence *)

(** C10 (as amended). For a descriptor of a sequence whose root and
    extension (its dot apart) hold no metacharacter, the regular
    expression of [get_regex_filename] matches the sample's own name,
    and [get_sequence_files] returns a list that holds it. *)
Theorem sample_matches_its_pattern (fs : Fs.t) (path : Fs.path)
  (supp_formats : option (list string)) (im : t) :
  __init__ fs path supp_formats = Ok im ->
  (0 <= start_num im)%Z ->
  no_meta (root (self im)) = true ->
  plain_ext (ext (self im)) = true ->
  exists rx groups,
    get_regex_filename im = Ok rx
    /\ Re.match_ rx (filename (self im)) = Ok (Some groups)
    /\ forall sort_files,
       exists found,
         get_sequence_files fs im sort_files = Ok found
         /\ In (filename (self im)) found.
Proof.
  intros Hinit Hstart Hmeta Hext. apply init_inversion in Hinit.
  destruct (sequence_taken_apart _ _ _ _ Hinit Hstart) as (pre & part & post & T).
  pose proof (ta_root T) as Hroot. rewrite Hroot in Hmeta.
  rewrite !no_meta_append in Hmeta.
  apply andb_true_iff in Hmeta as [Hpre Hmeta].
  apply andb_true_iff in Hmeta as [_ Hpost].
  pose proof (regex_of_pattern im pre post (ext (self im)) (width_of part)
                (ta_pattern T) Hstart (ta_percent_pre T) (ta_percent_post T)) as Hrx.
  pose proof (compile_pattern pre post (ext (self im)) (width_of part)
                Hpre Hpost Hext) as Hcompile.
  destruct (pattern_matches_sample pre part post (ext (self im))
              (ta_digits T) Hext) as (groups & Hrun).
  rewrite <- (ta_name T) in Hrun.
  eexists. exists groups. split; [exact Hrx|]. split.
  - rewrite (match_compiled _ _ _ Hcompile). now rewrite Hrun.
  - intros sort_files. unfold get_sequence_files, Fs.os_listdir.
    rewrite Hrx, (sequence_directory _ _ _ _ Hinit Hstart). cbn [bind].
    destruct (collect_files_total fs im _ pre post (ext (self im)) (width_of part)
                sort_files Hcompile (Fs.listdir fs (basedir (self im))))
      as (found & -> & Hin).
    cbn [bind].
    assert (Hname : filename (self im) <> "").
    { rewrite (ta_name T). pose proof (ta_digits T) as D.
      destruct pre; [|discriminate]. destruct part; discriminate. }
    assert (Hfile : Fs.isfile fs (Fs.join (basedir (self im)) (filename (self im)))
                    = true).
    { rewrite <- (split_join _ _ _ (con_split Hinit) Hname).
      exact (is_file_isfile _ _ _ (con_is_file Hinit)). }
    assert (Hlisted : In (filename (self im)) (map snd found)).
    { apply Hin.
      - eapply lookup_listdir. apply isfile_lookup. exact Hfile.
      - exact Hfile.
      - eauto. }
    destruct (sort_files && (0 <? List.length found)%nat).
    + eexists. split; [reflexivity|].
      apply in_map_iff in Hlisted. destruct Hlisted as ([n f] & Hf & Hnf).
      cbn in Hf. subst f.
      apply in_map_iff. exists (n, filename (self im)). split; [reflexivity|].
      now apply In_sort.
    + eauto.
Qed.

Lemma sample_matches_its_pattern_witness :
  exists im,
    __init__ Examples.three_frames ["seq"; "img_001.jpg"] (Some ["JPG"]) = Ok im
    /\ exists rx groups,
         get_regex_filename im = Ok rx
         /\ Re.match_ rx (filename (self im)) = Ok (Some groups)
         /\ forall sort_files,
            exists found,
              get_sequence_files Examples.three_frames im sort_files = Ok found
              /\ In (filename (self im)) found.
Proof.
  eexists. split; [vm_compute; reflexivity|].
  apply (sample_matches_its_pattern Examples.three_frames
           ["seq"; "img_001.jpg"] (Some ["JPG"])).
  - vm_compute. reflexivity.
  - cbn. lia.
  - reflexivity.
  - reflexivity.
Defined.

(** C10, the claim as stated fails: the root [img_001] holds no
    metacharacter, but the extension [.a+] does; the regular expression
    does not match the sample's name and no file is listed. *)
Lemma metacharacter_in_extension_hides_sample :
  exists im,
    __init__ Examples.plus_extension ["seq"; "img_001.a+"] None = Ok im
    /\ start_num im = 1%Z
    /\ filename (self im) = "img_001.a+"
    /\ no_meta (root (self im)) = true
    /\ get_regex_filename im = Ok "^img_(\d{3}).a+$"
    /\ Re.match_ "^img_(\d{3}).a+$" (filename (self im)) = Ok None
    /\ get_sequence_files Examples.plus_extension im true = Ok [].
Proof.
  eexists. split; [vm_compute; reflexivity|].
  repeat split; vm_compute; reflexivity.
Qed.

(** ** Renaming a sequence *)

Import Utils Notions Invariants.
Import PyFacts ListingFacts RenameFacts MessageFacts RemovalFacts.
Import InputOutput.


Lemma join_not_root (d : Fs.path) (name : string) : Fs.join d name <> [].
Proof. unfold Fs.join. now destruct d. Qed.







(** The message of the zero-files branch is formatted after the path of
    the missing sample was added to it: a brace in that path is read as
    a replacement field, and the call ends in [KeyError]; a removal that
    the operating system refuses ends it in [TypeError]. *)
Lemma braces_and_refusals_change_the_exception :
  rename_sequence_files Examples.permissive Examples.braced_io 5
    "210308120000" Examples.braced
  = (Examples.braced, Raise KeyError)
  /\ rename_sequence_files (fun _ => true) (Examples.sample_io ["out"]) 5
       "210308120000" Examples.emptied
     = (Fs.add Examples.emptied Examples.staging_dir Fs.Dir, Raise TypeError).
Proof. split; vm_compute; reflexivity. Qed.

(** * The documented examples

    The examples of the docstrings and of the specification, run on the
    model. *)

Module Documented.

Import Utils ImageSequence Notions.

Example parse_077 : parse_digit_format_specifier "077" = Ok "%03d".
Proof. reflexivity. Qed.

Example parse_8 : parse_digit_format_specifier "8" = Ok "%d".
Proof. reflexivity. Qed.

Example parse_empty : parse_digit_format_specifier "" = Raise ValueError.
Proof. reflexivity. Qed.

Example pattern_unpadded : to_re_pattern "%d" true = Ok "\d+".
Proof. reflexivity. Qed.

Example pattern_strict : to_re_pattern "%03d" true = Ok "\d{3}".
Proof. reflexivity. Qed.

Example pattern_range : to_re_pattern "%03d" false = Ok "\d{1,3}".
Proof. reflexivity. Qed.

Example split_three :
  split_at_digit "20200504_my-file_0075" false
  = Ok {| Utils.head := "20200504"; Utils.mid := Some (MidStr "_my-file_");
          Utils.tail := Some "0075" |}.
Proof. reflexivity. Qed.

Example split_two :
  split_at_digit "my_file75" false
  = Ok {| Utils.head := "my_file"; Utils.mid := None; Utils.tail := Some "75" |}.
Proof. reflexivity. Qed.

Example split_one :
  split_at_digit "my_file" false
  = Ok {| Utils.head := "my_file"; Utils.mid := None; Utils.tail := None |}.
Proof. reflexivity. Qed.

Example distance_kitten : levenshtein_distance "kitten" "sitting" = 3.
Proof. reflexivity. Qed.

(** The sample [img_001.jpg] among [img_000.jpg .. img_002.jpg]. *)
Example infer_three_frames :
  exists im,
    __init__ Examples.three_frames ["seq"; "img_001.jpg"] (Some ["JPG"]) = Ok im
    /\ dfs_filename im = "img_%03d.jpg"
    /\ _parse_filename_pattern Examples.three_frames (self im) true
       = Ok ("img_%03d.jpg", 1%Z)
    /\ start_num im = 0%Z
    /\ starts_at_zero im = true
    /\ detect_gaps im = Ok None
    /\ get_regex_filename im = Ok "^img_(\d{3}).jpg$".
Proof.
  eexists. split; [vm_compute; reflexivity|].
  repeat split; vm_compute; reflexivity.
Qed.

(** [frame_0.png] and [frame_2.png]: [frame_1.png] is missing. *)
Example gap_at_one :
  exists im,
    __init__ (Examples.directory ["frame_0.png"; "frame_2.png"])
             ["seq"; "frame_0.png"] None = Ok im
    /\ detect_gaps im = Ok (Some ["frame_1.png"]).
Proof.
  eexists. split; [vm_compute; reflexivity|]. vm_compute. reflexivity.
Qed.

(** Files are sorted by their number, not by their name. *)
Example numeric_order :
  exists im,
    __init__ (Examples.directory ["img_10.png"; "img_9.png"])
             ["seq"; "img_9.png"] None = Ok im
    /\ files (self im) = ["img_10.png"; "img_9.png"]
    /\ get_sequence_files (Examples.directory ["img_10.png"; "img_9.png"]) im true
       = Ok ["img_9.png"; "img_10.png"].
Proof.
  eexists. split; [vm_compute; reflexivity|].
  split; vm_compute; reflexivity.
Qed.

(** Renaming three frames in place from the offset 5 gives the numbers
    5, 6, 7 and leaves no temporary directory. *)
Example rename_in_place :
  InputOutput.rename_sequence_files Examples.permissive
    (Examples.sample_io ["seq"]) 5 "210308120000" Examples.three_frames
  = ([(["seq"; "img_7.jpg"], Fs.File); (["seq"; "img_6.jpg"], Fs.File);
      (["seq"; "img_5.jpg"], Fs.File); (["seq"], Fs.Dir)], Ok tt).
Proof. vm_compute. reflexivity. Qed.

End Documented.

(** * Further properties of the code

    Properties of the functions around the ones the claims are about,
    each read off the source. *)

(** ** Deleting and comparing ([utils.delete], [utils.compare]) *)

Module FsFacts.

Import Utils ListingFacts RenameFacts.
Import InputOutput.

Lemma isdir_false_cases (fs : Fs.t) (d : Fs.path) :
  Fs.isdir fs d = false ->
  Fs.exists_ fs d = false \/ (Fs.exists_ fs d = true /\ Fs.isdir fs d = false).
Proof. intros H. destruct (Fs.exists_ fs d); auto. Qed.

Lemma mem_In (x : string) (l : list string) : Py.mem x l = true <-> In x l.
Proof.
  induction l as [|y l IH]; cbn [Py.mem In]; [split; [discriminate|tauto]|].
  rewrite orb_true_iff, String.eqb_eq, IH. split; intros [H|H]; auto.
Qed.

Lemma filter_all {A : Type} (f : A -> bool) (l : list A) :
  (forall x, In x l -> f x = true) -> filter f l = l.
Proof.
  induction l as [|x l IH]; intros H; cbn [filter]; [reflexivity|].
  rewrite (H x (or_introl eq_refl)), IH; [reflexivity|].
  intros y Hy. apply H. now right.
Qed.

Lemma filter_none {A : Type} (f : A -> bool) (l : list A) :
  (forall x, In x l -> f x = false) -> filter f l = [].
Proof.
  induction l as [|x l IH]; intros H; cbn [filter]; [reflexivity|].
  rewrite (H x (or_introl eq_refl)). apply IH.
  intros y Hy. apply H. now right.
Qed.

Lemma length_filter_existsb {A : Type} (f : A -> bool) (l : list A) :
  negb (List.length (filter f l) =? 0)%nat = existsb f l.
Proof.
  induction l as [|x l IH]; cbn [filter existsb]; [reflexivity|].
  destruct (f x); cbn [orb]; [reflexivity|exact IH].
Qed.

End FsFacts.

(** ** Removing a tree from a well-formed file system *)

Module TreeFacts.

Import Utils Notions Invariants ListingFacts RenameFacts RemovalFacts FsFacts.
Import InputOutput.

Lemma In_lookup (fs : Fs.t) (q : Fs.path) (k : Fs.kind) :
  In (q, k) fs -> exists k', Fs.lookup fs q = Some k'.
Proof.
  induction fs as [|[q' k'] fs IH]; cbn [In Fs.lookup]; [intros []|].
  destruct (Fs.path_eqb q q') eqn:E; [eauto|].
  intros [H|H]; [|auto].
  injection H as -> _. now rewrite path_eqb_refl in E.
Qed.

Lemma listdir_In (fs : Fs.t) (d : Fs.path) (name : string) :
  In name (Fs.listdir fs d) -> exists k, In (Fs.join d name, k) fs.
Proof.
  induction fs as [|[q k] fs IH]; cbn [Fs.listdir]; [intros []|].
  assert (Hrest : In name (Fs.listdir fs d) ->
                  exists k0, In (Fs.join d name, k0) ((q, k) :: fs)).
  { intros H. destruct (IH H) as [k0 H0]. exists k0. now right. }
  destruct q as [|x q]; [exact Hrest|].
  destruct (Fs.path_eqb (removelast (x :: q)) d) eqn:E; [|exact Hrest].
  intros [H|H]; [|auto].
  apply path_eqb_eq in E. exists k. left. f_equal.
  unfold Fs.join. rewrite <- E, <- H.
  apply app_removelast_last. discriminate.
Qed.

Lemma is_prefix_removelast (q : Fs.path) : Fs.is_prefix (removelast q) q = true.
Proof.
  destruct q as [|x q]; [reflexivity|].
  apply is_prefix_app. exists [last (x :: q) ""].
  apply app_removelast_last. discriminate.
Qed.

Lemma join_prefix_join (d : Fs.path) (n n' : string) :
  Fs.is_prefix (Fs.join d n) (Fs.join d n') = true -> n = n'.
Proof.
  intros H. apply is_prefix_app in H as [rest H]. unfold Fs.join in H.
  rewrite <- app_assoc in H. apply app_inv_head in H.
  cbn in H. now injection H as ->.
Qed.

(** *** What well-formedness gives *)

Lemma wf_distinct (fs : Fs.t) :
  Fs.well_formed fs = true -> Fs.distinct (map fst fs) = true.
Proof. unfold Fs.well_formed. intros H. now apply andb_true_iff in H. Qed.

Lemma wf_parent (fs : Fs.t) (q : Fs.path) (k : Fs.kind) :
  Fs.well_formed fs = true -> In (q, k) fs ->
  q <> [] /\ Fs.isdir fs (removelast q) = true.
Proof.
  unfold Fs.well_formed. intros H Hin. apply andb_true_iff in H as [_ H].
  rewrite forallb_forall in H. specialize (H _ Hin). cbn [fst] in H.
  destruct q; [discriminate|]. split; [discriminate|exact H].
Qed.

Lemma distinct_filter (g : Fs.path * Fs.kind -> bool) (fs : Fs.t) :
  Fs.distinct (map fst fs) = true ->
  Fs.distinct (map fst (filter g fs)) = true.
Proof.
  induction fs as [|[q k] fs IH]; cbn [map filter Fs.distinct fst];
    [reflexivity|].
  intros H. apply andb_true_iff in H as [Hq Hd].
  destruct (g (q, k)); [|auto].
  cbn [map Fs.distinct fst]. rewrite (IH Hd), andb_true_r.
  apply negb_true_iff in Hq. apply negb_true_iff.
  destruct (existsb (Fs.path_eqb q) (map fst (filter g fs))) eqn:E;
    [|reflexivity].
  apply existsb_exists in E as (q' & Hin & Heq).
  apply in_map_iff in Hin as (e & <- & Hin). apply filter_In in Hin as [Hin _].
  assert (X : existsb (Fs.path_eqb q) (map fst fs) = true).
  { apply existsb_exists. exists (fst e). split; [now apply in_map|exact Heq]. }
  congruence.
Qed.

Lemma wf_rmtree (fs : Fs.t) (c : Fs.path) :
  Fs.well_formed fs = true -> Fs.well_formed (Fs.rmtree fs c) = true.
Proof.
  intros H. unfold Fs.well_formed. apply andb_true_iff. split.
  - apply distinct_filter, wf_distinct, H.
  - apply forallb_forall. intros [q k] Hin. cbn [fst].
    unfold Fs.rmtree in Hin. apply filter_In in Hin as [Hin Hc].
    cbn [fst] in Hc. apply negb_true_iff in Hc.
    destruct (wf_parent fs q k H Hin) as [Hq Hp].
    destruct q as [|x q]; [congruence|].
    unfold Fs.isdir in *.
    destruct (removelast (x :: q)) as [|y r] eqn:R; [reflexivity|].
    rewrite lookup_rmtree.
    destruct (Fs.is_prefix c (y :: r)) eqn:P; [|exact Hp].
    pose proof (is_prefix_removelast (x :: q)) as L. rewrite R in L.
    now rewrite (is_prefix_trans _ _ _ P L) in Hc.
Qed.

Lemma distinct_listdir (fs : Fs.t) (d : Fs.path) :
  Fs.distinct (map fst fs) = true -> NoDup (Fs.listdir fs d).
Proof.
  induction fs as [|[q k] fs IH]; cbn [map Fs.distinct fst Fs.listdir];
    [constructor|].
  intros H. apply andb_true_iff in H as [Hq Hd]. specialize (IH Hd).
  destruct q as [|x q]; [exact IH|].
  destruct (Fs.path_eqb (removelast (x :: q)) d) eqn:E; [|exact IH].
  constructor; [|exact IH]. intros Hin.
  apply listdir_In in Hin as [k' Hin].
  apply path_eqb_eq in E.
  assert (J : Fs.join d (last (x :: q) "") = x :: q).
  { unfold Fs.join. rewrite <- E. symmetry. apply app_removelast_last.
    discriminate. }
  rewrite J in Hin. apply negb_true_iff in Hq.
  assert (X : existsb (Fs.path_eqb (x :: q)) (map fst fs) = true).
  { apply existsb_exists. exists (x :: q). split; [|apply path_eqb_refl].
    now apply (in_map fst) in Hin. }
  congruence.
Qed.

(** Where no directory is, nothing is listed. *)
Lemma missing_directory_is_empty (fs : Fs.t) (d : Fs.path) :
  Fs.well_formed fs = true -> Fs.exists_ fs d = false -> Fs.listdir fs d = [].
Proof.
  intros Hwf Hex. destruct (Fs.listdir fs d) as [|name l] eqn:L; [reflexivity|].
  exfalso. assert (Hin : In name (Fs.listdir fs d)) by (rewrite L; now left).
  apply listdir_In in Hin as [k Hin].
  destruct (wf_parent fs _ k Hwf Hin) as [_ Hp].
  unfold Fs.join in Hp. rewrite removelast_last in Hp.
  unfold Fs.isdir, Fs.exists_ in *. destruct d; [discriminate|].
  destruct (Fs.lookup fs _) as [[|]|]; discriminate.
Qed.

(** A file has nothing below it. *)
Lemma file_is_a_leaf (fs : Fs.t) (c : Fs.path) :
  Fs.well_formed fs = true -> Fs.lookup fs c = Some Fs.File ->
  forall rest k, In ((c ++ rest)%list, k) fs -> rest = [].
Proof.
  intros Hwf Hc. induction rest as [|x r IH] using rev_ind; [reflexivity|].
  intros k Hin. exfalso.
  destruct (wf_parent fs _ k Hwf Hin) as [_ Hp].
  rewrite app_assoc, removelast_last in Hp.
  assert (Hcase : (c ++ r)%list = []
                  \/ Fs.lookup fs (c ++ r)%list = Some Fs.Dir).
  { unfold Fs.isdir in Hp. destruct (c ++ r)%list as [|y p]; [now left|].
    right. cbv iota in Hp.
    destruct (Fs.lookup fs (y :: p)) as [[|]|]; congruence. }
  destruct Hcase as [E|L].
  - apply app_eq_nil in E as [-> ->].
    apply lookup_In in Hc. now destruct (wf_parent fs _ _ Hwf Hc).
  - pose proof (lookup_In _ _ _ L) as Hd.
    rewrite (IH _ Hd), app_nil_r in L. congruence.
Qed.

Lemma leaf_rmtree (fs : Fs.t) (c : Fs.path) :
  Fs.well_formed fs = true -> Fs.lookup fs c = Some Fs.File ->
  Fs.remove fs c = Fs.rmtree fs c.
Proof.
  intros Hwf Hc. unfold Fs.remove, Fs.rmtree. apply filter_ext_in.
  intros [q k] Hin. cbn [fst]. destruct (Fs.is_prefix c q) eqn:P.
  - apply is_prefix_app in P as [rest ->].
    rewrite (file_is_a_leaf fs c Hwf Hc rest k Hin), app_nil_r.
    now rewrite path_eqb_refl.
  - now rewrite (is_prefix_eqb _ _ P).
Qed.

(** Every entry below a directory lies in one of its listed entries. *)
Lemma wf_ancestor (fs : Fs.t) (d : Fs.path) (n : string) :
  Fs.well_formed fs = true ->
  forall r k, In ((d ++ n :: r)%list, k) fs ->
              exists k', Fs.lookup fs (Fs.join d n) = Some k'.
Proof.
  intros Hwf. induction r as [|x r IH] using rev_ind; intros k Hin.
  - now apply In_lookup in Hin.
  - destruct (wf_parent fs _ k Hwf Hin) as [_ Hp].
    replace (d ++ n :: r ++ [x])%list with ((d ++ n :: r) ++ [x])%list in Hp
      by (rewrite <- app_assoc; reflexivity).
    rewrite removelast_last in Hp. unfold Fs.isdir in Hp.
    destruct (d ++ n :: r)%list as [|y p] eqn:E; [now destruct d|].
    rewrite <- E in *.
    destruct (Fs.lookup fs (d ++ n :: r)%list) as [[|]|] eqn:L; try discriminate.
    apply lookup_In in L. now apply IH in L.
Qed.

Lemma sheds_rmtree (c : Fs.path) (fs : Fs.t) : sheds c fs (Fs.rmtree fs c).
Proof.
  exists (fun q => negb (Fs.is_prefix c q)). split; [reflexivity|].
  intros q Hq. now rewrite Hq.
Qed.

Lemma join_not_prefix (d : Fs.path) (n : string) :
  Fs.is_prefix (Fs.join d n) d = false.
Proof.
  destruct (Fs.is_prefix (Fs.join d n) d) eqn:P; [|reflexivity].
  apply is_prefix_app in P as [rest P].
  apply (f_equal (@List.length string)) in P. unfold Fs.join in P.
  rewrite !List.length_app in P. cbn in P. lia.
Qed.

Section Complete.

Variable denied : Fs.path -> bool.

Lemma rmtree_names_complete
  (walk : Fs.path -> Fs.t -> option (Fs.t * result unit)) (d : Fs.path)
  (depth : nat) :
  removable denied d ->
  (forall name fs,
      Fs.well_formed fs = true -> Fs.isdir fs (Fs.join d name) = true ->
      List.length (Fs.below fs (Fs.join d name)) < depth ->
      walk (Fs.join d name) fs = Some (Fs.rmtree fs (Fs.join d name), Ok tt)) ->
  forall names fs,
    Fs.well_formed fs = true -> NoDup names ->
    (forall n, In n names -> exists k, Fs.lookup fs (Fs.join d n) = Some k) ->
    List.length (Fs.below fs d) <= depth ->
    rmtree_names walk denied d names fs
    = Some (filter (kept d names) fs, Ok tt).
Proof.
  intros Hrem Hwalk. induction names as [|n names IH];
    intros fs Hwf Hnd Hex Hlen.
  - cbn [rmtree_names]. now rewrite filter_all.
  - cbn [rmtree_names].
    destruct (Hex n (or_introl eq_refl)) as [k Hk].
    assert (Hne : Fs.join d n <> []) by (unfold Fs.join; now destruct d).
    assert (Hstep : (if Fs.isdir fs (Fs.join d n) then walk (Fs.join d n) fs
                     else Some (os_remove denied (Fs.join d n) fs))
                    = Some (Fs.rmtree fs (Fs.join d n), Ok tt)).
    { destruct k.
      - assert (D : Fs.isdir fs (Fs.join d n) = false).
        { unfold Fs.isdir. destruct (Fs.join d n); [congruence|].
          now rewrite Hk. }
        rewrite D. unfold os_remove, Fs.isfile.
        rewrite Hk, (Hrem _ (is_prefix_join d n)). cbn [negb andb].
        now rewrite (leaf_rmtree fs _ Hwf Hk).
      - assert (D : Fs.isdir fs (Fs.join d n) = true).
        { unfold Fs.isdir. destruct (Fs.join d n); [congruence|].
          now rewrite Hk. }
        rewrite D. apply Hwalk; [exact Hwf|exact D|].
        pose proof (below_child fs d n D). lia. }
    rewrite Hstep. inversion Hnd as [|? ? Hn Hnd']; subst.
    rewrite IH.
    + f_equal. f_equal. unfold Fs.rmtree. rewrite filter_filter.
      apply filter_ext. intros e. unfold kept. cbn [existsb].
      now rewrite negb_orb.
    + now apply wf_rmtree.
    + exact Hnd'.
    + intros n' Hn'. destruct (Hex n' (or_intror Hn')) as [k' Hk'].
      exists k'. rewrite lookup_rmtree.
      destruct (Fs.is_prefix (Fs.join d n) (Fs.join d n')) eqn:P;
        [|exact Hk'].
      apply join_prefix_join in P. congruence.
    + pose proof (sheds_below _ d _ _ (sheds_rmtree (Fs.join d n) fs)). lia.
Qed.

Lemma rmtree_walk_complete (depth : nat) :
  forall d fs,
    Fs.well_formed fs = true -> Fs.isdir fs d = true -> removable denied d ->
    List.length (Fs.below fs d) < depth ->
    rmtree_walk depth denied d fs = Some (Fs.rmtree fs d, Ok tt).
Proof.
  induction depth as [|depth IH]; intros d fs Hwf Hdir Hrem Hlen; [lia|].
  cbn [rmtree_walk]. unfold Fs.os_listdir. rewrite Hdir.
  rewrite (rmtree_names_complete (rmtree_walk depth denied) d depth Hrem).
  - assert (Hkept : forall q, Fs.is_prefix d q = false ->
                              kept d (Fs.listdir fs d) (q, Fs.Dir) = true).
    { intros q Hq. unfold kept. apply negb_true_iff.
      destruct (existsb _ _) eqn:X; [|reflexivity].
      apply existsb_exists in X as (n & _ & P). cbn [fst] in P.
      now rewrite (is_prefix_trans _ _ _ (is_prefix_join d n) P) in Hq. }
    assert (Hd : Fs.isdir (filter (kept d (Fs.listdir fs d)) fs) d = true).
    { unfold Fs.isdir in *. destruct d as [|x d]; [reflexivity|].
      rewrite (lookup_filter (fun q => kept (x :: d) (Fs.listdir fs (x :: d))
                                            (q, Fs.Dir))).
      unfold kept at 1. cbn [fst].
      replace (existsb _ _) with false; [exact Hdir|].
      symmetry. destruct (existsb _ _) eqn:X; [|reflexivity].
      apply existsb_exists in X as (n & _ & P).
      now rewrite join_not_prefix in P. }
    assert (He : Fs.listdir (filter (kept d (Fs.listdir fs d)) fs) d = []).
    { destruct (Fs.listdir (filter _ fs) d) as [|name l] eqn:L;
        [reflexivity|]. exfalso.
      assert (Hin : In name (Fs.listdir (filter (kept d (Fs.listdir fs d)) fs) d))
        by (rewrite L; now left).
      apply listdir_In in Hin as [k Hin]. apply filter_In in Hin as [Hin K].
      apply In_lookup in Hin as [k' Hin]. apply lookup_listdir in Hin.
      unfold kept in K. apply negb_true_iff in K.
      assert (X : existsb (fun n => Fs.is_prefix (Fs.join d n)
                                      (fst (Fs.join d name, k)))
                          (Fs.listdir fs d) = true).
      { apply existsb_exists. exists name. split; [exact Hin|].
        apply is_prefix_refl. }
      congruence. }
    unfold os_rmdir. rewrite Hd, He, (Hrem d (is_prefix_refl d)).
    cbn [List.length Nat.eqb negb andb]. f_equal. f_equal.
    unfold Fs.remove, Fs.rmtree. rewrite filter_filter.
    apply filter_ext_in. intros [q k] Hin. cbn [fst].
    destruct (Fs.is_prefix d q) eqn:P; cbn [negb].
    + apply is_prefix_app in P as [rest ->]. destruct rest as [|n r].
      * now rewrite app_nil_r, path_eqb_refl, andb_false_r.
      * destruct (wf_ancestor fs d n Hwf r k Hin) as [k' Hk'].
        apply lookup_listdir in Hk'. unfold kept.
        replace (existsb _ _) with true; [reflexivity|].
        symmetry. apply existsb_exists. exists n. split; [exact Hk'|].
        cbn [fst]. apply is_prefix_app. exists r. unfold Fs.join.
        now rewrite <- app_assoc.
    + rewrite (is_prefix_eqb _ _ P), andb_true_r.
      unfold kept. apply negb_true_iff.
      destruct (existsb _ _) eqn:X; [|reflexivity].
      apply existsb_exists in X as (n & _ & Q). cbn [fst] in Q.
      now rewrite (is_prefix_trans _ _ _ (is_prefix_join d n) Q) in P.
  - intros name fs0 Hwf0 Hd0 Hl0. apply IH; try assumption.
    intros q Hq. apply Hrem.
    exact (is_prefix_trans _ _ _ (is_prefix_join d name) Hq).
  - exact Hwf.
  - apply distinct_listdir, wf_distinct, Hwf.
  - intros n Hn. apply listdir_In in Hn as [k Hn]. now apply In_lookup in Hn.
  - lia.
Qed.

Lemma delete_complete (p : Fs.path) (fs : Fs.t) :
  Fs.well_formed fs = true -> Fs.exists_ fs p = true -> removable denied p ->
  delete denied p fs = (Fs.rmtree fs p, Ok tt).
Proof.
  intros Hwf Hex Hrem. unfold delete. rewrite Hex. cbn [negb].
  destruct (Fs.isfile fs p) eqn:Hf.
  - unfold os_remove. rewrite Hf, (Hrem p (is_prefix_refl p)).
    cbn [negb andb except_OSError_raise_str].
    now rewrite (leaf_rmtree fs p Hwf (isfile_lookup _ _ Hf)).
  - assert (Hd : Fs.isdir fs p = true).
    { unfold Fs.exists_ in Hex. unfold Fs.isfile in Hf. unfold Fs.isdir.
      destruct p as [|x p]; [reflexivity|].
      destruct (Fs.lookup fs (x :: p)) as [[|]|]; congruence. }
    rewrite Hd. unfold shutil_rmtree.
    rewrite (rmtree_walk_complete (S (List.length fs)) p fs Hwf Hd Hrem);
      [reflexivity|].
    unfold Fs.below.
    pose proof (length_filter_le
      (fun e => Fs.is_prefix p (fst e) && negb (Fs.path_eqb p (fst e))) fs).
    lia.
Qed.

End Complete.

End TreeFacts.

Import Utils Notions Invariants InputOutput ImageSequence.
Import PyFacts SplitFacts DecimalFacts SpecifierFacts ScoringFacts StartFacts.
Import InitFacts ReFacts MatchFacts PatternFacts ListingFacts RenameFacts.
Import RemovalFacts FsFacts TreeFacts.

(** X1. In a well-formed file system, [delete] of a path that exists
    succeeds when the operating system refuses no removal at or below
    it; afterwards exactly the entries at or below the path are gone:
    every such path is missing, every other path is as it was. *)
Theorem delete_removes_the_subtree (denied : Fs.path -> bool) (p : Fs.path)
  (fs : Fs.t) :
  Fs.well_formed fs = true ->
  Fs.exists_ fs p = true ->
  removable denied p ->
  exists fs',
    InputOutput.delete denied p fs = (fs', Ok tt)
    /\ forall q, Fs.lookup fs' q
                 = if Fs.is_prefix p q then None else Fs.lookup fs q.
Proof.
  intros Hwf Hex Hrem. exists (Fs.rmtree fs p). split.
  - now apply delete_complete.
  - intros q. apply lookup_rmtree.
Qed.

Lemma delete_removes_the_subtree_witness :
  exists fs',
    InputOutput.delete Examples.permissive ["seq"] Examples.three_frames
    = (fs', Ok tt)
    /\ forall q, Fs.lookup fs' q
                 = if Fs.is_prefix ["seq"] q then None
                   else Fs.lookup Examples.three_frames q.
Proof.
  apply (delete_removes_the_subtree Examples.permissive ["seq"]
           Examples.three_frames).
  - reflexivity.
  - reflexivity.
  - intros q _. reflexivity.
Defined.

(** X2. [delete] raises [OSError] exactly for a path that does not
    exist, and changes nothing then.  A removal that the operating
    system refuses does not surface as the documented [OSError]: the
    handlers raise a string, which is a [TypeError]; for a file that may
    not be removed nothing is changed.  [delete] raises nothing else,
    and whatever it does, no path outside the subtree changes. *)
Theorem delete_raises_type_error_when_refused (denied : Fs.path -> bool)
  (p : Fs.path) (fs : Fs.t) :
  (Fs.exists_ fs p = false ->
   InputOutput.delete denied p fs = (fs, Raise OSError))
  /\ (Fs.isfile fs p = true -> denied p = true ->
      InputOutput.delete denied p fs = (fs, Raise TypeError))
  /\ (forall fs' e,
        InputOutput.delete denied p fs = (fs', Raise e) ->
        (e = OSError /\ Fs.exists_ fs p = false /\ fs' = fs)
        \/ (e = TypeError /\ Fs.exists_ fs p = true))
  /\ (forall fs' r,
        InputOutput.delete denied p fs = (fs', r) ->
        forall q, Fs.is_prefix p q = false -> Fs.lookup fs' q = Fs.lookup fs q).
Proof.
  split; [|split; [|split]].
  - unfold InputOutput.delete. intros ->. reflexivity.
  - intros Hf Hd. unfold InputOutput.delete, os_remove.
    assert (Hex : Fs.exists_ fs p = true).
    { unfold Fs.exists_, Fs.isfile in *. destruct p; [reflexivity|].
      now destruct (Fs.lookup fs _). }
    rewrite Hex, Hf, Hd. reflexivity.
  - intros fs' e H.
    destruct (delete_outcomes denied p fs fs' (Raise e) H)
      as (_ & [E|[(E & Hex & ->)|(E & Hex)]]);
      [discriminate| |]; injection E as ->; auto.
  - intros fs' r H q Hq.
    destruct (delete_outcomes denied p fs fs' r H) as (Hs & _).
    now apply (sheds_lookup p fs fs' q Hs).
Qed.

Lemma delete_raises_type_error_when_refused_witness :
  InputOutput.delete (fun _ => true) ["seq"; "img_000.jpg"] Examples.three_frames
  = (Examples.three_frames, Raise TypeError)
  /\ InputOutput.delete (fun _ => true) ["seq"; "absent.jpg"] Examples.three_frames
     = (Examples.three_frames, Raise OSError).
Proof.
  split.
  - apply (proj1 (proj2 (delete_raises_type_error_when_refused (fun _ => true)
                           ["seq"; "img_000.jpg"] Examples.three_frames)));
      reflexivity.
  - apply (proj1 (delete_raises_type_error_when_refused (fun _ => true)
                    ["seq"; "absent.jpg"] Examples.three_frames)).
    reflexivity.
Defined.

(** X3. [compare] only reads the file system; it raises exactly when
    one of the two paths is not an existing directory, and then the
    exception is [OSError]. *)
Theorem compare_needs_two_directories (d1 d2 : Fs.path) (strict : bool)
  (fs : Fs.t) :
  fst (InputOutput.compare d1 d2 strict fs) = fs
  /\ (snd (InputOutput.compare d1 d2 strict fs) = Raise OSError
      <-> Fs.isdir fs d1 = false \/ Fs.isdir fs d2 = false)
  /\ (forall e, snd (InputOutput.compare d1 d2 strict fs) = Raise e -> e = OSError).
Proof.
  split; [apply compare_reads|].
  unfold InputOutput.compare.
  destruct (Fs.isdir fs d1) eqn:D1.
  - rewrite (isdir_exists _ _ D1). cbn [negb].
    destruct (Fs.isdir fs d2) eqn:D2.
    + rewrite (isdir_exists _ _ D2). cbn [negb].
      destruct (strict && negb (Fs.path_eqb d1 d2)); cbn [snd].
      * split; [split; [discriminate|intros [H|H]; discriminate]|discriminate].
      * destruct (negb (_ =? _)%nat); cbn [snd];
          (split; [split; [discriminate|intros [H|H]; discriminate]|discriminate]).
    + destruct (Fs.exists_ fs d2); cbn [negb snd];
        (split; [split; auto|congruence]).
  - destruct (Fs.exists_ fs d1); cbn [negb snd];
      (split; [split; auto|congruence]).
Qed.

(** X4. A directory compared with itself counts as the same exactly
    when it holds an entry that [dircmp] does not ignore: an empty
    directory is reported as different from itself. *)
Theorem compare_with_itself (d : Fs.path) (strict : bool) (fs : Fs.t) :
  Fs.isdir fs d = true ->
  InputOutput.compare d d strict fs
  = (fs, Ok (existsb (fun n => negb (InputOutput.dircmp_ignored n))
                     (Fs.listdir fs d))).
Proof.
  intros Hd. unfold InputOutput.compare.
  rewrite (isdir_exists _ _ Hd), Hd, path_eqb_refl, Nat.eqb_refl.
  cbn [negb andb]. rewrite andb_false_r.
  set (kept := filter (fun n => negb (InputOutput.dircmp_ignored n))
                      (Fs.listdir fs d)).
  rewrite (filter_all (fun n => Py.mem n kept) kept)
    by (intros x Hx; now apply mem_In).
  rewrite (filter_none _ kept)
    by (intros x _; now rewrite eqb_reflx).
  cbn [List.length Nat.eqb]. rewrite andb_true_r.
  unfold kept. now rewrite length_filter_existsb.
Qed.

Lemma compare_with_itself_witness :
  InputOutput.compare ["seq"] ["seq"] true Examples.three_frames
  = (Examples.three_frames,
     Ok (existsb (fun n => negb (InputOutput.dircmp_ignored n))
                 (Fs.listdir Examples.three_frames ["seq"]))).
Proof.
  apply (compare_with_itself ["seq"] true Examples.three_frames).
  reflexivity.
Defined.

(** ** The Levenshtein distance ([utils.levenshtein_distance]) *)

Module DistanceFacts.

Import Utils Notions Invariants PyFacts.

Lemma length_characters (s : string) : List.length (list_ascii_of_string s) = String.length s.
Proof. induction s as [|c s IH]; cbn; [reflexivity|now rewrite IH]. Qed.

Lemma characters_inj (s t : string) : list_ascii_of_string s = list_ascii_of_string t -> s = t.
Proof.
  intros H. rewrite <- (string_of_list_ascii_of_string s),
    <- (string_of_list_ascii_of_string t). now rewrite H.
Qed.

(** *** The recursion *)

Lemma edit_distance_nil_r (x : list ascii) : edit_distance x [] = List.length x.
Proof. now destruct x. Qed.

Lemma edit_distance_nil_l (y : list ascii) : edit_distance [] y = List.length y.
Proof. now destruct y. Qed.

Lemma edit_distance_cons (a b : ascii) (x y : list ascii) :
  edit_distance (a :: x) (b :: y)
  = Nat.min (Nat.min (edit_distance x (b :: y) + 1) (edit_distance (a :: x) y + 1))
            (edit_distance x y + if Ascii.eqb a b then 0 else 1).
Proof. reflexivity. Qed.

(** *** The matrix computes the recursion on the reversed prefixes *)

Lemma rev_prefixes_last (rest acc : list ascii) :
  last (rev_prefixes acc rest) [] = (List.rev rest ++ acc)%list.
Proof.
  revert acc. induction rest as [|c rest IH]; intros acc; [reflexivity|].
  cbn [rev_prefixes]. destruct (rev_prefixes (c :: acc) rest) eqn:E.
  - now destruct rest.
  - rewrite <- E. cbn [last]. rewrite E, <- E, IH. cbn [List.rev].
    now rewrite <- app_assoc.
Qed.

Lemma last_map_rev_prefixes {A : Type} (f : list ascii -> A) (d : A)
  (rest acc : list ascii) :
  last (map f (rev_prefixes acc rest)) d = f (last (rev_prefixes acc rest) []).
Proof.
  revert acc. induction rest as [|c rest IH]; intros acc; [reflexivity|].
  cbn [rev_prefixes map]. specialize (IH (c :: acc)).
  destruct (rev_prefixes (c :: acc) rest) eqn:E; [now destruct rest|].
  cbn [map last] in *. exact IH.
Qed.

Lemma rev_prefixes_lengths (rest acc : list ascii) :
  map (fun sp => edit_distance sp []) (rev_prefixes acc rest)
  = seq (List.length acc) (S (List.length rest)).
Proof.
  revert acc. induction rest as [|c rest IH]; intros acc; cbn [rev_prefixes map].
  - now rewrite edit_distance_nil_r.
  - rewrite edit_distance_nil_r, IH. reflexivity.
Qed.

Lemma lev_row_spec (tj : ascii) (tp : list ascii) (s : string) :
  forall acc,
    lev_row tj s (map (fun sp => edit_distance sp tp) (rev_prefixes acc (list_ascii_of_string s)))
            (edit_distance acc (tj :: tp))
    = map (fun sp => edit_distance sp (tj :: tp)) (tl (rev_prefixes acc (list_ascii_of_string s))).
Proof.
  induction s as [|si s IH]; intros acc; [reflexivity|].
  cbn [list_ascii_of_string rev_prefixes map tl lev_row].
  destruct (rev_prefixes (si :: acc) (list_ascii_of_string s)) as [|sp1 more] eqn:E;
    [now destruct (list_ascii_of_string s)|].
  assert (sp1 = si :: acc) as -> by (destruct (list_ascii_of_string s); cbn in E; congruence).
  cbn [map]. rewrite <- (edit_distance_cons si tj acc tp).
  f_equal. specialize (IH (si :: acc)). rewrite E in IH. cbn [map tl] in IH.
  exact IH.
Qed.

Lemma lev_rows_spec (s : string) (t : string) :
  forall tp,
    lev_rows t s (map (fun sp => edit_distance sp tp) (rev_prefixes [] (list_ascii_of_string s)))
             (S (List.length tp))
    = map (fun sp => edit_distance sp (List.rev (list_ascii_of_string t) ++ tp)%list)
          (rev_prefixes [] (list_ascii_of_string s)).
Proof.
  induction t as [|tj t IH]; intros tp; [reflexivity|].
  cbn [lev_rows list_ascii_of_string List.rev]. rewrite <- app_assoc. cbn [app].
  rewrite <- (IH (tj :: tp)). cbn [List.length]. f_equal.
  replace (S (List.length tp)) with (edit_distance [] (tj :: tp)) at 2
    by reflexivity.
  rewrite lev_row_spec. destruct (list_ascii_of_string s); reflexivity.
Qed.

Lemma levenshtein_recursion (s t : string) :
  levenshtein_distance s t
  = edit_distance (List.rev (list_ascii_of_string s)) (List.rev (list_ascii_of_string t)).
Proof.
  unfold levenshtein_distance.
  rewrite <- length_characters.
  pose proof (rev_prefixes_lengths (list_ascii_of_string s) []) as H.
  cbn [List.length] in H. rewrite <- H.
  pose proof (lev_rows_spec s t []) as R. cbn [List.length] in R.
  rewrite R, app_nil_r.
  rewrite last_map_rev_prefixes.
  now rewrite rev_prefixes_last, app_nil_r.
Qed.

(** *** The recursion gives the cheapest alignment *)

Lemma alignment_exists (x : list ascii) :
  forall y, alignment (edit_distance x y) x y.
Proof.
  induction x as [|a x IHx]; intros y.
  - induction y as [|b y IHy]; [constructor|].
    rewrite edit_distance_nil_l in *. cbn [List.length]. now apply A_insert.
  - induction y as [|b y IHy].
    + rewrite edit_distance_nil_r. cbn [List.length].
      apply A_delete. specialize (IHx []). now rewrite edit_distance_nil_r in IHx.
    + rewrite edit_distance_cons.
      destruct (Nat.min_spec (edit_distance x (b :: y) + 1)
                  (edit_distance (a :: x) y + 1)) as [[_ E1]|[_ E1]];
        rewrite E1;
        match goal with
        | |- context [Nat.min ?u ?v] =>
            destruct (Nat.min_spec u v) as [[_ E2]|[_ E2]]; rewrite E2
        end.
      * rewrite Nat.add_1_r. apply A_delete, IHx.
      * destruct (Ascii.eqb a b) eqn:E.
        -- apply Ascii.eqb_eq in E. subst b. rewrite Nat.add_0_r.
           apply A_keep, IHx.
        -- rewrite Nat.add_1_r. apply A_subst, IHx.
      * rewrite Nat.add_1_r. apply A_insert, IHy.
      * destruct (Ascii.eqb a b) eqn:E.
        -- apply Ascii.eqb_eq in E. subst b. rewrite Nat.add_0_r.
           apply A_keep, IHx.
        -- rewrite Nat.add_1_r. apply A_subst, IHx.
Qed.

Lemma edit_distance_delete (a : ascii) (x y : list ascii) :
  edit_distance (a :: x) y <= S (edit_distance x y).
Proof.
  destruct y as [|b y].
  - rewrite !edit_distance_nil_r. cbn [List.length]. lia.
  - rewrite edit_distance_cons. lia.
Qed.

Lemma edit_distance_insert (b : ascii) (x y : list ascii) :
  edit_distance x (b :: y) <= S (edit_distance x y).
Proof.
  destruct x as [|a x].
  - rewrite !edit_distance_nil_l. cbn [List.length]. lia.
  - rewrite edit_distance_cons. lia.
Qed.

Lemma alignment_least (n : nat) (x y : list ascii) :
  alignment n x y -> edit_distance x y <= n.
Proof.
  induction 1 as [|a x y n _ IH|a b x y n _ IH|a x y n _ IH|b x y n _ IH].
  - cbn. lia.
  - rewrite edit_distance_cons, Ascii.eqb_refl. lia.
  - rewrite edit_distance_cons. destruct (Ascii.eqb a b); lia.
  - pose proof (edit_distance_delete a x y). lia.
  - pose proof (edit_distance_insert b x y). lia.
Qed.

(** *** Alignments can be read from the right and mirrored *)

Lemma alignment_app (n m : nat) (x y x' y' : list ascii) :
  alignment n x y -> alignment m x' y' ->
  alignment (n + m) (x ++ x')%list (y ++ y')%list.
Proof.
  intros H H'. induction H; cbn [app Nat.add]; try (constructor; assumption).
  exact H'.
Qed.

Lemma alignment_rev (n : nat) (x y : list ascii) :
  alignment n x y -> alignment n (List.rev x) (List.rev y).
Proof.
  induction 1 as [|a x y n _ IH|a b x y n _ IH|a x y n _ IH|b x y n _ IH];
    cbn [List.rev].
  - constructor.
  - rewrite <- (Nat.add_0_r n). apply alignment_app; [exact IH|].
    repeat constructor.
  - rewrite <- Nat.add_1_r. apply alignment_app; [exact IH|].
    repeat constructor.
  - rewrite <- Nat.add_1_r, <- (app_nil_r (List.rev y)).
    apply alignment_app; [exact IH|]. repeat constructor.
  - rewrite <- Nat.add_1_r, <- (app_nil_r (List.rev x)).
    apply alignment_app; [exact IH|]. repeat constructor.
Qed.

Lemma alignment_sym (n : nat) (x y : list ascii) :
  alignment n x y -> alignment n y x.
Proof. induction 1; constructor; assumption. Qed.

Lemma alignment_lengths (n : nat) (x y : list ascii) :
  alignment n x y ->
  List.length x <= List.length y + n /\ List.length y <= List.length x + n.
Proof. induction 1; cbn [List.length]; lia. Qed.

Lemma alignment_zero (n : nat) (x y : list ascii) :
  alignment n x y -> n = 0 -> x = y.
Proof. induction 1; intros E; try discriminate; [reflexivity|]. f_equal. auto. Qed.

Lemma alignment_refl (x : list ascii) : alignment 0 x x.
Proof. induction x; constructor; assumption. Qed.

Lemma alignment_longest (x : list ascii) :
  forall y, alignment (Nat.max (List.length x) (List.length y)) x y.
Proof.
  induction x as [|a x IH]; intros y.
  - cbn [List.length Nat.max]. induction y; cbn [List.length]; constructor.
    assumption.
  - destruct y as [|b y]; cbn [List.length Nat.max].
    + constructor. specialize (IH []). cbn [List.length] in IH.
      now rewrite Nat.max_0_r in IH.
    + constructor. apply IH.
Qed.

Lemma edit_distance_rev (x y : list ascii) :
  edit_distance (List.rev x) (List.rev y) = edit_distance x y.
Proof.
  apply Nat.le_antisymm.
  - apply alignment_least, alignment_rev, alignment_exists.
  - pose proof (alignment_rev _ _ _
                  (alignment_exists (List.rev x) (List.rev y))) as H.
    rewrite !List.rev_involutive in H. exact (alignment_least _ _ _ H).
Qed.

Lemma levenshtein_edit_distance (s t : string) :
  levenshtein_distance s t
  = edit_distance (list_ascii_of_string s) (list_ascii_of_string t).
Proof. now rewrite levenshtein_recursion, edit_distance_rev. Qed.

Lemma distance_zero (s t : string) :
  levenshtein_distance s t = 0 <-> s = t.
Proof.
  rewrite levenshtein_edit_distance. split.
  - intros E. apply characters_inj.
    apply (alignment_zero (edit_distance (list_ascii_of_string s)
                                         (list_ascii_of_string t))
             _ _ (alignment_exists _ _) E).
  - intros ->.
    pose proof (alignment_least _ _ _ (alignment_refl (list_ascii_of_string t))).
    lia.
Qed.

End DistanceFacts.

Import Utils Notions Invariants InputOutput ImageSequence.
Import PyFacts SplitFacts DecimalFacts SpecifierFacts ScoringFacts StartFacts.
Import InitFacts ReFacts MatchFacts PatternFacts ListingFacts RenameFacts.
Import FsFacts DistanceFacts.

(** X5. [levenshtein_distance s t] is the least number of
    single-character edits (insertions, deletions, substitutions) that
    turn [s] into [t]: an alignment of that cost exists, and none is
    cheaper. *)
Theorem levenshtein_distance_is_least_edit_cost (s t : string) :
  alignment (levenshtein_distance s t)
            (list_ascii_of_string s) (list_ascii_of_string t)
  /\ forall n, alignment n (list_ascii_of_string s) (list_ascii_of_string t) ->
               levenshtein_distance s t <= n.
Proof.
  rewrite levenshtein_edit_distance. split.
  - apply alignment_exists.
  - intros n. apply alignment_least.
Qed.

(** X6. The distance of two strings is zero exactly when they are
    equal. *)
Theorem levenshtein_distance_zero_iff_equal (s t : string) :
  levenshtein_distance s t = 0 <-> s = t.
Proof. apply distance_zero. Qed.

(** X7. The distance is symmetric. *)
Theorem levenshtein_distance_symmetric (s t : string) :
  levenshtein_distance s t = levenshtein_distance t s.
Proof.
  rewrite !levenshtein_edit_distance.
  apply Nat.le_antisymm; apply alignment_least, alignment_sym, alignment_exists.
Qed.

(** X8. The distance lies between the difference of the two lengths and
    the greater of them; against the empty string it is the length. *)
Theorem levenshtein_distance_bounds (s t : string) :
  String.length s - String.length t <= levenshtein_distance s t
  /\ String.length t - String.length s <= levenshtein_distance s t
  /\ levenshtein_distance s t <= Nat.max (String.length s) (String.length t)
  /\ levenshtein_distance s "" = String.length s
  /\ levenshtein_distance "" t = String.length t.
Proof.
  rewrite !levenshtein_edit_distance, <- !length_characters.
  pose proof (alignment_lengths _ _ _
                (alignment_exists (list_ascii_of_string s) (list_ascii_of_string t)))
    as [H1 H2].
  pose proof (alignment_least _ _ _
                (alignment_longest (list_ascii_of_string s) (list_ascii_of_string t)))
    as H3.
  repeat split; try lia.
  - apply (edit_distance_nil_r (list_ascii_of_string s)).
  - apply (edit_distance_nil_l (list_ascii_of_string t)).
Qed.

(** ** Listing a directory ([utils.fetch_dir], [get_sequence_files]) *)

Module SortFacts.

Import Utils ImageSequence Notions Invariants ListingFacts FsFacts.

Section Sorting.

Variable A : Type.
Variable leb : A -> A -> bool.
Hypothesis leb_total : forall x y, leb x y = true \/ leb y x = true.

Lemma HdRel_insert_sorted (a x : A) (l : list A) :
  leb a x = true -> HdRel (fun u v => leb u v = true) a l ->
  HdRel (fun u v => leb u v = true) a (Py.insert_sorted leb x l).
Proof.
  intros Hax Hl. destruct l as [|y l]; cbn [Py.insert_sorted].
  - now constructor.
  - destruct (leb x y); constructor; [exact Hax|].
    now inversion Hl.
Qed.

Lemma insert_sorted_Sorted (x : A) (l : list A) :
  Sorted (fun u v => leb u v = true) l ->
  Sorted (fun u v => leb u v = true) (Py.insert_sorted leb x l).
Proof.
  induction 1 as [|y l Hs IH Hhd]; cbn [Py.insert_sorted].
  - repeat constructor.
  - destruct (leb x y) eqn:E.
    + constructor; [now constructor|now constructor].
    + constructor; [exact IH|].
      apply HdRel_insert_sorted; [|exact Hhd].
      destruct (leb_total x y) as [H|H]; congruence.
Qed.

Lemma sort_Sorted (l : list A) :
  Sorted (fun u v => leb u v = true) (Py.sort leb l).
Proof.
  induction l as [|x l IH]; cbn [Py.sort]; [constructor|].
  now apply insert_sorted_Sorted.
Qed.

End Sorting.

Lemma insert_sorted_Permutation {A : Type} (leb : A -> A -> bool) (x : A)
  (l : list A) : Permutation (Py.insert_sorted leb x l) (x :: l).
Proof.
  induction l as [|y l IH]; cbn [Py.insert_sorted]; [reflexivity|].
  destruct (leb x y); [reflexivity|].
  rewrite IH. apply perm_swap.
Qed.

Lemma sort_Permutation {A : Type} (leb : A -> A -> bool) (l : list A) :
  Permutation (Py.sort leb l) l.
Proof.
  induction l as [|x l IH]; cbn [Py.sort]; [reflexivity|].
  rewrite insert_sorted_Permutation. now constructor.
Qed.

Lemma pair_leb_total (p q : Z * string) :
  Py.pair_leb p q = true \/ Py.pair_leb q p = true.
Proof.
  unfold Py.pair_leb.
  destruct (Z.ltb_spec (fst p) (fst q)); [now left|].
  destruct (Z.ltb_spec (fst q) (fst p)); [now right|].
  replace (fst p =? fst q)%Z with true by (symmetry; apply Z.eqb_eq; lia).
  replace (fst q =? fst p)%Z with true by (symmetry; apply Z.eqb_eq; lia).
  apply String.leb_total.
Qed.

Lemma pair_leb_fst (p q : Z * string) :
  Py.pair_leb p q = true -> (fst p <= fst q)%Z.
Proof.
  unfold Py.pair_leb.
  destruct (Z.ltb_spec (fst p) (fst q)); [lia|].
  destruct (Z.eqb_spec (fst p) (fst q)); [lia|discriminate].
Qed.

Lemma Sorted_map_fst (l : list (Z * string)) :
  Sorted (fun u v => Py.pair_leb u v = true) l -> Sorted Z.le (map fst l).
Proof.
  induction 1 as [|p l Hs IH Hhd]; cbn [map]; [constructor|].
  constructor; [exact IH|].
  destruct Hhd as [|q l Hpq]; cbn [map]; constructor.
  now apply pair_leb_fst.
Qed.

Lemma Forall2_of_pairs (P : string -> Z -> Prop) (l : list (Z * string)) :
  Forall (fun p => P (snd p) (fst p)) l -> Forall2 P (map snd l) (map fst l).
Proof. induction 1; cbn [map]; constructor; assumption. Qed.

(** *** The loop of [get_sequence_files] *)

Lemma collect_files_spec (fs : Fs.t) (im : t) (rx : string) (sort_files : bool) :
  forall names found,
    collect_files fs im rx sort_files names = Ok found ->
    (forall f, In f (map snd found)
               <-> In f names
                   /\ Fs.isfile fs (Fs.join (basedir (self im)) f) = true
                   /\ exists groups, Re.match_ rx f = Ok (Some groups))
    /\ (sort_files = true ->
        Forall (fun p => sequence_number rx (snd p) = Some (fst p)) found).
Proof.
  induction names as [|f names IH]; intros found H.
  - cbn in H. injection H as <-. split; [|constructor].
    intros f. cbn. tauto.
  - cbn [collect_files] in H.
    destruct (Fs.isfile fs (Fs.join (basedir (self im)) f)) eqn:Hfile;
      cbn [negb] in H.
    + destruct (Re.match_ rx f) as [[groups|]|e] eqn:Hm; cbn [bind] in H;
        [| |discriminate].
      * destruct (if sort_files then _ else _) as [num|e] eqn:Hnum;
          cbn [bind] in H; [|discriminate].
        destruct (collect_files fs im rx sort_files names) as [found'|e] eqn:Hc;
          cbn [bind] in H; [|discriminate].
        injection H as <-. destruct (IH _ eq_refl) as [Hin Hnums].
        split.
        -- intros f'. cbn [map snd In]. rewrite Hin. split.
           ++ intros [<-|(Hn & Hf & Hg)]; [eauto|auto].
           ++ intros ([<-|Hn] & Hf & Hg); auto.
        -- intros ->. constructor; [|now apply Hnums].
           cbn [fst snd]. unfold sequence_number. rewrite Hm.
           destruct (Re.group 1 groups) as [g|e]; cbn [bind] in Hnum;
             [|discriminate].
           now rewrite Hnum.
      * destruct (IH _ H) as [Hin Hnums]. split; [|exact Hnums].
        intros f'. rewrite Hin. cbn [In]. split.
        -- intros (Hn & Hf & Hg). auto.
        -- intros ([<-|Hn] & Hf & (groups & Hg)); [congruence|eauto].
    + destruct (IH _ H) as [Hin Hnums]. split; [|exact Hnums].
      intros f'. rewrite Hin. cbn [In]. split.
      * intros (Hn & Hf & Hg). auto.
      * intros ([<-|Hn] & Hf & Hg); [congruence|auto].
Qed.

End SortFacts.

Import Utils Notions Invariants InputOutput ImageSequence.
Import PyFacts SplitFacts DecimalFacts SpecifierFacts ScoringFacts StartFacts.
Import InitFacts ReFacts MatchFacts PatternFacts ListingFacts RenameFacts.
Import FsFacts DistanceFacts SortFacts.

(** X9. [fetch_dir] returns exactly the entries of the directory that
    [is_file] accepts under the restriction, whether it sorts or not;
    for a path that is not a directory it returns the empty list. *)
Theorem fetch_dir_lists_the_accepted_files (fs : Fs.t) (p : Fs.path)
  (restrict : restriction) (sort_files : bool) :
  (forall f, In f (fetch_dir fs p restrict sort_files)
             <-> Fs.isdir fs p = true
                 /\ In f (Fs.listdir fs p)
                 /\ is_file fs (Fs.join p f) restrict = true)
  /\ (Fs.isdir fs p = false -> fetch_dir fs p restrict sort_files = []).
Proof.
  unfold fetch_dir. destruct (Fs.isdir fs p); cbn [negb].
  - split; [|discriminate]. intros f.
    destruct (sort_files && _); rewrite ?In_sort, filter_In; tauto.
  - split; [|reflexivity]. intros f. cbn. split; [tauto|]. intros [H _]. discriminate.
Qed.

(** X10. With sorting, [fetch_dir] returns the names in ascending
    order of their bytes, and they are the names it returns without
    sorting, each as often. *)
Theorem fetch_dir_sorts_the_names (fs : Fs.t) (p : Fs.path)
  (restrict : restriction) :
  Sorted (fun a b => String.leb a b = true) (fetch_dir fs p restrict true)
  /\ Permutation (fetch_dir fs p restrict true) (fetch_dir fs p restrict false).
Proof.
  unfold fetch_dir. destruct (Fs.isdir fs p); cbn [negb andb].
  - destruct (0 <? _)%nat eqn:E.
    + split; [apply sort_Sorted, String.leb_total|apply sort_Permutation].
    + apply Nat.ltb_ge in E.
      destruct (filter _ _) as [|x l]; [|cbn in E; lia].
      split; [constructor|reflexivity].
  - split; [constructor|reflexivity].
Qed.

(** X11. The files a descriptor is built with always include the
    sample itself (the directory of the sample being a directory). *)
Theorem sample_is_among_the_files (fs : Fs.t) (path : Fs.path)
  (supp_formats : option (list string)) (im : t) :
  __init__ fs path supp_formats = Ok im ->
  Fs.isdir fs (fst (Fs.split path)) = true ->
  In (filename (self im)) (files (self im)) /\ 1 <= fcount (self im).
Proof.
  intros Hinit Hdir. apply init_inversion in Hinit.
  rewrite (con_split Hinit) in Hdir. cbn [fst] in Hdir.
  assert (Hin : In (filename (self im)) (files (self im))).
  { pose proof (con_digit Hinit) as Hd.
    assert (Hroot : root (self im) <> "").
    { intros E. rewrite E in Hd. discriminate. }
    assert (Hname : filename (self im) <> "").
    { intros E. pose proof (con_splitext Hinit) as Hs. rewrite E in Hs.
      cbn in Hs. congruence. }
    pose proof (split_join _ _ _ (con_split Hinit) Hname) as Hpath.
    pose proof (con_is_file Hinit) as Hfile.
    pose proof (is_file_isfile _ _ _ Hfile) as Hisfile.
    rewrite (con_files Hinit). unfold fetch_dir. rewrite Hdir. cbn [negb].
    assert (Hlist : In (filename (self im)) (Fs.listdir fs (basedir (self im)))).
    { apply (lookup_listdir _ _ _ Fs.File). rewrite <- Hpath.
      now apply isfile_lookup. }
    assert (Hacc : is_file fs (Fs.join (basedir (self im)) (filename (self im)))
                     (RStr (norm_ext (ext (self im)))) = true).
    { rewrite <- Hpath. unfold is_file in *.
      destruct (Fs.exists_ fs path); cbn [negb] in *; [|discriminate].
      rewrite Hisfile. cbn [negb].
      rewrite (con_split Hinit), (con_splitext Hinit).
      cbn [Py.mem]. now rewrite String.eqb_refl. }
    destruct (true && _); rewrite ?In_sort; apply filter_In; auto. }
  split; [exact Hin|]. rewrite (con_fcount Hinit).
  destruct (files (self im)); [destruct Hin|cbn; lia].
Qed.

Lemma sample_is_among_the_files_witness :
  exists im,
    __init__ Examples.lonely ["seq"; "single.png"] None = Ok im
    /\ In (filename (self im)) (files (self im)) /\ 1 <= fcount (self im).
Proof.
  eexists. split; [vm_compute; reflexivity|].
  apply (sample_is_among_the_files Examples.lonely ["seq"; "single.png"] None).
  - vm_compute. reflexivity.
  - reflexivity.
Defined.

(** X12. [get_sequence_files] returns exactly the entries of the base
    directory that are regular files and that the regular expression of
    the sequence matches; the base directory is then a directory. *)
Theorem get_sequence_files_are_the_matching_files (fs : Fs.t) (im : t)
  (sort_files : bool) (rx : string) (names : list string) :
  get_regex_filename im = Ok rx ->
  get_sequence_files fs im sort_files = Ok names ->
  Fs.isdir fs (basedir (self im)) = true
  /\ forall f,
       In f names
       <-> In f (Fs.listdir fs (basedir (self im)))
           /\ Fs.isfile fs (Fs.join (basedir (self im)) f) = true
           /\ exists groups, Re.match_ rx f = Ok (Some groups).
Proof.
  intros Hrx H. unfold get_sequence_files in H. rewrite Hrx in H.
  cbn [bind] in H. unfold Fs.os_listdir in H.
  destruct (Fs.isdir fs (basedir (self im))); cbn [bind] in H; [|discriminate].
  split; [reflexivity|].
  destruct (collect_files fs im rx sort_files _) as [found|e] eqn:Hc;
    cbn [bind] in H; [|discriminate].
  destruct (collect_files_spec _ _ _ _ _ _ Hc) as [Hin _].
  intros f. rewrite <- Hin.
  destruct (sort_files && _); injection H as <-; [|tauto].
  rewrite !in_map_iff. split; intros (p & Hp & Hf); exists p;
    (split; [exact Hp|]); now apply In_sort in Hf + apply In_sort.
Qed.

Lemma get_sequence_files_are_the_matching_files_witness :
  Fs.isdir Examples.three_frames (basedir (self Examples.sample_sequence)) = true
  /\ forall f,
       In f ["img_000.jpg"; "img_001.jpg"; "img_002.jpg"]
       <-> In f (Fs.listdir Examples.three_frames
                   (basedir (self Examples.sample_sequence)))
           /\ Fs.isfile Examples.three_frames
                (Fs.join (basedir (self Examples.sample_sequence)) f) = true
           /\ exists groups, Re.match_ "^img_(\d{3}).jpg$" f = Ok (Some groups).
Proof.
  apply (get_sequence_files_are_the_matching_files Examples.three_frames
           Examples.sample_sequence true "^img_(\d{3}).jpg$"
           ["img_000.jpg"; "img_001.jpg"; "img_002.jpg"]).
  - vm_compute. reflexivity.
  - vm_compute. reflexivity.
Defined.

(** X13. With sorting, [get_sequence_files] returns the files in the
    order of their sequence numbers: the numbers the names carry under
    the regular expression of the sequence never decrease along the
    list. *)
Theorem get_sequence_files_in_numeric_order (fs : Fs.t) (im : t)
  (rx : string) (names : list string) :
  get_regex_filename im = Ok rx ->
  get_sequence_files fs im true = Ok names ->
  exists nums,
    Forall2 (fun f n => sequence_number rx f = Some n) names nums
    /\ Sorted Z.le nums.
Proof.
  intros Hrx H. unfold get_sequence_files in H. rewrite Hrx in H.
  cbn [bind] in H.
  destruct (Fs.os_listdir fs (basedir (self im))) as [listed|e];
    cbn [bind] in H; [|discriminate].
  destruct (collect_files fs im rx true listed) as [found|e] eqn:Hc;
    cbn [bind andb] in H; [|discriminate].
  destruct (collect_files_spec _ _ _ _ _ _ Hc) as [_ Hnums].
  specialize (Hnums eq_refl).
  assert (Hsorted : names = map snd (Py.sort Py.pair_leb found)).
  { destruct (0 <? List.length found)%nat eqn:E; injection H as <-;
      [reflexivity|].
    apply Nat.ltb_ge in E. destruct found; [reflexivity|cbn in E; lia]. }
  subst names. exists (map fst (Py.sort Py.pair_leb found)). split.
  - apply (Forall2_of_pairs (fun f n => sequence_number rx f = Some n)).
    apply (Permutation_Forall (Permutation_sym (sort_Permutation _ _))).
    exact Hnums.
  - apply Sorted_map_fst, sort_Sorted, pair_leb_total.
Qed.

Lemma get_sequence_files_in_numeric_order_witness :
  __init__ Examples.unpadded ["seq"; "img_9.png"] None
  = Ok Examples.unpadded_sequence
  /\ exists nums,
       Forall2 (fun f n => sequence_number "^img_(\d+).png$" f = Some n)
               ["img_9.png"; "img_10.png"] nums
       /\ Sorted Z.le nums.
Proof.
  split; [vm_compute; reflexivity|].
  apply (get_sequence_files_in_numeric_order Examples.unpadded
           Examples.unpadded_sequence "^img_(\d+).png$"
           ["img_9.png"; "img_10.png"]).
  - vm_compute. reflexivity.
  - vm_compute. reflexivity.
Defined.

(** ** Rendering a pattern ([dfs_filename % i]) *)

Module FormatFacts.

Import Utils ImageSequence Notions Invariants.
Import PyFacts DecimalFacts SpecifierFacts ScoringFacts PatternFacts.
Import Py.

Lemma ascii_eqb_sym (a b : ascii) : Ascii.eqb a b = Ascii.eqb b a.
Proof.
  destruct (Ascii.eqb a b) eqn:E.
  - apply Ascii.eqb_eq in E. subst. symmetry. apply Ascii.eqb_refl.
  - destruct (Ascii.eqb b a) eqn:E'; [|reflexivity].
    apply Ascii.eqb_eq in E'. subst. rewrite Ascii.eqb_refl in E. discriminate.
Qed.

(** *** The state machine on a pattern with one specifier *)

Lemma format_literal (s : string) (used : bool) (i : Z) :
  contains_char "%" s = false ->
  forall rest,
    format_from FLit used (s ++ rest) i
    = (r <- format_from FLit used rest i ;; Ok (s ++ r)).
Proof.
  induction s as [|c s IH]; intros H rest.
  - cbn [append]. now destruct (format_from FLit used rest i).
  - cbn [contains_char] in H. apply orb_false_iff in H as [Hc H].
    cbn [append format_from]. rewrite ascii_eqb_sym, Hc, (IH H).
    now destruct (format_from FLit used rest i).
Qed.

Lemma format_literal_end (s : string) (i : Z) :
  contains_char "%" s = false -> format_from FLit true s i = Ok s.
Proof.
  intros H. pose proof (format_literal s true i H "") as E.
  rewrite append_nil_r in E. rewrite E. cbn [format_from bind].
  now rewrite append_nil_r.
Qed.

Lemma format_digits (digs : string) :
  all_chars is_digit digs = true ->
  forall ds used rest i,
    format_from (FSpec ds) used (digs ++ rest) i
    = format_from (FSpec (ds ++ digs)) used rest i.
Proof.
  induction digs as [|c digs IH]; intros H ds used rest i.
  - cbn [append]. now rewrite append_nil_r.
  - cbn [all_chars] in H. apply andb_true_iff in H as [Hc H].
    cbn [append format_from]. rewrite Hc, (IH H).
    now rewrite append_assoc.
Qed.

Lemma format_pattern (pre digs rest : string) (i : Z) :
  contains_char "%" pre = false ->
  all_chars is_digit digs = true ->
  contains_char "%" rest = false ->
  format (pre ++ String "%" (digs ++ "d") ++ rest) i
  = Ok (pre ++ render_int digs i ++ rest).
Proof.
  intros Hpre Hdigs Hrest. unfold format.
  rewrite (format_literal pre false i Hpre).
  cbn [append format_from]. rewrite Ascii.eqb_refl.
  rewrite append_assoc, (format_digits digs Hdigs).
  cbn [append format_from]. change (is_digit "d") with false.
  cbn [Ascii.eqb Bool.eqb andb]. rewrite (format_literal_end rest i Hrest).
  reflexivity.
Qed.

(** *** Digit strings and their values *)

Lemma digits_value_split (s : string) :
  forall a, digits_value a s = a * 10 ^ String.length s + digits_value 0 s.
Proof.
  induction s as [|c s IH]; intros a; cbn [digits_value String.length].
  - rewrite Nat.pow_0_r. lia.
  - rewrite IH, (IH (10 * 0 + digit_val c)), Nat.pow_succ_r'. lia.
Qed.

Lemma digits_value_bound (s : string) :
  all_chars is_digit s = true -> digits_value 0 s < 10 ^ String.length s.
Proof.
  induction s as [|c s IH]; intros H; cbn [digits_value String.length].
  - rewrite Nat.pow_0_r. lia.
  - cbn [all_chars] in H. apply andb_true_iff in H as [Hc H].
    specialize (IH H). pose proof (is_digit_val c Hc).
    rewrite digits_value_split, Nat.pow_succ_r'. nia.
Qed.

Lemma digit_val_inj (c d : ascii) :
  is_digit c = true -> is_digit d = true -> digit_val c = digit_val d -> c = d.
Proof.
  unfold is_digit, digit_val. intros Hc Hd E.
  apply andb_true_iff in Hc as [Hc _]. apply andb_true_iff in Hd as [Hd _].
  apply Nat.leb_le in Hc, Hd.
  rewrite <- (ascii_nat_embedding c), <- (ascii_nat_embedding d).
  f_equal. lia.
Qed.

Lemma digits_unique (s : string) :
  forall t,
    all_chars is_digit s = true -> all_chars is_digit t = true ->
    String.length s = String.length t ->
    digits_value 0 s = digits_value 0 t -> s = t.
Proof.
  induction s as [|c s IH]; intros [|d t] Hs Ht Hlen Hval;
    try discriminate; [reflexivity|].
  cbn [all_chars] in Hs, Ht.
  apply andb_true_iff in Hs as [Hc Hs]. apply andb_true_iff in Ht as [Hd Ht].
  cbn [String.length] in Hlen. injection Hlen as Hlen.
  cbn [digits_value] in Hval.
  rewrite (digits_value_split s), (digits_value_split t), Hlen in Hval.
  pose proof (digits_value_bound s Hs) as Bs.
  pose proof (digits_value_bound t Ht) as Bt.
  rewrite Hlen in Bs.
  remember (10 ^ String.length t) as P eqn:EP.
  remember (digits_value 0 s) as vs eqn:Evs.
  remember (digits_value 0 t) as vt eqn:Evt.
  remember (digit_val c) as a eqn:Ea.
  remember (digit_val d) as b eqn:Eb.
  assert (a = b) as Ec.
  { destruct (Nat.lt_trichotomy a b) as [L|[E|L]]; [nia|exact E|nia]. }
  assert (vs = vt) as Ev by nia.
  subst a b vs vt.
  f_equal; [now apply digit_val_inj|now apply IH].
Qed.

Lemma zeros_value (k : nat) (s : string) :
  digits_value 0 (repeat_char "0" k ++ s) = digits_value 0 s.
Proof. induction k; [reflexivity|exact IHk]. Qed.

Lemma zeros_digits (k : nat) : all_chars is_digit (repeat_char "0" k) = true.
Proof. induction k; [reflexivity|exact IHk]. Qed.

Lemma length_zeros (k : nat) : String.length (repeat_char "0" k) = k.
Proof. induction k; cbn; [reflexivity|now rewrite IHk]. Qed.

(** The decimal notation of a value is never longer than a digit string
    with that value. *)
Lemma str_nat_length_le (s : string) :
  isdigit s = true ->
  String.length (str_nat (digits_value 0 s)) <= String.length s.
Proof.
  intros H.
  assert (Hall : all_chars is_digit s = true)
    by (destruct s; [discriminate|exact H]).
  assert (Hne : 1 <= String.length s) by (destruct s; [discriminate|cbn; lia]).
  pose proof (digits_value_bound s Hall) as B.
  pose proof (str_nat_decimal (digits_value 0 s)) as D.
  destruct (Nat.eq_dec (digits_value 0 s) 0) as [E|E].
  - rewrite E. cbn. exact Hne.
  - pose proof (dec_lower D ltac:(lia)) as L.
    destruct (Nat.le_gt_cases (String.length (str_nat (digits_value 0 s)))
                (String.length s)) as [Hle|Hgt]; [exact Hle|].
    assert (10 ^ String.length s
            <= 10 ^ (String.length (str_nat (digits_value 0 s)) - 1))
      by (apply Nat.pow_le_mono_r; lia).
    lia.
Qed.

(** Padding the notation of its value with zeros gives a digit string
    back. *)
Lemma padded_digits (s : string) :
  isdigit s = true ->
  repeat_char "0" (String.length s - String.length (str_nat (digits_value 0 s)))
  ++ str_nat (digits_value 0 s) = s.
Proof.
  intros H.
  assert (Hall : all_chars is_digit s = true)
    by (destruct s; [discriminate|exact H]).
  pose proof (str_nat_length_le s H) as Hle.
  apply digits_unique.
  - rewrite all_chars_append, zeros_digits.
    apply (dec_digits (str_nat_decimal _)).
  - exact Hall.
  - rewrite length_append, length_zeros. lia.
  - now rewrite zeros_value, digits_value_str_nat.
Qed.

(** *** Rendering with a specifier *)

Lemma render_unpadded (n : nat) : render_int "" (Z.of_nat n) = str_nat n.
Proof.
  unfold render_int.
  replace (Z.of_nat n <? 0)%Z with false by (symmetry; apply Z.ltb_ge; lia).
  cbn [digits_value startswith String.length Nat.sub repeat_char append].
  now rewrite Zabs2Nat.id.
Qed.

Lemma render_padded (w n : nat) :
  render_int (String "0" (str_nat w)) (Z.of_nat n)
  = repeat_char "0" (w - String.length (str_nat n)) ++ str_nat n.
Proof.
  unfold render_int.
  replace (Z.of_nat n <? 0)%Z with false by (symmetry; apply Z.ltb_ge; lia).
  cbn [startswith Ascii.eqb Bool.eqb andb String.length append digits_value].
  change (10 * 0 + digit_val "0") with 0.
  now rewrite digits_value_str_nat, Zabs2Nat.id, Nat.sub_0_r.
Qed.

(** The digits between the percent sign and the letter of a specifier. *)
Lemma specifier_digits (w : nat) :
  exists digs,
    specifier w = String "%" (digs ++ "d")
    /\ all_chars is_digit digs = true
    /\ forall n, render_int digs (Z.of_nat n)
                 = repeat_char "0" (w - String.length (str_nat n)) ++ str_nat n.
Proof.
  destruct w as [|w].
  - exists "". repeat split. intros n. now rewrite render_unpadded.
  - exists (String "0" (str_nat (S w))). split; [now rewrite specifier_shape by lia|].
    split; [|intros n; apply render_padded].
    cbn [all_chars]. now rewrite (dec_digits (str_nat_decimal (S w))).
Qed.

(** A pattern with one specifier renders every number from zero on. *)
Lemma format_specifier (pre post : string) (w n : nat) :
  contains_char "%" pre = false -> contains_char "%" post = false ->
  format (pre ++ specifier w ++ post) (Z.of_nat n)
  = Ok (pre ++ (repeat_char "0" (w - String.length (str_nat n)) ++ str_nat n)
            ++ post).
Proof.
  intros Hpre Hpost. destruct (specifier_digits w) as (digs & -> & Hd & Hr).
  now rewrite format_pattern, Hr by assumption.
Qed.

(** Rendered with the value of [part], the pattern inferred from [part]
    gives [part] back. *)
Lemma format_round_trip (pre part post : string) :
  contains_char "%" pre = false -> contains_char "%" post = false ->
  isdigit part = true ->
  format (pre ++ specifier (width_of part) ++ post)
         (Z.of_nat (digits_value 0 part))
  = Ok (pre ++ part ++ post).
Proof.
  intros Hpre Hpost Hpart. rewrite format_specifier by assumption.
  do 3 f_equal. unfold width_of.
  destruct (1 <? String.length part)%nat eqn:E.
  - now apply padded_digits.
  - apply Nat.ltb_ge in E. rewrite <- (padded_digits part Hpart) at 3.
    pose proof (str_nat_length_le part Hpart).
    pose proof (dec_length (str_nat_decimal (digits_value 0 part))).
    replace (String.length part
             - String.length (str_nat (digits_value 0 part))) with 0 by lia.
    reflexivity.
Qed.

End FormatFacts.

(** ** Descriptors of a sequence *)

Module DescriptorFacts.

Import Utils Notions Invariants InputOutput ImageSequence.
Import PyFacts SplitFacts DecimalFacts SpecifierFacts ScoringFacts StartFacts.
Import InitFacts PatternFacts ListingFacts FsFacts FormatFacts.


(** What a parsed pattern looks like when the name holds no percent
    sign. *)
Lemma parsed_pattern (fs : Fs.t) (a : attrs) (dfs : string) (num : Z) :
  _parse_filename_pattern fs a true = Ok (dfs, num) ->
  String.concat "" (_get_body a) = root a ->
  Py.contains_char "%" (root a ++ ext a) = false ->
  exists pre part post,
    root a = pre ++ part ++ post
    /\ Py.isdigit part = true
    /\ dfs = pre ++ specifier (width_of part) ++ post ++ ext a
    /\ num = Z.of_nat (Py.digits_value 0 part)
    /\ Py.contains_char "%" pre = false
    /\ Py.contains_char "%" (post ++ ext a) = false.
Proof.
  intros Hparse Hcat Hpct.
  destruct (parse_pattern_shape _ _ _ _ Hparse Hcat)
    as (pre & part & post & R & D & P & N).
  exists pre, part, post. repeat (split; [assumption|]).
  rewrite R, !append_assoc, !contains_char_append in Hpct.
  apply orb_false_iff in Hpct as [Hpre Hpct].
  apply orb_false_iff in Hpct as [_ Hpct].
  split; [exact Hpre|]. now rewrite contains_char_append.
Qed.

(** *** Scanning below the sample *)

Lemma range_down_nonneg (a i : Z) : In i (Py.range_down a) -> (0 <= i <= a)%Z.
Proof.
  unfold Py.range_down. rewrite in_map_iff. intros (k & <- & Hk).
  apply in_seq in Hk. lia.
Qed.

Lemma scan_down_total (fs : Fs.t) (im : t) (candidates : list Z) :
  (forall i, In i candidates ->
     exists fname, Py.format (dfs_filename im) i = Ok fname) ->
  forall other, exists r, scan_down fs im candidates other = Ok r.
Proof.
  induction candidates as [|i rest IH]; intros H other; [now exists other|].
  cbn [scan_down]. destruct (H i (or_introl eq_refl)) as (fname & ->).
  cbn [bind]. apply IH. intros j Hj. apply H. now right.
Qed.

Lemma pattern_renders (im : t) (pre post : string) (w : nat) (i : Z) :
  dfs_filename im = pre ++ specifier w ++ post ->
  Py.contains_char "%" pre = false -> Py.contains_char "%" post = false ->
  (0 <= i)%Z ->
  exists fname, Py.format (dfs_filename im) i = Ok fname.
Proof.
  intros -> Hpre Hpost Hi. rewrite <- (Z2Nat.id i) by exact Hi.
  rewrite format_specifier by assumption. eauto.
Qed.

(** The scan returns when its counter is a C [long], and is an
    [OverflowError] otherwise. *)
Lemma get_start_number_total (fs : Fs.t) (im : t) (pre post : string) (w : nat) :
  dfs_filename im = pre ++ specifier w ++ post ->
  Py.contains_char "%" pre = false -> Py.contains_char "%" post = false ->
  if ((- Py.maxint <=? start_num im) && (start_num im <=? Py.maxint))%Z
  then exists start, get_start_number fs im = Ok start
  else get_start_number fs im = Raise OverflowError.
Proof.
  intros Hdfs Hpre Hpost. unfold get_start_number, starts_at_zero.
  destruct (start_num im =? 0)%Z eqn:Z0; cbn [negb bind].
  { apply Z.eqb_eq in Z0. rewrite Z0. cbn. eauto. }
  rewrite xrange_down.
  replace (- Py.maxint - 1 <=? start_num im - 1)%Z
    with (- Py.maxint <=? start_num im)%Z
    by (destruct (- Py.maxint <=? start_num im)%Z eqn:A; symmetry;
        [apply Z.leb_le; apply Z.leb_le in A|apply Z.leb_gt; apply Z.leb_gt in A];
        lia).
  replace (start_num im - 1 <? Py.maxint)%Z with (start_num im <=? Py.maxint)%Z
    by (destruct (start_num im <=? Py.maxint)%Z eqn:A; symmetry;
        [apply Z.ltb_lt; apply Z.leb_le in A|apply Z.ltb_ge; apply Z.leb_gt in A];
        lia).
  destruct ((- Py.maxint <=? start_num im) && (start_num im <=? Py.maxint))%Z;
    cbn [bind]; [|reflexivity].
  destruct (scan_down_total fs im (Py.range_down (start_num im - 1))) with (other := (-1)%Z)
    as (r & ->).
  - intros i Hi. apply range_down_nonneg in Hi.
    apply (pattern_renders im pre post w); [assumption..|lia].
  - cbn [bind]. eauto.
Qed.

(** A start number that was found is a C [long]. *)
Lemma get_start_number_fits (fs : Fs.t) (im : t) (r : Z) :
  get_start_number fs im = Ok r ->
  ((- Py.maxint <=? r) && (r <=? Py.maxint))%Z = true.
Proof.
  intros H. pose proof (get_start_number_first _ _ _ H) as F.
  unfold get_start_number, starts_at_zero in H.
  apply andb_true_iff. rewrite !Z.leb_le.
  destruct (start_num im =? 0)%Z eqn:Z0; cbn [negb bind] in H.
  - apply Z.eqb_eq in Z0. injection H as <-. rewrite Z0.
    unfold Py.maxint. cbn. split; lia.
  - destruct (Py.xrange (start_num im - 1) (-1) (-1)) as [l|e] eqn:X;
      cbn [bind] in H; [|discriminate].
    rewrite xrange_down in X.
    destruct (- Py.maxint - 1 <=? start_num im - 1)%Z eqn:A; [|discriminate].
    destruct (start_num im - 1 <? Py.maxint)%Z eqn:B; [|discriminate].
    apply Z.leb_le in A. apply Z.ltb_lt in B.
    destruct F as [(Hr & _)|[-> _]]; unfold Py.maxint in *; lia.
Qed.

(** Below the first number on disk the scan finds nothing. *)
Lemma get_start_number_again (fs : Fs.t) (im0 im : t) :
  self im = self im0 -> dfs_filename im = dfs_filename im0 ->
  get_start_number fs im0 = Ok (start_num im) ->
  (exists start, get_start_number fs im = Ok start) ->
  get_start_number fs im = Ok (start_num im).
Proof.
  intros Hself Hdfs H0 (start & H).
  apply get_start_number_first in H0.
  pose proof (get_start_number_first _ _ _ H) as H1.
  rewrite Hself, Hdfs in H1. rewrite H. f_equal.
  destruct H1 as [(Hr & Hon & _)|[-> _]]; [|reflexivity].
  destruct H0 as [(_ & _ & Hbelow)|[E Hbelow]].
  - rewrite Hbelow in Hon by lia. discriminate.
  - rewrite Hbelow in Hon by lia. discriminate.
Qed.

(** *** The loop of [detect_gaps] *)

Lemma missing_from_spec (im : t) :
  forall numbers missing,
    missing_from im numbers = Ok missing ->
    forall f, In f missing
              <-> exists i, In i numbers
                            /\ Py.format (dfs_filename im) i = Ok f
                            /\ ~ In f (files (self im)).
Proof.
  induction numbers as [|i rest IH]; intros missing H f.
  - cbn in H. injection H as <-. cbn. split; [tauto|]. intros (i & [] & _).
  - cbn [missing_from] in H.
    destruct (Py.format (dfs_filename im) i) as [fname|e] eqn:F;
      cbn [bind] in H; [|discriminate].
    destruct (missing_from im rest) as [more|e]; cbn [bind] in H; [|discriminate].
    specialize (IH more eq_refl f).
    destruct (Py.mem fname (files (self im))) eqn:M; cbn [negb] in H;
      injection H as <-.
    + rewrite IH. split.
      * intros (j & Hj & Hf & Hn). exists j. split; [now right|auto].
      * intros (j & [<-|Hj] & Hf & Hn); [|eauto].
        rewrite F in Hf. injection Hf as <-. apply mem_In in M. contradiction.
    + cbn [In]. rewrite IH. split.
      * intros [<-|(j & Hj & Hf & Hn)].
        -- exists i. split; [now left|]. split; [exact F|].
           intros Hin. apply mem_In in Hin. congruence.
        -- exists j. split; [now right|auto].
      * intros (j & [<-|Hj] & Hf & Hn); [left; congruence|right; eauto].
Qed.

Lemma missing_from_total (im : t) (numbers : list Z) :
  (forall i, In i numbers ->
     exists fname, Py.format (dfs_filename im) i = Ok fname) ->
  exists missing, missing_from im numbers = Ok missing.
Proof.
  induction numbers as [|i rest IH]; intros H; [now exists []|].
  cbn [missing_from]. destruct (H i (or_introl eq_refl)) as (fname & ->).
  cbn [bind]. destruct IH as (more & ->); [intros j Hj; apply H; now right|].
  cbn [bind]. eauto.
Qed.

Lemma range_bounds (a b i : Z) : In i (Py.range a b) <-> (a <= i < b)%Z.
Proof.
  unfold Py.range. rewrite in_map_iff. split.
  - intros (k & <- & Hk). apply in_seq in Hk. lia.
  - intros Hi. exists (Z.to_nat (i - a)). split; [lia|]. apply in_seq. lia.
Qed.

(** *** Parsing raises one exception only *)


(** The start number of a constructed descriptor is found again. *)
Lemma constructed_start_number (fs : Fs.t) (path : Fs.path)
  (supp_formats : option (list string)) (im : t) :
  __init__ fs path supp_formats = Ok im ->
  get_start_number fs im = Ok (start_num im).
Proof.
  intros Hinit. apply init_inversion in Hinit.
  destruct (con_cases Hinit) as [[_ Him]|(_ & dfs & num & Hparse & Hfirst & Him)].
  - rewrite Him. reflexivity.
  - pose proof (splitext_append _ _ _ (con_splitext Hinit)) as Hname.
    pose proof (con_percent Hinit) as Hpct. rewrite <- Hname in Hpct.
    destruct (parsed_pattern _ _ _ _ Hparse (body_of_constructed _ _ _ _ Hinit) Hpct)
      as (pre & part & post & R & D & P & N & Hpre & Hpost).
    match type of Hfirst with
    | get_start_number fs ?i0 = _ =>
        apply (get_start_number_again fs i0 im); [now rewrite Him..|exact Hfirst|]
    end.
    pose proof (get_start_number_total fs im pre (post ++ ext (self im))
                  (width_of part)) as T.
    rewrite (get_start_number_fits _ _ _ Hfirst) in T.
    apply T; [|assumption..].
    rewrite Him. exact P.
Qed.

(** The start number of a constructed descriptor is a C [long], so
    [xrange] takes it wherever the descriptor counts from it. *)
Lemma constructed_start_fits (fs : Fs.t) (path : Fs.path)
  (supp_formats : option (list string)) (im : t) :
  __init__ fs path supp_formats = Ok im ->
  Py.fits_long (start_num im) = true.
Proof.
  intros Hinit.
  pose proof (get_start_number_fits _ _ _
                (constructed_start_number _ _ _ _ Hinit)) as F.
  unfold Py.fits_long. apply andb_true_iff in F as [Lo Hi].
  apply andb_true_iff. split; [|exact Hi].
  apply Z.leb_le. apply Z.leb_le in Lo. lia.
Qed.

End DescriptorFacts.

Import Utils Notions Invariants InputOutput ImageSequence.
Import PyFacts SplitFacts DecimalFacts SpecifierFacts ScoringFacts StartFacts.
Import InitFacts ReFacts MatchFacts PatternFacts ListingFacts RenameFacts.
Import FsFacts DistanceFacts SortFacts FormatFacts DescriptorFacts.

(** X14. The pattern inferred for a sequence, rendered with the number
    read from the sample, gives the sample's file name back. *)
Theorem inferred_pattern_renders_the_sample (fs : Fs.t) (path : Fs.path)
  (supp_formats : option (list string)) (im : t) :
  __init__ fs path supp_formats = Ok im ->
  (0 <= start_num im)%Z ->
  exists sample,
    _parse_filename_pattern fs (self im) true = Ok (dfs_filename im, sample)
    /\ (0 <= sample)%Z
    /\ Py.format (dfs_filename im) sample = Ok (filename (self im)).
Proof.
  intros Hinit Hstart. apply init_inversion in Hinit.
  destruct (con_cases Hinit) as [[_ Him]|(_ & dfs & num & Hparse & _ & Him)].
  { rewrite Him in Hstart. cbn in Hstart. lia. }
  pose proof (splitext_append _ _ _ (con_splitext Hinit)) as Hname.
  pose proof (con_percent Hinit) as Hpct. rewrite <- Hname in Hpct.
  destruct (parsed_pattern _ _ _ _ Hparse (body_of_constructed _ _ _ _ Hinit) Hpct)
    as (pre & part & post & R & D & P & N & Hpre & Hpost).
  exists num. rewrite Him. cbn [dfs_filename self].
  split; [exact Hparse|]. split; [lia|].
  rewrite P, N, <- Hname, R.
  rewrite (format_round_trip pre part (post ++ ext (self im))) by assumption.
  now rewrite !append_assoc.
Qed.

Lemma inferred_pattern_renders_the_sample_witness :
  exists sample,
    _parse_filename_pattern Examples.unpadded (self Examples.unpadded_sequence) true
    = Ok (dfs_filename Examples.unpadded_sequence, sample)
    /\ (0 <= sample)%Z
    /\ Py.format (dfs_filename Examples.unpadded_sequence) sample
       = Ok (filename (self Examples.unpadded_sequence)).
Proof.
  apply (inferred_pattern_renders_the_sample Examples.unpadded
           ["seq"; "img_9.png"] None Examples.unpadded_sequence).
  - vm_compute. reflexivity.
  - vm_compute. discriminate.
Defined.

(** X15. Asking a descriptor again for its start number changes
    nothing: on the file system it was built from, [get_start_number]
    returns the start number it holds. *)
Theorem get_start_number_is_idempotent (fs : Fs.t) (path : Fs.path)
  (supp_formats : option (list string)) (im : t) :
  __init__ fs path supp_formats = Ok im ->
  get_start_number fs im = Ok (start_num im).
Proof. apply constructed_start_number. Qed.

Lemma get_start_number_is_idempotent_witness :
  exists im,
    __init__ Examples.gap_below ["seq"; "img_003.jpg"] (Some ["JPG"]) = Ok im
    /\ start_num im = 0%Z
    /\ get_start_number Examples.gap_below im = Ok (start_num im).
Proof.
  eexists. split; [vm_compute; reflexivity|]. split; [reflexivity|].
  apply (get_start_number_is_idempotent Examples.gap_below
           ["seq"; "img_003.jpg"] (Some ["JPG"])).
  vm_compute. reflexivity.
Defined.



(** X17. For a descriptor that was constructed, [detect_gaps] returns:
    [None], or a non-empty list; the list holds exactly the renderings
    of the numbers from the start number up to the file count (itself
    left out) that are not among the files. *)
Theorem detect_gaps_reports_the_missing_renderings (fs : Fs.t) (path : Fs.path)
  (supp_formats : option (list string)) (im : t) :
  __init__ fs path supp_formats = Ok im ->
  exists gaps,
    detect_gaps im = Ok gaps
    /\ gaps <> Some []
    /\ forall f,
         In f (match gaps with Some l => l | None => [] end)
         <-> exists i, (0 <= start_num im <= i)%Z
                       /\ (i < Z.of_nat (List.length (files (self im))))%Z
                       /\ Py.format (dfs_filename im) i = Ok f
                       /\ ~ In f (files (self im)).
Proof.
  intros Hinit. apply init_inversion in Hinit. unfold detect_gaps.
  destruct (Z.ltb_spec (start_num im) 0) as [Hneg|Hpos].
  - exists None. split; [reflexivity|]. split; [discriminate|].
    intros f. cbn. split; [tauto|]. intros (i & Hi & _). lia.
  - destruct (con_cases Hinit) as [[_ Him]|(_ & dfs & num & Hparse & _ & Him)].
    { rewrite Him in Hpos. cbn in Hpos. lia. }
    pose proof (splitext_append _ _ _ (con_splitext Hinit)) as Hname.
    pose proof (con_percent Hinit) as Hpct. rewrite <- Hname in Hpct.
    destruct (parsed_pattern _ _ _ _ Hparse (body_of_constructed _ _ _ _ Hinit) Hpct)
      as (pre & part & post & R & D & P & N & Hpre & Hpost).
    assert (Hdfs : dfs_filename im
                   = pre ++ specifier (width_of part) ++ post ++ ext (self im)).
    { rewrite Him. exact P. }
    destruct (missing_from_total im
                (Py.range (start_num im) (Z.of_nat (List.length (files (self im))))))
      as (missing & Hm).
    { intros i Hi. apply range_bounds in Hi.
      apply (pattern_renders im pre (post ++ ext (self im)) (width_of part));
        [assumption..|lia]. }
    rewrite Hm. cbn [bind].
    pose proof (missing_from_spec _ _ _ Hm) as Hspec.
    assert (Hequiv : forall f,
               In f missing
               <-> exists i, (0 <= start_num im <= i)%Z
                             /\ (i < Z.of_nat (List.length (files (self im))))%Z
                             /\ Py.format (dfs_filename im) i = Ok f
                             /\ ~ In f (files (self im))).
    { intros f. rewrite Hspec. split.
      - intros (i & Hi & Hf & Hn). apply range_bounds in Hi.
        exists i. repeat split; try assumption; lia.
      - intros (i & Hi & Hlt & Hf & Hn). exists i.
        split; [apply range_bounds; lia|auto]. }
    destruct missing as [|m more].
    + exists None. split; [reflexivity|]. split; [discriminate|exact Hequiv].
    + exists (Some (m :: more)). split; [reflexivity|].
      split; [discriminate|exact Hequiv].
Qed.

Lemma detect_gaps_reports_the_missing_renderings_witness :
  exists gaps,
    detect_gaps Examples.unpadded_sequence = Ok gaps
    /\ gaps <> Some []
    /\ forall f,
         In f (match gaps with Some l => l | None => [] end)
         <-> exists i, (0 <= start_num Examples.unpadded_sequence <= i)%Z
                       /\ (i < Z.of_nat (List.length
                                (files (self Examples.unpadded_sequence))))%Z
                       /\ Py.format (dfs_filename Examples.unpadded_sequence) i = Ok f
                       /\ ~ In f (files (self Examples.unpadded_sequence)).
Proof.
  apply (detect_gaps_reports_the_missing_renderings Examples.unpadded
           ["seq"; "img_9.png"] None Examples.unpadded_sequence).
  vm_compute. reflexivity.
Defined.

(** ** Finding the specifiers ([utils.extract_digit_format_specifiers]) *)

Module ExtractFacts.

Import Utils Notions Invariants.
Import PyFacts DecimalFacts SpecifierFacts MatchFacts.
Import Py.

(** *** [str.find] *)

Lemma find_occurrence (sub : string) (s : string) :
  forall k, find sub s = Some k -> startswith sub (drop k s) = true.
Proof.
  induction s as [|c s IH]; intros k; cbn [find].
  - destruct (startswith sub "") eqn:E; [|discriminate].
    intros H. injection H as <-. exact E.
  - destruct (startswith sub (String c s)) eqn:E.
    + intros H. injection H as <-. exact E.
    + destruct (find sub s) as [j|]; cbn [option_map]; [|discriminate].
      intros H. injection H as <-. cbn [drop]. now apply IH.
Qed.

Lemma find_finds (sub pre post : string) :
  exists k, find sub (pre ++ sub ++ post) = Some k.
Proof.
  induction pre as [|c pre (k & IH)]; cbn [append].
  - exists 0. destruct (sub ++ post) eqn:E; cbn [find];
      rewrite <- E, startswith_append; reflexivity.
  - cbn [find]. destruct (startswith sub _); [now exists 0|].
    rewrite IH. now exists (S k).
Qed.

Lemma startswith_take (sub s : string) :
  startswith sub s = true -> take (String.length sub) s = sub.
Proof.
  revert s. induction sub as [|a sub IH]; intros [|b s] H; cbn in *;
    try reflexivity; try discriminate.
  apply andb_true_iff in H as [Hab H]. apply Ascii.eqb_eq in Hab. subst b.
  now rewrite IH.
Qed.

Lemma find_slice (sub s : string) (k : nat) :
  find sub s = Some k -> slice k (k + String.length sub) s = sub.
Proof.
  intros H. apply find_occurrence in H. unfold slice.
  replace (k + String.length sub - k) with (String.length sub) by lia.
  now apply startswith_take.
Qed.

(** *** What the scanner finds occurs in the text *)

Lemma findall_sound (s : string) :
  forall st spec,
    In spec (findall_dfs_from st s) ->
    match st with
    | Outside =>
        exists pre digs post,
          s = pre ++ spec ++ post /\ spec = String "%" (digs ++ "d")
          /\ all_chars is_digit digs = true
    | InSpec ds =>
        (exists pre digs post,
            s = pre ++ spec ++ post /\ spec = String "%" (digs ++ "d")
            /\ all_chars is_digit digs = true)
        \/ (exists digs post,
               s = digs ++ String "d" post
               /\ spec = String "%" (ds ++ digs ++ "d")
               /\ all_chars is_digit digs = true)
    end.
Proof.
  induction s as [|c s IH]; intros st spec H; [destruct st; destruct H|].
  assert (Hshift : (exists pre digs post,
                       s = pre ++ spec ++ post /\ spec = String "%" (digs ++ "d")
                       /\ all_chars is_digit digs = true) ->
                   exists pre digs post,
                     String c s = pre ++ spec ++ post
                     /\ spec = String "%" (digs ++ "d")
                     /\ all_chars is_digit digs = true).
  { intros (pre & digs & post & -> & E & D).
    exists (String c pre), digs, post. auto. }
  assert (Hstart : (exists digs post,
                       s = digs ++ String "d" post
                       /\ spec = String "%" ("" ++ digs ++ "d")
                       /\ all_chars is_digit digs = true) ->
                   Ascii.eqb c "%" = true ->
                   exists pre digs post,
                     String c s = pre ++ spec ++ post
                     /\ spec = String "%" (digs ++ "d")
                     /\ all_chars is_digit digs = true).
  { intros (digs & post & -> & -> & D) Hc. apply Ascii.eqb_eq in Hc. subst c.
    exists "", digs, post. cbn [append]. rewrite append_assoc. auto. }
  destruct st as [|ds]; cbn [findall_dfs_from] in H.
  - destruct (Ascii.eqb c "%") eqn:Hc.
    + apply IH in H. destruct H as [H|H]; [now apply Hshift|now apply Hstart].
    + apply IH in H. now apply Hshift.
  - destruct (is_digit c) eqn:Hd.
    + apply IH in H. destruct H as [H|(digs & post & -> & -> & D)].
      * left. now apply Hshift.
      * right. exists (String c digs), post. cbn [append all_chars].
        rewrite Hd, D, append_assoc. auto.
    + destruct (Ascii.eqb c "d") eqn:Hdd.
      * apply Ascii.eqb_eq in Hdd. subst c. destruct H as [<-|H].
        -- right. exists "", s. auto.
        -- apply IH in H. left. now apply Hshift.
      * destruct (Ascii.eqb c "%") eqn:Hc.
        -- apply IH in H. left.
           destruct H as [H|H]; [now apply Hshift|now apply Hstart].
        -- apply IH in H. left. now apply Hshift.
Qed.

Lemma specifier_alone (digs : string) :
  all_chars is_digit digs = true ->
  is_specifier (String "%" (digs ++ "d")) = true.
Proof.
  intros D. unfold is_specifier.
  pose proof (findall_one "" digs "" eq_refl eq_refl D) as H.
  cbn [append] in H. rewrite append_nil_r in H. rewrite H.
  apply String.eqb_refl.
Qed.

Lemma found_occurs (s spec : string) :
  In spec (findall_dfs s) ->
  occurs_at s spec (find_z spec s) /\ is_specifier spec = true.
Proof.
  intros H. apply (findall_sound s Outside) in H.
  destruct H as (pre & digs & post & Hs & Hspec & D).
  split; [|rewrite Hspec; now apply specifier_alone].
  unfold occurs_at, find_z.
  destruct (find_finds spec pre post) as (k & Hk). rewrite <- Hs in Hk.
  rewrite Hk. split; [lia|]. rewrite Nat2Z.id. now apply find_slice.
Qed.

End ExtractFacts.

Import Utils Notions Invariants InputOutput ImageSequence.
Import PyFacts SplitFacts DecimalFacts SpecifierFacts ScoringFacts StartFacts.
Import InitFacts ReFacts MatchFacts PatternFacts ListingFacts RenameFacts.
Import FsFacts DistanceFacts SortFacts FormatFacts DescriptorFacts ExtractFacts.

(** X18. [extract_digit_format_specifiers] returns [(None, None)]
    exactly for a text without specifier; a single index and specifier
    when there is one, lists when there are several.  Every specifier it
    returns is a percent sign, digits and the letter d, and the index
    given with it is a position at which it occurs in the text (never
    [-1]). *)
Theorem extracted_specifiers_occur_at_their_indices (filename : string) :
  match extract_digit_format_specifiers filename with
  | NoDfs => has_digit_format_specifier filename = false
  | OneDfs index spec =>
      occurs_at filename spec index /\ is_specifier spec = true
      /\ findall_dfs filename = [spec]
  | ManyDfs indices specs =>
      Forall2 (fun index spec =>
                 occurs_at filename spec index /\ is_specifier spec = true)
              indices specs
      /\ 2 <= List.length specs
      /\ findall_dfs filename = specs
  end.
Proof.
  unfold extract_digit_format_specifiers, has_digit_format_specifier.
  assert (Hall : forall l,
             (forall spec, In spec l -> In spec (findall_dfs filename)) ->
             Forall2 (fun index spec =>
                        occurs_at filename spec index /\ is_specifier spec = true)
                     (map (fun spec => find_z spec filename) l) l).
  { induction l as [|x l IH]; intros H; cbn [map]; constructor.
    - apply found_occurs, H. now left.
    - apply IH. intros spec Hs. apply H. now right. }
  specialize (Hall (findall_dfs filename) (fun _ H => H)).
  destruct (findall_dfs filename) as [|x [|y l]] eqn:E; cbn [negb map] in *.
  - reflexivity.
  - inversion Hall as [|? ? ? ? [Ho Hs] _]. auto.
  - split; [exact Hall|]. split; [cbn; lia|reflexivity].
Qed.

(** X19. [split_at_digit] raises [IndexError] for the empty root and for
    no other; with [join_mid] the midsection is one string (or absent),
    and head, midsection and tail still concatenate to the root. *)
Theorem split_at_digit_joins_the_midsection (root : string) (join_mid : bool) :
  (root = "" -> split_at_digit root join_mid = Raise IndexError)
  /\ (root <> "" ->
      exists d,
        split_at_digit root join_mid = Ok d
        /\ String.concat "" (segments d) = root
        /\ (join_mid = true ->
            match Utils.mid d with
            | Some (MidList _) => False
            | _ => True
            end)).
Proof.
  split; [intros ->; reflexivity|]. intros Hroot.
  destruct (split_at_digit_total root Hroot) as (d0 & Hd0 & Hcat & _).
  unfold split_at_digit in *. destruct root as [|c rest]; [congruence|].
  destruct (split_loop rest (Py.is_digit c) [String c ""] 0) as [l|e];
    cbn [bind] in *; [|discriminate].
  injection Hd0 as <-. eexists. split; [reflexivity|].
  destruct join_mid; [|split; [exact Hcat|discriminate]].
  destruct l as [|x [|y [|z l]]]; try (split; [exact Hcat|exact (fun _ => I)]).
  revert Hcat. unfold segments, sort_root.
  cbn [Utils.head Utils.mid Utils.tail hd tl List.length Nat.ltb Nat.leb].
  destruct (removelast (y :: z :: l)) as [|m [|m' ms]];
    intros Hcat; (split; [|exact (fun _ => I)]); try exact Hcat.
  rewrite <- Hcat.
  rewrite (concat_cons x), (concat_cons x), !concat_app.
  rewrite (concat_cons (String.concat "" (m :: m' :: ms)) []).
  cbn [String.concat]. now rewrite append_nil_r.
Qed.

(** ** Renaming ([InputOutput.rename_sequence_files]) *)

Import Utils Notions Invariants ImageSequence InputOutput.
Import PyFacts ListingFacts RenameFacts RemovalFacts FsFacts.

(** X20. When renaming a sequence succeeds, the temporary directory it
    worked in no longer exists, and at least one file was staged: the
    staging step ended with a count above the start number. *)
Theorem successful_rename_leaves_no_staging_directory
  (denied : Fs.path -> bool) (io : InputOutput.t)
  (sequence : ImageSequence.t) (start_num start : Z) (now : string)
  (fs fs' : Fs.t) :
  let tmp_dir := Fs.join (input_dir io) ("tmp" ++ now) in
  im io = Some sequence ->
  ImageSequence.get_start_number fs sequence = Ok start ->
  (0 <= start)%Z ->
  rename_sequence_files denied io start_num now fs = (fs', Ok tt) ->
  Fs.exists_ fs' tmp_dir = false
  /\ exists fs1 count paths,
       staging_step io sequence start_num tmp_dir fs = (fs1, Ok (count, paths))
       /\ (start_num < count)%Z.
Proof.
  cbv zeta. intros Him Hstart Hpos H.
  set (tmp_dir := Fs.join (input_dir io) ("tmp" ++ now)) in *.
  unfold rename_sequence_files in H. rewrite Him in H.
  apply cbind_ok in H as (start' & fs0 & Hs & H).
  rewrite Hstart in Hs. apply pure_ok in Hs as [-> Hs]. injection Hs as <-.
  replace (start <? 0)%Z with false in H by (symmetry; apply Z.ltb_ge; lia).
  fold tmp_dir in H.
  apply cbind_ok in H as ([count paths] & fs1 & Hstage & H).
  destruct (count - start_num =? 0)%Z eqn:E.
  - apply cbind_ok in H as (same & fs2 & _ & H).
    apply cbind_ok in H as (rc & fs3 & _ & H).
    apply cbind_ok in H as (msg & fs4 & _ & H).
    apply cbind_ok in H as (e & fs5 & _ & H).
    apply cbind_ok in H as (u & fs6 & _ & H).
    apply cbind_ok in H as (text & fs7 & _ & H). discriminate.
  - apply Z.eqb_neq in E.
    apply cbind_ok in H as (moved & fs2 & Hcommit & H).
    destruct (moved =? 0)%Z.
    { apply cbind_ok in H as (text & fs3 & _ & H). discriminate. }
    split.
    + pose proof (join_not_root (input_dir io) ("tmp" ++ now)) as Hne.
      fold tmp_dir in Hne.
      destruct (Fs.exists_ fs2 tmp_dir) eqn:Hex.
      * pose proof (delete_exists _ _ _ _ Hex H) as Hgone.
        unfold Fs.exists_. destruct tmp_dir; [congruence|]. now rewrite Hgone.
      * unfold delete in H. rewrite Hex in H. discriminate.
    + exists fs1, count, paths. split; [exact Hstage|].
      unfold staging_step in Hstage.
      apply cbind_ok in Hstage as (u & fs0 & _ & Hstage).
      apply cbind_ok in Hstage as (files & fs0' & Hm & Hstage).
      apply pure_ok in Hm as [-> _].
      apply cbind_ok in Hstage as (re_fname & fs0' & Hm & Hstage).
      apply pure_ok in Hm as [-> _].
      apply stage_count in Hstage. lia.
Qed.

Lemma successful_rename_leaves_no_staging_directory_witness :
  Fs.exists_ [(["seq"; "img_7.jpg"], Fs.File); (["seq"; "img_6.jpg"], Fs.File);
              (["seq"; "img_5.jpg"], Fs.File); (["seq"], Fs.Dir)]
             (Fs.join (input_dir (Examples.sample_io ["seq"])) ("tmp" ++ "210308120000"))
  = false
  /\ exists fs1 count paths,
       staging_step (Examples.sample_io ["seq"]) Examples.sample_sequence 5
         (Fs.join (input_dir (Examples.sample_io ["seq"])) ("tmp" ++ "210308120000"))
         Examples.three_frames
       = (fs1, Ok (count, paths))
       /\ (5 < count)%Z.
Proof.
  apply (successful_rename_leaves_no_staging_directory Examples.permissive
           (Examples.sample_io ["seq"]) Examples.sample_sequence 5 0
           "210308120000" Examples.three_frames).
  - reflexivity.
  - reflexivity.
  - lia.
  - vm_compute. reflexivity.
Defined.

(** ** Stripping the specifier ([utils.strip_digit_format_specifier]) *)

Module StripFacts.

Import Utils Notions Invariants.
Import PyFacts DecimalFacts SpecifierFacts MatchFacts PatternFacts ExtractFacts.
Import Py.

(** *** Runs of class characters *)

Lemma take_while_lstrip (p : ascii -> bool) (s : string) :
  take_while p s ++ lstrip p s = s.
Proof.
  induction s as [|c s IH]; [reflexivity|]. cbn [take_while lstrip].
  destruct (p c); [|reflexivity]. cbn [append]. now rewrite IH.
Qed.

Lemma take_while_all (p : ascii -> bool) (s : string) :
  all_chars p (take_while p s) = true.
Proof.
  induction s as [|c s IH]; [reflexivity|]. cbn [take_while].
  destruct (p c) eqn:E; [|reflexivity]. cbn [all_chars]. now rewrite E, IH.
Qed.

Lemma search_head_spec (cls : list ascii) (s : string) :
  match search_head cls s with
  | Some run =>
      run <> "" /\ s = run ++ sub_head cls s
      /\ all_chars (in_class cls) run = true
  | None => sub_head cls s = s
  end.
Proof.
  unfold search_head, sub_head.
  pose proof (take_while_lstrip (in_class cls) s) as E.
  pose proof (take_while_all (in_class cls) s) as A.
  destruct (take_while (in_class cls) s) as [|c run].
  - exact E.
  - split; [discriminate|]. split; [now rewrite E|exact A].
Qed.

Lemma last_char_newline (s : string) (c : ascii) :
  contains_char (ascii_of_nat 10) s = false -> last_char s = Some c ->
  Ascii.eqb c (ascii_of_nat 10) = false.
Proof.
  induction s as [|a s IH]; [discriminate|].
  cbn [contains_char]. intros H. apply orb_false_iff in H as [Ha H].
  cbn [last_char]. destruct s as [|b s].
  - intros E. injection E as <-. now rewrite Ascii.eqb_sym.
  - now apply IH.
Qed.

Lemma at_dollar_plain (cls : list ascii) (s : string) :
  contains_char (ascii_of_nat 10) s = false -> at_dollar cls s = (s, "").
Proof.
  intros H. unfold at_dollar. destruct (last_char s) as [c|] eqn:E; [|reflexivity].
  now rewrite (last_char_newline s c H E).
Qed.

Lemma search_tail_spec (cls : list ascii) (s : string) :
  contains_char (ascii_of_nat 10) s = false ->
  match search_tail cls s with
  | Some run =>
      run <> "" /\ s = sub_tail cls s ++ run
      /\ all_chars (in_class cls) run = true
  | None => sub_tail cls s = s
  end.
Proof.
  intros H. unfold search_tail, sub_tail. rewrite (at_dollar_plain cls s H).
  rewrite append_nil_r. unfold rstrip.
  pose proof (take_while_lstrip (in_class cls) (rev s)) as E.
  pose proof (take_while_all (in_class cls) (rev s)) as A.
  apply (f_equal rev) in E. rewrite rev_append, DecimalFacts.rev_involutive in E.
  rewrite <- all_chars_rev in A.
  destruct (rev (take_while (in_class cls) (rev s))) as [|c run].
  - now rewrite append_nil_r in E.
  - split; [discriminate|]. split; [now rewrite E|exact A].
Qed.

Lemma length_all (run rest : string) :
  (String.length (run ++ rest) =? String.length run)%nat = true -> rest = "".
Proof.
  rewrite length_append. intros H. apply Nat.eqb_eq in H.
  destruct rest; [reflexivity|cbn in H; lia].
Qed.

Lemma length_all_r (rest run : string) :
  (String.length (rest ++ run) =? String.length run)%nat = true -> rest = "".
Proof.
  rewrite length_append. intros H. apply Nat.eqb_eq in H.
  destruct rest; [reflexivity|cbn in H; lia].
Qed.

(** *** The specifier in the text *)

Lemma find_specifier (body pre post : string) :
  contains_char "%" pre = false ->
  find (String "%" body) (pre ++ String "%" body ++ post)
  = Some (String.length pre).
Proof.
  induction pre as [|c pre IH]; intros H.
  - cbn [append String.length].
    change (String "%" (body ++ post)) with (String "%" body ++ post).
    destruct (String "%" body ++ post) eqn:E; [discriminate|].
    cbn [find]. rewrite <- E. now rewrite startswith_append.
  - cbn [contains_char] in H. apply orb_false_iff in H as [Hc H].
    cbn [append find String.length].
    rewrite startswith_percent by (now rewrite Ascii.eqb_sym).
    specialize (IH H). cbn [append] in IH. now rewrite IH.
Qed.

(** What a text with one specifier is taken apart into. *)
Lemma one_specifier (pre digs post : string) :
  contains_char "%" pre = false -> contains_char "%" post = false ->
  all_chars is_digit digs = true ->
  let dfs := String "%" (digs ++ "d") in
  let root := pre ++ dfs ++ post in
  has_digit_format_specifier root = true
  /\ extract_digit_format_specifiers root = OneDfs (Z.of_nat (String.length pre)) dfs
  /\ re_split_first dfs root = [pre; post]
  /\ replace dfs "" root = pre ++ post.
Proof.
  intros Hpre Hpost Hd. cbv zeta.
  pose proof (findall_one pre digs post Hpre Hpost Hd) as F.
  pose proof (find_specifier (digs ++ "d") pre post Hpre) as K.
  assert (Hhas : has_digit_format_specifier (pre ++ String "%" (digs ++ "d") ++ post)
                 = true).
  { unfold has_digit_format_specifier. now rewrite F. }
  split; [exact Hhas|]. split; [|split].
  - unfold extract_digit_format_specifiers. rewrite Hhas, F. cbn [negb map].
    unfold find_z. now rewrite K.
  - unfold re_split_first. rewrite K, take_append.
    rewrite <- (length_append pre), <- append_assoc, drop_append. reflexivity.
  - now rewrite replace_one by assumption.
Qed.

(** *** The three branches *)

Lemma dict_set_nil (k : nat) (v : string) : dict_set [] k v = [(k, v)].
Proof. reflexivity. Qed.

Lemma restore_at_start (chars s : string) : restore s [(0, chars)] = chars ++ s.
Proof. reflexivity. Qed.

Lemma restore_at_end (chars s : string) :
  restore s [(String.length s, chars)] = s ++ chars.
Proof.
  cbn [restore]. rewrite <- (append_nil_r s) at 2 4.
  rewrite take_append, drop_append. now rewrite !append_nil_r.
Qed.

Lemma restore_between (chars a b : string) :
  restore (a ++ b) [(String.length a, chars)] = a ++ chars ++ b.
Proof. cbn [restore]. now rewrite take_append, drop_append. Qed.

Lemma strip_between_ok (cls : list ascii) (root_head root_tail : string) :
  contains_char (ascii_of_nat 10) root_head = false ->
  branch_ok cls (root_head ++ root_tail)
            (strip_between cls root_head root_tail []).
Proof.
  intros Hnl. unfold strip_between.
  pose proof (search_tail_spec cls root_head Hnl) as Hh.
  pose proof (search_head_spec cls root_tail) as Ht.
  destruct (search_tail cls root_head) as [chars_head|];
    destruct (search_head cls root_tail) as [chars_tail|].
  - destruct Hh as (Hne & Eh & Ah). destruct Ht as (Hnt & Et & At).
    destruct (String.length root_head =? String.length chars_head)%nat eqn:Lh;
      destruct (String.length root_tail =? String.length chars_tail)%nat eqn:Lt;
      cbn [andb negb].
    + left. auto.
    + rewrite Eh in Lh. apply length_all_r in Lh.
      right. rewrite Lh in Eh. cbn [append] in Eh. subst chars_head.
      rewrite dict_set_nil. rewrite restore_at_start. cbn [append].
      split; [reflexivity|]. split; [cbn; lia|]. repeat constructor; assumption.
    + rewrite Et in Lt. apply length_all in Lt.
      right. rewrite Lt, append_nil_r in Et. subst chars_tail.
      rewrite dict_set_nil. rewrite append_nil_r, restore_at_end.
      split; [reflexivity|]. split; [cbn; lia|]. repeat constructor; assumption.
    + right. rewrite dict_set_nil. rewrite restore_between, <- Et.
      split; [reflexivity|]. split; [cbn; lia|]. repeat constructor; assumption.
  - destruct Hh as (Hne & Eh & Ah).
    destruct (String.length root_head =? String.length chars_head)%nat eqn:Lh.
    + rewrite Eh in Lh. apply length_all_r in Lh.
      right. rewrite Lh in Eh. cbn [append] in Eh. subst chars_head.
      rewrite dict_set_nil. rewrite restore_at_start. cbn [append].
      split; [reflexivity|]. split; [cbn; lia|]. repeat constructor; assumption.
    + right. cbn [restore List.length]. split; [reflexivity|].
      split; [lia|constructor].
  - destruct Ht as (Hnt & Et & At).
    destruct (String.length root_tail =? String.length chars_tail)%nat eqn:Lt.
    + rewrite Et in Lt. apply length_all in Lt.
      right. rewrite Lt, append_nil_r in Et. subst chars_tail.
      rewrite dict_set_nil. rewrite append_nil_r, restore_at_end.
      split; [reflexivity|]. split; [cbn; lia|]. repeat constructor; assumption.
    + right. cbn [restore List.length]. split; [reflexivity|].
      split; [lia|constructor].
  - right. cbn [restore List.length]. split; [reflexivity|].
    split; [lia|constructor].
Qed.

(** *** The whole function on a name with one specifier *)

Lemma strip_restores (pre digs post : string)
  (spec_chars : list string) (cls : list ascii) :
  Py.contains_char "%" pre = false ->
  Py.contains_char "%" post = false ->
  Py.all_chars Py.is_digit digs = true ->
  Py.contains_char (ascii_of_nat 10) pre = false ->
  class_of spec_chars = Ok cls ->
  exists stripped culled,
    strip_digit_format_specifier (pre ++ String "%" (digs ++ "d") ++ post)
      false spec_chars
    = Ok (stripped, culled)
    /\ restore stripped culled = pre ++ post
    /\ List.length culled <= 1
    /\ Forall (fun e => snd e <> ""
                        /\ Py.all_chars (in_class cls) (snd e) = true) culled.
Proof.
  intros Hpre Hpost Hd Hnl Hcls.
  destruct (one_specifier pre digs post Hpre Hpost Hd) as (Hhas & Hex & Hsplit & Hrep).
  unfold strip_digit_format_specifier. rewrite Hhas, Hex. cbn [negb].
  destruct (List.length spec_chars =? 0)%nat.
  { exists (pre ++ post), []. rewrite Hrep, append_nil_r.
    split; [reflexivity|]. split; [reflexivity|]. split; [cbn; lia|constructor]. }
  rewrite Hcls, Hsplit. cbn [bind last hd].
  assert (Hfinish : forall r,
             branch_ok cls (pre ++ post) r ->
             exists stripped culled,
               (let '(root_head, root_tail, culled_spec_chars) := r in
                if (String.length root_head =? 0)%nat
                   && (String.length root_tail =? 0)%nat
                then Ok (Py.replace (String "%" (digs ++ "d")) ""
                           (pre ++ String "%" (digs ++ "d") ++ post), [])
                else Ok (root_head ++ root_tail ++ "", culled_spec_chars))
               = Ok (stripped, culled)
               /\ restore stripped culled = pre ++ post
               /\ List.length culled <= 1
               /\ Forall (fun e => snd e <> ""
                                   /\ Py.all_chars (in_class cls) (snd e) = true)
                         culled).
  { intros [[root_head root_tail] culled] Hr.
    destruct ((String.length root_head =? 0)%nat
              && (String.length root_tail =? 0)%nat) eqn:E.
    - exists (pre ++ post), []. rewrite Hrep.
      split; [reflexivity|]. split; [reflexivity|]. split; [cbn; lia|constructor].
    - destruct Hr as [[-> ->]|Hr]; [discriminate|].
      exists (root_head ++ root_tail), culled. now rewrite append_nil_r. }
  destruct (Z.of_nat (String.length pre) =? 0)%Z eqn:E0.
  - assert (pre = "") as -> by (destruct pre; [reflexivity|discriminate]).
    pose proof (search_head_spec cls post) as Ht.
    destruct (search_head cls post) as [chars_tail|]; cbn [bind].
    + destruct Ht as (Hnt & Et & At).
      apply (Hfinish ("", sub_head cls post, dict_set [] 0 chars_tail)).
      right. rewrite dict_set_nil, restore_at_start. cbn [append].
      split; [now rewrite <- Et|]. split; [cbn; lia|].
      repeat constructor; assumption.
    + apply (Hfinish ("", post, [])). right. cbn [append restore List.length].
      split; [reflexivity|]. split; [lia|constructor].
  - match goal with
    | |- context [(Z.of_nat (String.length pre) =? ?b)%Z] =>
        destruct (Z.of_nat (String.length pre) =? b)%Z eqn:E1
    end.
    + assert (post = "") as ->.
      { apply Z.eqb_eq in E1. rewrite !length_append in E1.
        cbn [String.length] in E1. rewrite length_append in E1.
        destruct post; [reflexivity|cbn [String.length] in E1; lia]. }
      pose proof (search_tail_spec cls pre Hnl) as Hh.
      destruct (search_tail cls pre) as [chars_head|]; cbn [bind].
      * destruct Hh as (Hne & Eh & Ah).
        apply (Hfinish (sub_tail cls pre, "",
                        dict_set [] (String.length pre - String.length chars_head)
                                 chars_head)).
        right. rewrite dict_set_nil, !append_nil_r.
        replace (String.length pre - String.length chars_head)
          with (String.length (sub_tail cls pre))
          by (rewrite Eh at 2; rewrite length_append; lia).
        rewrite restore_at_end.
        split; [now rewrite <- Eh|]. split; [cbn; lia|].
        repeat constructor; assumption.
      * apply (Hfinish (pre, "", [])). right. cbn [restore List.length].
        split; [reflexivity|]. split; [lia|constructor].
    + cbn [bind]. apply (Hfinish (strip_between cls pre post [])).
      now apply strip_between_ok.
Qed.

End StripFacts.

Import Utils Notions Invariants InputOutput ImageSequence.
Import PyFacts SplitFacts DecimalFacts SpecifierFacts ScoringFacts StartFacts.
Import InitFacts ReFacts MatchFacts PatternFacts ListingFacts RenameFacts.
Import FsFacts DistanceFacts SortFacts FormatFacts DescriptorFacts ExtractFacts.
Import StripFacts.

(** X21. For a name without extension that holds one specifier and no
    other percent sign (and no newline before the specifier),
    [strip_digit_format_specifier] returns the name without the
    specifier and without at most one run of special characters next to
    it; [culled_spec_chars] records that run under the index at which
    putting it back restores the text around the specifier.  The
    stripped name holds no percent sign. *)
Theorem culled_characters_restore_the_name (pre digs post : string)
  (spec_chars : list string) (cls : list ascii) :
  Py.contains_char "%" pre = false ->
  Py.contains_char "%" post = false ->
  Py.all_chars Py.is_digit digs = true ->
  Py.contains_char (ascii_of_nat 10) pre = false ->
  class_of spec_chars = Ok cls ->
  exists stripped culled,
    strip_digit_format_specifier (pre ++ String "%" (digs ++ "d") ++ post)
      false spec_chars
    = Ok (stripped, culled)
    /\ restore stripped culled = pre ++ post
    /\ List.length culled <= 1
    /\ Forall (fun e => snd e <> ""
                        /\ Py.all_chars (in_class cls) (snd e) = true) culled.
Proof.
  intros Hpre Hpost Hd Hnl Hcls.
  destruct (strip_restores pre digs post spec_chars cls Hpre Hpost Hd Hnl Hcls)
    as (stripped & culled & H).
  exists stripped, culled. exact H.
Qed.

Lemma culled_characters_restore_the_name_witness :
  exists stripped culled,
    strip_digit_format_specifier ("a_" ++ String "%" ("03" ++ "d") ++ "_b")
      false Config.SPECIAL_CHARS
    = Ok (stripped, culled)
    /\ restore stripped culled = "a_" ++ "_b"
    /\ List.length culled <= 1
    /\ Forall (fun e => snd e <> ""
                        /\ Py.all_chars
                             (in_class ["."; ","; "/"; "\"; "+"; "-"; "_"; "|";
                                        ">"; "<"; "*"; "%"]%char) (snd e) = true)
              culled.
Proof.
  apply (culled_characters_restore_the_name "a_" "03" "_b" Config.SPECIAL_CHARS
           ["."; ","; "/"; "\"; "+"; "-"; "_"; "|"; ">"; "<"; "*"; "%"]%char);
    reflexivity.
Defined.

(** ** The constructor of [InputOutput] *)

Module OutputFacts.

Import Utils Notions Invariants InputOutput ImageSequence.
Import PyFacts DecimalFacts SpecifierFacts PatternFacts InitFacts ListingFacts.
Import FormatFacts DescriptorFacts ExtractFacts StripFacts.
Import Py.

(** *** [os.path.splitext] on a pattern *)

Lemma rfind_char_append (c : ascii) (a b : string) :
  rfind_char c (a ++ b)
  = match rfind_char c b with
    | Some k => Some (String.length a + k)
    | None => rfind_char c a
    end.
Proof.
  induction a as [|x a IH]; cbn [append rfind_char String.length].
  - now destruct (rfind_char c b).
  - rewrite IH. destruct (rfind_char c b); [reflexivity|].
    now destruct (rfind_char c a).
Qed.

Lemma rfind_char_none (c : ascii) (s : string) :
  contains_char c s = false -> rfind_char c s = None.
Proof.
  induction s as [|x s IH]; [reflexivity|]. cbn [contains_char rfind_char].
  intros H. apply orb_false_iff in H as [Hx H]. now rewrite (IH H), Hx.
Qed.

Lemma rfind_char_bound (c : ascii) (s : string) (k : nat) :
  rfind_char c s = Some k -> k < String.length s.
Proof.
  revert k. induction s as [|x s IH]; intros k; [discriminate|].
  cbn [rfind_char String.length]. destruct (rfind_char c s) as [j|].
  - intros H. injection H as <-. specialize (IH j eq_refl). lia.
  - destruct (Ascii.eqb c x); [|discriminate]. intros H. injection H as <-. lia.
Qed.

Lemma take_append_short (n : nat) (a b : string) :
  n <= String.length a -> take n (a ++ b) = take n a.
Proof.
  revert n. induction a as [|x a IH]; intros [|n] H; cbn in *;
    try reflexivity; try lia.
  now rewrite IH by lia.
Qed.

Lemma take_append_long (n : nat) (a b : string) :
  take (String.length a + n) (a ++ b) = a ++ take n b.
Proof. induction a as [|x a IH]; cbn; [reflexivity|now rewrite IH]. Qed.

Lemma drop_append_long (n : nat) (a b : string) :
  drop (String.length a + n) (a ++ b) = drop n b.
Proof. induction a as [|x a IH]; cbn; [reflexivity|exact IH]. Qed.

Lemma digits_no_dot (s : string) :
  all_chars is_digit s = true -> contains_char "." s = false.
Proof.
  induction s as [|c s IH]; [reflexivity|].
  cbn [all_chars contains_char]. intros H.
  apply andb_true_iff in H as [Hc H]. rewrite (IH H), orb_false_r.
  apply Ascii.eqb_neq. intros <-. discriminate.
Qed.

Lemma all_dots_digit (a part b : string) :
  isdigit part = true ->
  all_chars (Ascii.eqb ".") (a ++ part ++ b) = false.
Proof.
  intros H. rewrite !all_chars_append.
  destruct part as [|c part]; [discriminate|].
  cbn [isdigit all_chars] in *. apply andb_true_iff in H as [Hc _].
  replace (Ascii.eqb "." c) with false; [now rewrite andb_false_r|].
  symmetry. apply Ascii.eqb_neq. intros <-. discriminate.
Qed.

Lemma all_dots_percent (a body b : string) :
  all_chars (Ascii.eqb ".") (a ++ String "%" body ++ b) = false.
Proof. rewrite all_chars_append. cbn. now rewrite andb_false_r. Qed.

(** Replacing the number by a specifier moves the extension with it. *)
Lemma splitext_pattern (pre part post ex body : string) :
  isdigit part = true ->
  contains_char "." body = false ->
  splitext (pre ++ part ++ post ++ ex) = (pre ++ part ++ post, ex) ->
  splitext (pre ++ String "%" body ++ post ++ ex)
  = (pre ++ String "%" body ++ post, ex).
Proof.
  intros Hpart Hbody. unfold splitext.
  assert (Hall : all_chars is_digit part = true)
    by (destruct part; [discriminate|exact Hpart]).
  rewrite (rfind_char_append "." pre), (rfind_char_append "." part).
  rewrite (rfind_char_append "." pre (String "%" body ++ post ++ ex)),
    (rfind_char_append "." (String "%" body)).
  rewrite (rfind_char_none "." part (digits_no_dot part Hall)).
  assert (Hspec : rfind_char "." (String "%" body) = None).
  { cbn [rfind_char]. now rewrite (rfind_char_none "." body Hbody). }
  rewrite Hspec.
  destruct (rfind_char "." (post ++ ex)) as [k|] eqn:Hk.
  - rewrite !take_append_long, !drop_append_long.
    rewrite all_dots_digit by exact Hpart. rewrite all_dots_percent.
    intros H. injection H as H1 H2.
    assert (Hpost : take k (post ++ ex) = post).
    { apply (f_equal (drop (String.length pre))) in H1.
      rewrite !drop_append in H1.
      apply (f_equal (drop (String.length part))) in H1.
      now rewrite !drop_append in H1. }
    now rewrite Hpost, H2.
  - destruct (rfind_char "." pre) as [j|] eqn:Hj.
    + pose proof (rfind_char_bound _ _ _ Hj) as Bj.
      rewrite !take_append_short by lia.
      destruct (all_chars (Ascii.eqb ".") (take j pre)).
      * intros H. injection H as H1 H2. rewrite <- H2.
        now rewrite !append_nil_r.
      * intros H. injection H as H1 _.
        apply (f_equal String.length) in H1.
        rewrite !length_append in H1.
        assert (String.length (take j pre) <= j).
        { clear. revert j. induction pre as [|c pre IH]; intros [|j]; cbn;
            try lia. specialize (IH j). lia. }
        destruct part; [discriminate|]. cbn [String.length] in H1. lia.
    + intros H. injection H as H1 H2. rewrite <- H2.
      now rewrite !append_nil_r.
Qed.

(** *** Leading dots *)

Lemma lstrip_startswith (s : string) :
  startswith "." (lstrip is_dot s) = false.
Proof.
  induction s as [|c s IH]; [reflexivity|]. cbn [lstrip].
  destruct (is_dot c) eqn:E; [exact IH|].
  cbn [startswith]. unfold is_dot in E. now rewrite Ascii.eqb_sym, E.
Qed.

Lemma lstrip_contains (c : ascii) (p : ascii -> bool) (s : string) :
  contains_char c s = false -> contains_char c (lstrip p s) = false.
Proof.
  induction s as [|x s IH]; [reflexivity|]. cbn [lstrip contains_char].
  intros H. destruct (p x); [|exact H].
  apply orb_false_iff in H as [_ H]. now apply IH.
Qed.

Lemma restore_contains (c : ascii) (stripped : string) (culled : dict)
  (text : string) :
  List.length culled <= 1 ->
  restore stripped culled = text ->
  contains_char c text = false -> contains_char c stripped = false.
Proof.
  destruct culled as [|[i chars] [|e culled]]; cbn [List.length restore];
    try lia; intros _.
  - now intros ->.
  - intros <-. rewrite !contains_char_append. intros H.
    apply orb_false_iff in H as [H1 H]. apply orb_false_iff in H as [_ H2].
    rewrite <- (take_drop i stripped), contains_char_append. now rewrite H1, H2.
Qed.

Lemma class_of_special_chars :
  class_of Config.SPECIAL_CHARS
  = Ok ["."; ","; "/"; "\"; "+"; "-"; "_"; "|"; ">"; "<"; "*"; "%"]%char.
Proof. reflexivity. Qed.

(** *** A root given with an extension *)

Lemma splitext_dot (r e : string) :
  all_chars (Ascii.eqb ".") r = false -> contains_char "." e = false ->
  splitext (r ++ String "." e) = (r, String "." e).
Proof.
  intros Hr He. unfold splitext. rewrite rfind_char_append.
  cbn [rfind_char]. rewrite (rfind_char_none "." e He). cbn [Ascii.eqb Bool.eqb].
  rewrite take_append_long, drop_append_long. cbn [take drop].
  now rewrite append_nil_r, Hr.
Qed.

Lemma drop_append_short (n : nat) (a b : string) :
  n <= String.length a -> drop n (a ++ b) = drop n a ++ b.
Proof.
  revert n. induction a as [|x a IH]; intros [|n] H; cbn in *;
    try reflexivity; try lia.
  now rewrite IH by lia.
Qed.

Lemma length_drop (n : nat) (a : string) :
  String.length (drop n a) = String.length a - n.
Proof.
  revert n. induction a as [|x a IH]; intros [|n]; cbn; try reflexivity.
  apply IH.
Qed.

(** [os.path.splitext] on a text that ends in a dot and a word: the
    word is an extension when the last component before the dot holds a
    character other than a dot. *)
Lemma os_path_splitext_dot (r e : string) :
  contains_char "." e = false -> contains_char "/" e = false ->
  os_path_splitext (r ++ String "." e)
  = if all_chars (Ascii.eqb ".") (last_component r)
    then (r ++ String "." e, "") else (r, String "." e).
Proof.
  intros He Hs. unfold os_path_splitext, last_component.
  rewrite !rfind_char_append. cbn [rfind_char].
  rewrite (rfind_char_none "." e He), (rfind_char_none "/" e Hs).
  cbn [Ascii.eqb Bool.eqb]. rewrite Nat.add_0_r.
  assert (Hslice : forall k, k <= String.length r ->
            slice k (String.length r) (r ++ String "." e) = drop k r).
  { intros k Hk. unfold slice. rewrite drop_append_short by exact Hk.
    rewrite <- (length_drop k r). apply take_append. }
  assert (Hsplit : take (String.length r) (r ++ String "." e) = r
                   /\ drop (String.length r) (r ++ String "." e) = String "." e).
  { pose proof (take_append_long 0 r (String "." e)) as T.
    pose proof (drop_append_long 0 r (String "." e)) as D.
    rewrite Nat.add_0_r in T, D. cbn [take drop] in T, D.
    now rewrite append_nil_r in T. }
  destruct Hsplit as [-> ->].
  destruct (rfind_char "/" r) as [sep|] eqn:Hsep.
  - pose proof (rfind_char_bound _ _ _ Hsep) as B.
    rewrite Hslice by lia.
    replace (S sep <=? String.length r)%nat with true
      by (symmetry; apply Nat.leb_le; lia).
    cbn [andb]. now destruct (all_chars _ (drop (S sep) r)).
  - rewrite Hslice by lia. cbn [Nat.leb drop andb].
    now destruct (all_chars _ r).
Qed.

Lemma no_dot_all (e : string) :
  contains_char "." e = false ->
  all_chars (fun c => negb (is_dot c)) e = true.
Proof.
  induction e as [|c e IH]; [reflexivity|]. cbn [contains_char all_chars].
  intros H. apply orb_false_iff in H as [Hc H].
  unfold is_dot at 1. now rewrite Ascii.eqb_sym, Hc, (IH H).
Qed.

Lemma norm_ext_dot (e : string) :
  contains_char "." e = false -> norm_ext (String "." e) = upper e.
Proof.
  intros He. unfold norm_ext, strip. cbn [lstrip]. unfold is_dot at 2.
  cbn [Ascii.eqb Bool.eqb].
  pose proof (strip_none is_dot e (no_dot_all e He)) as H.
  unfold strip in H. now rewrite H.
Qed.

(** *** Blank strings *)

Lemma lstrip_empty (p : ascii -> bool) (s : string) :
  lstrip p s = "" <-> all_chars p s = true.
Proof.
  induction s as [|c s IH]; cbn [lstrip all_chars]; [tauto|].
  destruct (p c); cbn [andb]; [exact IH|]. split; discriminate.
Qed.

Lemma rev_empty (s : string) : rev s = "" -> s = "".
Proof.
  intros H. apply (f_equal rev) in H.
  now rewrite DecimalFacts.rev_involutive in H.
Qed.

Lemma strip_empty (p : ascii -> bool) (s : string) :
  strip p s = "" <-> all_chars p s = true.
Proof.
  unfold strip, rstrip. split.
  - intros H. apply rev_empty in H. apply lstrip_empty in H.
    rewrite all_chars_rev in H. apply lstrip_empty.
    destruct (lstrip p s) as [|c t] eqn:E; [reflexivity|].
    exfalso. cbn [all_chars] in H. apply andb_true_iff in H as [Hc _].
    assert (Hn : p c = false).
    { clear -E. induction s as [|x s IH]; [discriminate|].
      cbn [lstrip] in E. destruct (p x) eqn:Px; [now apply IH|].
      injection E as <- _. exact Px. }
    congruence.
  - intros H. apply lstrip_empty in H. now rewrite H.
Qed.

End OutputFacts.

Import Utils Notions Invariants InputOutput ImageSequence.
Import PyFacts SplitFacts DecimalFacts SpecifierFacts ScoringFacts StartFacts.
Import InitFacts ReFacts MatchFacts PatternFacts ListingFacts RenameFacts.
Import FsFacts DistanceFacts SortFacts FormatFacts DescriptorFacts ExtractFacts.
Import StripFacts OutputFacts.

(** X22. [strip_digit_format_specifier] returns a name without
    specifier as it is, with nothing culled; for a name whose root
    holds several specifiers it raises [TypeError], whatever the special
    characters. *)
Theorem strip_without_and_with_several_specifiers (filename : string)
  (has_ext : bool) (spec_chars : list string) :
  let root := if has_ext then fst (Py.splitext filename) else filename in
  (has_digit_format_specifier root = false ->
   strip_digit_format_specifier filename has_ext spec_chars = Ok (filename, []))
  /\ (2 <= List.length (findall_dfs root) ->
      strip_digit_format_specifier filename has_ext spec_chars = Raise TypeError).
Proof.
  cbv zeta. unfold strip_digit_format_specifier.
  assert (E : (if has_ext then Py.splitext filename else (filename, ""))
              = (if has_ext then fst (Py.splitext filename) else filename,
                 if has_ext then snd (Py.splitext filename) else "")).
  { destruct has_ext; [apply surjective_pairing|reflexivity]. }
  rewrite E. clear E.
  set (root := if has_ext then fst (Py.splitext filename) else filename).
  split.
  - intros ->. reflexivity.
  - intros H. unfold extract_digit_format_specifiers, has_digit_format_specifier.
    destruct (findall_dfs root) as [|x [|y l]]; cbn in H; try lia.
    reflexivity.
Qed.

(** X23. Without a root of its own, the [InputOutput] of a sequence takes
    its root from the pattern of the sequence: constructing it succeeds,
    and the root holds no percent sign (so no specifier) and does not
    start with a dot; the output directory is the one given, or the
    directory of the sample (the name of the sample holding no
    newline). *)
Theorem default_output_root_holds_no_specifier (fs : Fs.t) (path : Fs.path)
  (supp_formats : option (list string)) (sequence : ImageSequence.t)
  (out_dir : option Fs.path) :
  ImageSequence.__init__ fs path supp_formats = Ok sequence ->
  (0 <= start_num sequence)%Z ->
  Py.contains_char (ascii_of_nat 10) (filename (self sequence)) = false ->
  exists i,
    InputOutput.__init__ fs path None out_dir (Some sequence) = Ok i
    /\ Py.contains_char "%" (output_root (io i)) = false
    /\ Py.startswith "." (output_root (io i)) = false
    /\ has_specific_out_root i = false
    /\ output_dir (io i) = match out_dir with
                           | Some d => d
                           | None => basedir (self sequence)
                           end
    /\ output_path i = Fs.join (output_dir (io i)) (output_root (io i)).
Proof.
  intros Hinit Hstart Hnl.
  pose proof (constructed_start_number _ _ _ _ Hinit) as Hnum.
  apply init_inversion in Hinit.
  destruct (con_cases Hinit) as [[_ Him]|(_ & dfs & num & Hparse & _ & Him)].
  { rewrite Him in Hstart. cbn in Hstart. lia. }
  pose proof (splitext_append _ _ _ (con_splitext Hinit)) as Hname.
  pose proof (con_percent Hinit) as Hpct. rewrite <- Hname in Hpct.
  destruct (parsed_pattern _ _ _ _ Hparse (body_of_constructed _ _ _ _ Hinit) Hpct)
    as (pre & part & post & R & D & P & N & Hpre & Hpost).
  destruct (specifier_form (width_of part)) as (digs & Hspec & Hdigs).
  assert (Hdfs : dfs_filename sequence
                 = pre ++ String "%" (digs ++ "d") ++ post ++ ext (self sequence)).
  { rewrite Him. cbn [dfs_filename]. now rewrite P, Hspec. }
  rewrite contains_char_append in Hpost.
  apply orb_false_iff in Hpost as [Hpost _].
  assert (Hnlpre : Py.contains_char (ascii_of_nat 10) pre = false).
  { rewrite <- Hname, R, !append_assoc, contains_char_append in Hnl.
    now apply orb_false_iff in Hnl as [Hnl _]. }
  assert (Hext : Py.splitext (dfs_filename sequence)
                 = (pre ++ String "%" (digs ++ "d") ++ post, ext (self sequence))).
  { rewrite Hdfs.
    apply (splitext_pattern pre part post (ext (self sequence)) (digs ++ "d") D).
    - rewrite contains_char_append, (digits_no_dot digs Hdigs). reflexivity.
    - pose proof (con_splitext Hinit) as Hs.
      rewrite <- Hname, R, !append_assoc in Hs. exact Hs. }
  destruct (strip_restores pre digs post Config.SPECIAL_CHARS _
              Hpre Hpost Hdigs Hnlpre class_of_special_chars)
    as (stripped & culled & Hstrip & Hrestore & Hlen & _).
  assert (Hclean : Py.contains_char "%" stripped = false).
  { apply (restore_contains "%" stripped culled (pre ++ post) Hlen Hrestore).
    now rewrite contains_char_append, Hpre, Hpost. }
  unfold InputOutput.__init__.
  rewrite (con_split Hinit), (con_splitext Hinit), Hnum. cbn [bind].
  replace (-1 <? start_num sequence)%Z with true
    by (symmetry; apply Z.ltb_lt; lia).
  unfold get_dfs_filename. rewrite Hext, Hstrip. cbn [bind].
  destruct (Py.startswith "." stripped) eqn:Hdot; cbn [bind];
    eexists; (split; [reflexivity|]);
    cbn [io output_root has_specific_out_root output_dir output_path].
  - split; [now apply lstrip_contains|]. split; [apply lstrip_startswith|].
    repeat split.
  - repeat split; assumption.
Qed.

Lemma default_output_root_holds_no_specifier_witness :
  exists i,
    InputOutput.__init__ Examples.unpadded ["seq"; "img_9.png"] None None
      (Some Examples.unpadded_sequence) = Ok i
    /\ Py.contains_char "%" (output_root (io i)) = false
    /\ Py.startswith "." (output_root (io i)) = false
    /\ has_specific_out_root i = false
    /\ output_dir (io i) = basedir (self Examples.unpadded_sequence)
    /\ output_path i = Fs.join (output_dir (io i)) (output_root (io i)).
Proof.
  apply (default_output_root_holds_no_specifier Examples.unpadded
           ["seq"; "img_9.png"] None Examples.unpadded_sequence None).
  - vm_compute. reflexivity.
  - vm_compute. discriminate.
  - vm_compute. reflexivity.
Defined.

(** X24. A root given to the constructor in the form [r.e], where [e]
    holds neither a dot nor a separator, is never refused, and the
    constructor reads nothing.  [.e] counts as an extension only when
    the last component of [r] holds a character other than a dot; it is
    dropped when in addition [e], in whatever case it is typed, is a
    supported output format.  Otherwise the root is kept whole. *)
Theorem given_output_root_drops_a_supported_extension (fs : Fs.t)
  (path : Fs.path) (r e : string) (out_dir : option Fs.path)
  (sequence : option ImageSequence.t) :
  Py.contains_char "." e = false ->
  Py.contains_char "/" e = false ->
  exists i,
    InputOutput.__init__ fs path (Some (r ++ String "." e)) out_dir sequence = Ok i
    /\ output_root (io i)
       = (if negb (Py.all_chars (Ascii.eqb ".") (last_component r))
             && Py.mem (Py.upper e) SUPP_OUT_FORMATS
          then r else r ++ String "." e)
    /\ has_specific_out_root i = true
    /\ culled_spec_chars i = [].
Proof.
  intros He Hs. unfold InputOutput.__init__.
  destruct (Fs.split path) as [input_dir input_fname].
  rewrite (os_path_splitext_dot r e He Hs).
  destruct (Py.all_chars (Ascii.eqb ".") (last_component r)); cbn [negb andb].
  - cbn [bind]. eexists. split; [reflexivity|]. repeat split.
  - rewrite (norm_ext_dot e He). cbn [bind].
    eexists. split; [reflexivity|]. repeat split.
Qed.

Lemma given_output_root_drops_a_supported_extension_witness :
  exists i,
    InputOutput.__init__ Examples.three_frames ["seq"; "img_001.jpg"]
      (Some ("shots/clip" ++ String "." "Mp4")) None
      (Some Examples.sample_sequence)
    = Ok i
    /\ output_root (io i)
       = (if negb (Py.all_chars (Ascii.eqb ".") (last_component "shots/clip"))
             && Py.mem (Py.upper "Mp4") SUPP_OUT_FORMATS
          then "shots/clip" else "shots/clip" ++ String "." "Mp4")
    /\ has_specific_out_root i = true
    /\ culled_spec_chars i = [].
Proof.
  apply (given_output_root_drops_a_supported_extension Examples.three_frames
           ["seq"; "img_001.jpg"] "shots/clip" "Mp4" None
           (Some Examples.sample_sequence));
    reflexivity.
Defined.

(** X25. [is_blank] holds exactly for [None] and for the strings that
    consist of white space only, the empty string among them. *)
Theorem is_blank_iff_only_white_space (string : option string) :
  is_blank string = true
  <-> match string with
      | None => True
      | Some s => Py.all_chars Py.is_space s = true
      end.
Proof.
  destruct string as [s|]; cbn [is_blank]; [|tauto].
  rewrite negb_true_iff, andb_false_iff, !negb_false_iff, !String.eqb_eq.
  rewrite strip_empty. split.
  - intros [->|H]; [reflexivity|exact H].
  - auto.
Qed.

(** ** Candidates and single images *)

Module CandidateFacts.

Import Utils Notions Invariants InputOutput ImageSequence.
Import PyFacts DecimalFacts SpecifierFacts ScoringFacts InitFacts.
Import ReFacts MatchFacts PatternFacts ListingFacts FsFacts DistanceFacts.
Import DescriptorFacts.

(** *** A positive dissimilarity *)

Lemma list_sum_positive (l : list nat) :
  0 < list_sum l <-> exists n, In n l /\ 0 < n.
Proof.
  induction l as [|x l IH]; [cbn; split; [lia|intros (n & [] & _)]|].
  change (list_sum (x :: l)) with (x + list_sum l). cbn [In].
  split.
    + intros H. destruct (Nat.eq_dec x 0) as [->|Hx].
      * apply IH in H as (n & Hn & Hp). eauto.
      * exists x. split; [now left|lia].
    + intros (n & [<-|Hn] & Hp); [lia|].
      assert (0 < list_sum l) by (apply IH; eauto). lia.
Qed.

Lemma distance_to_positive (fs : Fs.t) (a : attrs) (si : nat) (part f : string) :
  0 < distance_to fs a si part f <-> differs_at fs a si part f.
Proof.
  unfold distance_to, differs_at.
  destruct (is_file fs (Fs.join (basedir a) f) (RStr (norm_ext (ext a)))),
    (String.eqb_spec f (filename a)); cbn [negb andb].
  - split; [lia|]. intros (_ & H & _). contradiction.
  - pose proof (distance_zero
                  (Py.slice si (si + String.length part) (fst (Py.splitext f)))
                  part) as Z.
    split.
    + intros H. repeat split; try assumption. intros E. apply Z in E. lia.
    + intros (_ & _ & H).
      destruct (levenshtein_distance _ part) eqn:E; [|lia].
      exfalso. apply H, Z. reflexivity.
  - split; [lia|]. intros (H & _). discriminate.
  - split; [lia|]. intros (H & _). discriminate.
Qed.

Lemma dissimilarity_positive (fs : Fs.t) (a : attrs) (si : nat) (part : string)
  (siblings : list string) :
  0 < dissimilarity fs a si part siblings
  <-> exists f, In f siblings /\ differs_at fs a si part f.
Proof.
  unfold dissimilarity. rewrite list_sum_positive. split.
  - intros (n & Hn & Hp). apply in_map_iff in Hn as (f & <- & Hf).
    exists f. split; [exact Hf|]. now apply distance_to_positive.
  - intros (f & Hf & Hd). exists (distance_to fs a si part f).
    split; [now apply in_map|]. now apply distance_to_positive.
Qed.

(** *** Patterns without groups *)

Lemma run_plain (subject : string) (r : Re.re) :
  plain r = true ->
  forall pos s c k c',
    Re.run subject r pos s c k = Some c' ->
    exists pos' s', k pos' s' c = Some c'.
Proof.
  induction r as [|a| | | | |r1 IH1 r2 IH2| |]; cbn [plain]; intros Hp pos s c k c';
    try discriminate; cbn [Re.run].
  - eauto.
  - destruct s as [|b s]; [discriminate|]. destruct (Ascii.eqb a b); [eauto|discriminate].
  - destruct s as [|b s]; [discriminate|].
    destruct (Ascii.eqb b Re.newline); [discriminate|eauto].
  - destruct s as [|b s]; [discriminate|].
    destruct (Py.is_digit b); [eauto|discriminate].
  - destruct (pos =? 0)%nat; [eauto|discriminate].
  - destruct (Re.at_end s); [eauto|discriminate].
  - apply andb_true_iff in Hp as [H1 H2]. intros H.
    apply (IH1 H1) in H as (pos1 & s1 & H).
    now apply (IH2 H2) in H.
Qed.

Lemma plain_lits (s : string) (items : list Re.re) :
  plain (Re.seq_of items) = true -> plain (Re.seq_of (lits s ++ items)) = true.
Proof. induction s as [|c s IH]; intros H; [exact H|]. cbn. now apply IH. Qed.

Lemma plain_name (root ext : string) :
  plain (Re.seq_of (name_items root ext)) = true.
Proof.
  unfold name_items. apply plain_lits. destruct ext as [|c e]; [reflexivity|].
  cbn [ext_items]. change (Re.AnyChar :: lits e) with ([Re.AnyChar] ++ lits e)%list.
  cbn. rewrite <- (app_nil_r (lits e)). now apply plain_lits.
Qed.

(** *** A file name used as pattern *)

Lemma compile_name (root ext : string) :
  no_meta root = true -> plain_ext ext = true ->
  Re.compile (root ++ ext) = Ok (Re.seq_of (name_items root ext)).
Proof.
  intros Hroot Hext. unfold Re.compile, name_items.
  rewrite lex_literals by exact Hroot.
  destruct ext as [|c e].
  - cbn [Re.lex bind ext_items]. rewrite !app_nil_r.
    rewrite <- (app_nil_r (Re.literals root)), parse_literals.
    cbn [Re.parse_tokens Re.cur Re.stack]. rewrite app_nil_r.
    now rewrite List.rev_involutive.
  - cbn [plain_ext] in Hext. apply andb_true_iff in Hext as [Hc He].
    apply Ascii.eqb_eq in Hc. subst c.
    lex_char [Re.TAny] Re.LNormal.
    rewrite <- (append_nil_r e) at 1. rewrite lex_literals by exact He.
    cbn [Re.lex bind app]. rewrite app_nil_r.
    rewrite parse_literals.
    cbn [Re.parse_tokens Re.parse_token bind Re.cur Re.stack Re.next_group].
    rewrite <- (app_nil_r (Re.literals e)), parse_literals.
    cbn [Re.parse_tokens Re.cur Re.stack ext_items].
    repeat (rewrite ?List.rev_app_distr, ?List.rev_involutive, ?app_nil_r;
            cbn [List.rev app]; rewrite <- ?app_assoc).
    reflexivity.
Qed.

Lemma run_lits_all (subject e : string) (pos : nat) (c : Re.captures)
  (k : Re.cont) :
  Re.run subject (Re.seq_of (lits e)) pos e c k = k (pos + String.length e) "" c.
Proof.
  pose proof (run_lits subject e [] pos (e ++ "") c k) as H.
  rewrite app_nil_r, startswith_append, drop_append, append_nil_r in H.
  exact H.
Qed.

Lemma name_matches_itself (root ext : string) :
  plain_ext ext = true ->
  Re.run (root ++ ext) (Re.seq_of (name_items root ext)) 0 (root ++ ext) [] final
  = Some [].
Proof.
  intros Hext. unfold name_items.
  rewrite run_lits, startswith_append, drop_append.
  destruct ext as [|d e]; cbn [ext_items].
  - reflexivity.
  - cbn [plain_ext] in Hext. apply andb_true_iff in Hext as [Hd _].
    apply Ascii.eqb_eq in Hd. subst d.
    cbn [Re.seq_of fold_right Re.run]. fold (Re.seq_of (lits e)).
    change (Ascii.eqb "." Re.newline) with false. cbn iota.
    now rewrite run_lits_all.
Qed.

(** When the pattern has no group, the first file it matches stops the
    collection. *)
Lemma collect_files_no_group (fs : Fs.t) (im : t) (rx : string) (r : Re.re) :
  Re.compile rx = Ok r -> plain r = true ->
  forall names,
    (exists f, In f names
               /\ Fs.isfile fs (Fs.join (basedir (self im)) f) = true
               /\ Re.run f r 0 f [] final <> None) ->
    collect_files fs im rx true names = Raise IndexError.
Proof.
  intros Hrx Hplain. induction names as [|f0 names IH]; intros (f & Hin & Hfile & Hrun).
  { destruct Hin. }
  cbn [collect_files].
  destruct (Fs.isfile fs (Fs.join (basedir (self im)) f0)) eqn:Hf0; cbn [negb].
  - rewrite (match_compiled rx f0 r Hrx). cbn [bind].
    destruct (Re.run f0 r 0 f0 [] final) as [groups|] eqn:R0.
    + apply (run_plain f0 r Hplain) in R0 as (pos' & s' & R0).
      unfold final in R0. injection R0 as <-. reflexivity.
    + apply IH. exists f. destruct Hin as [<-|Hin]; [congruence|auto].
  - apply IH. exists f. destruct Hin as [<-|Hin]; [congruence|auto].
Qed.

End CandidateFacts.

Import Utils Notions Invariants InputOutput ImageSequence.
Import PyFacts SplitFacts DecimalFacts SpecifierFacts ScoringFacts StartFacts.
Import InitFacts ReFacts MatchFacts PatternFacts ListingFacts RenameFacts.
Import FsFacts DistanceFacts SortFacts FormatFacts DescriptorFacts ExtractFacts.
Import StripFacts OutputFacts CandidateFacts.

(** X26. A body component is a candidate for the number sequence
    exactly when it consists of digits and one of the sampled files, a
    file of the sample's extension other than the sample, has other text
    than the component at its position in the root. *)
Theorem candidates_differ_in_a_sampled_file (fs : Fs.t) (a : attrs)
  (strict : bool) (i : nat) :
  In i (predict_from fs a strict (sample_size (fcount a)) (_get_body a) 0 0)
  <-> exists part,
        nth_error (_get_body a) i = Some part
        /\ Py.isdigit part = true
        /\ exists f, In f (sampled a strict)
                     /\ differs_at fs a (offset (_get_body a) i) part f.
Proof.
  rewrite predict_from_spec. unfold offset, sampled. split.
  - intros (k & part & Hk & N & T & D). cbn in Hk. subst k.
    exists part. split; [exact N|]. split; [exact D|].
    apply dissimilarity_positive. destruct strict.
    + now rewrite total_distance_full in T.
    + now rewrite total_distance_sampled, Nat.sub_0_r in T.
  - intros (part & N & D & Hf). apply dissimilarity_positive in Hf.
    exists i, part. repeat split; try assumption. destruct strict.
    + now rewrite total_distance_full.
    + now rewrite total_distance_sampled, Nat.sub_0_r.
Qed.

(** X27. For the descriptor of a single image (start number [-1]) whose
    name holds no metacharacter but the dot of its extension,
    [get_sequence_files] with sorting raises [IndexError]: the pattern
    is the name itself, it matches the image, and the match has no
    group to read the number from. *)
Theorem single_image_has_no_sequence_files (fs : Fs.t) (path : Fs.path)
  (supp_formats : option (list string)) (im : ImageSequence.t) :
  ImageSequence.__init__ fs path supp_formats = Ok im ->
  (start_num im < 0)%Z ->
  Fs.isdir fs (fst (Fs.split path)) = true ->
  no_meta (root (self im)) = true ->
  plain_ext (ext (self im)) = true ->
  get_sequence_files fs im true = Raise IndexError.
Proof.
  intros Hinit Hstart Hdir Hroot Hext. apply init_inversion in Hinit.
  rewrite (con_split Hinit) in Hdir. cbn [fst] in Hdir.
  pose proof (splitext_append _ _ _ (con_splitext Hinit)) as Hname.
  assert (Hdfs : dfs_filename im = filename (self im)).
  { destruct (con_cases Hinit) as [[_ Him]|(_ & dfs & num & Hparse & Hfirst & Him)].
    - now rewrite Him.
    - exfalso.
      pose proof (con_percent Hinit) as Hpct. rewrite <- Hname in Hpct.
      destruct (parsed_pattern _ _ _ _ Hparse (body_of_constructed _ _ _ _ Hinit) Hpct)
        as (pre & part & post & R & D & P & N & Hpre & Hpost).
      apply get_start_number_first in Hfirst. cbn [start_num] in Hfirst.
      destruct Hfirst as [(H0 & _)|[E _]]; lia. }
  assert (Hrx : get_regex_filename im = Ok (filename (self im))).
  { unfold get_regex_filename, extract_digit_format_specifiers,
      has_digit_format_specifier, findall_dfs.
    rewrite Hdfs, findall_nothing by apply (con_percent Hinit). reflexivity. }
  unfold get_sequence_files. rewrite Hrx. cbn [bind].
  unfold Fs.os_listdir. rewrite Hdir. cbn [bind].
  assert (Hfile : Fs.isfile fs path = true)
    by (apply (is_file_isfile _ _ _ (con_is_file Hinit))).
  assert (Hne : filename (self im) <> "").
  { intros E. pose proof (con_splitext Hinit) as Hs. rewrite E in Hs.
    pose proof (con_digit Hinit) as Hd. cbn in Hs. injection Hs as Hr _.
    rewrite <- Hr in Hd. discriminate. }
  pose proof (split_join _ _ _ (con_split Hinit) Hne) as Hpath.
  rewrite (collect_files_no_group fs im (filename (self im))
             (Re.seq_of (name_items (root (self im)) (ext (self im))))).
  - reflexivity.
  - rewrite <- Hname. now apply compile_name.
  - apply plain_name.
  - exists (filename (self im)). split; [|split].
    + apply (lookup_listdir _ _ _ Fs.File). rewrite <- Hpath.
      now apply isfile_lookup.
    + now rewrite <- Hpath.
    + rewrite <- Hname, name_matches_itself by exact Hext. discriminate.
Qed.

Lemma single_image_has_no_sequence_files_witness :
  exists im,
    ImageSequence.__init__ Examples.lonely ["seq"; "single.png"] None = Ok im
    /\ get_sequence_files Examples.lonely im true = Raise IndexError.
Proof.
  eexists. split; [vm_compute; reflexivity|].
  apply (single_image_has_no_sequence_files Examples.lonely
           ["seq"; "single.png"] None).
  - vm_compute. reflexivity.
  - vm_compute. reflexivity.
  - reflexivity.
  - reflexivity.
  - reflexivity.
Defined.

(** ** Renaming a single file, and the final hop *)

Module HopFacts.

Import Utils ListingFacts RenameFacts RemovalFacts FsFacts.
Import InputOutput.



(** [shutil.move] raises nothing but [shutil.Error] and [IOError]. *)
Lemma move_raises (src dst : Fs.path) (fs fs' : Fs.t) (e : exn) :
  move src dst fs = (fs', Raise e) -> e = ShutilError \/ e = IOError.
Proof.
  unfold move. intros H.
  repeat match type of H with
         | (if ?b then _ else _) = _ => destruct b
         end; try discriminate; injection H as _ <-; auto.
Qed.


(** The final hop counts every path it is given. *)
Lemma commit_count (io : t) :
  forall paths count fs fs' moved,
    commit io paths count fs = (fs', Ok moved) ->
    moved = (count + Z.of_nat (List.length paths))%Z.
Proof.
  induction paths as [|p paths IH]; intros count fs fs' moved H.
  - cbn in H. injection H as _ <-. cbn. lia.
  - cbn [commit] in H. destruct (Fs.split p) as [d fname].
    apply cbind_ok in H as (u & fs1 & _ & H).
    apply IH in H. cbn [List.length]. lia.
Qed.

Lemma commit_raises (io : t) :
  forall paths count fs fs' e,
    commit io paths count fs = (fs', Raise e) -> e = ShutilError \/ e = IOError.
Proof.
  induction paths as [|p paths IH]; intros count fs fs' e H.
  - discriminate.
  - cbn [commit] in H. destruct (Fs.split p) as [d fname].
    unfold cbind in H.
    destruct (move p _ fs) as [fs1 [u|e1]] eqn:Hm.
    + now apply IH in H.
    + injection H as _ <-. now apply move_raises in Hm.
Qed.

(** The staging loop records one path for each file it counts. *)
Lemma stage_paths (io : t) (sequence : ImageSequence.t) (tmp_dir : Fs.path)
  (idx : dfs_extract) (dfs_fname re_fname : string) (width : nat) :
  forall names count paths fs fs' count' paths',
    stage io sequence tmp_dir idx dfs_fname re_fname width names count paths fs
    = (fs', Ok (count', paths')) ->
    (count' - count)%Z
    = (Z.of_nat (List.length paths') - Z.of_nat (List.length paths))%Z.
Proof.
  induction names as [|f names IH]; intros count paths fs fs' count' paths' H.
  - cbn in H. injection H as _ <- <-. lia.
  - cbn [stage] in H.
    apply cbind_ok in H as (is_source & fs1 & Hm & H).
    apply pure_ok in Hm as [-> _].
    destruct (negb is_source); [now apply IH in H|].
    apply cbind_ok in H as (m & fs1 & Hm & H).
    apply pure_ok in Hm as [-> _].
    destruct m as [groups|]; [|now apply IH in H].
    destruct (Py.splitext f) as [rt ex].
    apply cbind_ok in H as (start & fs1 & _ & H).
    apply cbind_ok in H as (stripped & fs2 & _ & H).
    apply cbind_ok in H as (g & fs3 & _ & H).
    apply cbind_ok in H as (same & fs4 & _ & H).
    apply cbind_ok in H as (u & fs5 & _ & H).
    apply IH in H. rewrite List.length_app in H. cbn [List.length] in H. lia.
Qed.

End HopFacts.

Import Utils Notions Invariants InputOutput ImageSequence.
Import PyFacts ListingFacts RenameFacts RemovalFacts FsFacts HopFacts.



(** X29. Once the staging step of [rename_sequence_files] has staged a
    file, the call never ends in [RuntimeError]: the final hop counts one
    move for each staged path, so the check of a zero count after it
    cannot fire.  The call then succeeds, or it raises what a failed
    move raises ([shutil.Error], [IOError]) or what the final [delete]
    raises ([OSError], and [TypeError] for a removal that is refused). *)
Theorem staged_files_rule_out_runtime_error (denied : Fs.path -> bool)
  (io : InputOutput.t) (sequence : ImageSequence.t) (start_num start : Z)
  (now : string) (fs fs1 : Fs.t) (count : Z) (paths : list Fs.path) :
  im io = Some sequence ->
  ImageSequence.get_start_number fs sequence = Ok start ->
  (0 <= start)%Z ->
  staging_step io sequence start_num
    (Fs.join (input_dir io) ("tmp" ++ now)) fs = (fs1, Ok (count, paths)) ->
  count <> start_num ->
  paths <> []
  /\ exists fs' r,
       rename_sequence_files denied io start_num now fs = (fs', r)
       /\ (r = Ok tt \/ r = Raise ShutilError \/ r = Raise IOError
           \/ r = Raise OSError \/ r = Raise TypeError).
Proof.
  intros Him Hstart Hpos Hstage Hcount.
  assert (Hlen : (count - start_num)%Z = Z.of_nat (List.length paths)).
  { unfold staging_step in Hstage.
    apply cbind_ok in Hstage as (u & fs0 & _ & Hstage).
    apply cbind_ok in Hstage as (names & fs0' & _ & Hstage).
    apply cbind_ok in Hstage as (re_fname & fs0'' & _ & Hstage).
    apply stage_paths in Hstage. cbn [List.length] in Hstage. lia. }
  split.
  { intros ->. cbn in Hlen. lia. }
  unfold rename_sequence_files. rewrite Him.
  unfold cbind at 1. rewrite Hstart.
  replace (start <? 0)%Z with false by (symmetry; apply Z.ltb_ge; lia).
  unfold cbind at 1. rewrite Hstage.
  replace (count - start_num =? 0)%Z with false
    by (symmetry; apply Z.eqb_neq; lia).
  unfold cbind at 1.
  destruct (commit io paths 0 fs1) as [fs2 [moved|e]] eqn:Hcommit.
  - apply commit_count in Hcommit.
    replace (moved =? 0)%Z with false by (symmetry; apply Z.eqb_neq; lia).
    destruct (delete denied _ fs2) as [fs3 r] eqn:Hdel.
    exists fs3, r. split; [reflexivity|].
    destruct (delete_outcomes denied _ fs2 fs3 r Hdel)
      as (_ & [->|[(-> & _)|(-> & _)]]); auto.
  - apply commit_raises in Hcommit. exists fs2, (Raise e).
    destruct Hcommit as [-> | ->]; auto.
Qed.

Lemma staged_files_rule_out_runtime_error_witness :
  [["seq"; "tmp210308120000"; "img_5.jpg"];
   ["seq"; "tmp210308120000"; "img_6.jpg"];
   ["seq"; "tmp210308120000"; "img_7.jpg"]] <> []
  /\ exists fs' r,
       rename_sequence_files Examples.permissive (Examples.sample_io ["seq"]) 5
         "210308120000" Examples.three_frames = (fs', r)
       /\ (r = Ok tt \/ r = Raise ShutilError \/ r = Raise IOError
           \/ r = Raise OSError \/ r = Raise TypeError).
Proof.
  apply (staged_files_rule_out_runtime_error Examples.permissive
           (Examples.sample_io ["seq"]) Examples.sample_sequence 5 0
           "210308120000" Examples.three_frames
           [(["seq"; "tmp210308120000"; "img_7.jpg"], Fs.File);
            (["seq"; "tmp210308120000"; "img_6.jpg"], Fs.File);
            (["seq"; "tmp210308120000"; "img_5.jpg"], Fs.File);
            (["seq"; "tmp210308120000"], Fs.Dir); (["seq"], Fs.Dir)]
           8
           [["seq"; "tmp210308120000"; "img_5.jpg"];
            ["seq"; "tmp210308120000"; "img_6.jpg"];
            ["seq"; "tmp210308120000"; "img_7.jpg"]]).
  - reflexivity.
  - reflexivity.
  - lia.
  - vm_compute. reflexivity.
  - lia.
Defined.
